(** * fetchutils: a shallow embedding of FetchHelper, RequestHelper and FormHelper

    The development follows the JavaScript sources under [dist/]:
    - [fetchhelper.js]     options merging, auth resolution, status gate
                           (the variant with agent and proxy support);
    - [requesthelper.js]   query and body encoding, GET/POST call surface;
    - [formhelper.js]      multipart form session, POST call surface;
    - [httpstatuserror.js] the error raised by the status gate.

    JavaScript values are modelled as finite trees.  Objects the program
    keeps and mutates (the instance defaults, the per-call effective
    options) live in a store of cells addressed by location, so that a write
    through one reference is visible through every alias of it. *)

From Stdlib Require Import ZArith NArith Ascii String List Bool Lia.
From stdpp Require Import base list strings.
Import ListNotations.

(** ** Binary64 arithmetic

    JavaScript numbers are the IEEE 754 binary64 values.  The text of a
    number and the number a text denotes are defined by ECMA-262 in terms of
    exact arithmetic: the nearest binary64 to a decimal, and the shortest
    decimal that rounds to a binary64. *)

Module Double.

#[local] Open Scope Z_scope.

(** [10 ^ j <= num / den], for positive [num] and [den]. *)
Definition pow10_le (j : Z) (num den : Z) : bool :=
  if 0 <=? j then 10 ^ j * den <=? num else den <=? num * 10 ^ (- j).

(** The largest [L] with [2 ^ L <= num / den]. *)
Definition floor_log2 (num den : Z) : Z :=
  let e0 := Z.log2 num - Z.log2 den in
  let above := if 0 <=? e0 then den * 2 ^ e0 <=? num else den <=? num * 2 ^ (- e0) in
  if above then e0 else e0 - 1.

(** The binary64 nearest to [num / den], ties to even: [(M, E)] stands for
    [M * 2 ^ E], with [2 ^ 52 <= M < 2 ^ 53], or [M < 2 ^ 52] and
    [E = -1074] for a subnormal; [None] is an overflow. *)
Definition round (num den : Z) : option (Z * Z) :=
  let E := Z.max (floor_log2 num den - 52) (-1074) in
  let n' := if E <? 0 then num * 2 ^ (- E) else num in
  let d' := if E <? 0 then den else den * 2 ^ E in
  let q := n' / d' in
  let r := n' mod d' in
  let q' := if (d' <? 2 * r) || ((d' =? 2 * r) && Z.odd q) then q + 1 else q in
  let '(M, E') := if q' =? 2 ^ 53 then (2 ^ 52, E + 1) else (q', E) in
  if 971 <? E' then None else Some (M, E').

(** [m * 10 ^ e] as a fraction. *)
Definition ratio (m e : Z) : Z * Z :=
  if 0 <=? e then (m * 10 ^ e, 1) else (m, 10 ^ (- e)).

Definition round_decimal (m e : Z) : option (Z * Z) :=
  let '(num, den) := ratio m e in round num den.

(** The [n] with [10 ^ (n - 1) <= num / den < 10 ^ n], from an estimate. *)
Fixpoint adjust10 (fuel : nat) (n : Z) (num den : Z) : Z :=
  match fuel with
  | O => n
  | S f =>
      if negb (pow10_le (n - 1) num den) then adjust10 f (n - 1) num den
      else if pow10_le n num den then adjust10 f (n + 1) num den
      else n
  end.

Definition magnitude10 (num den : Z) : Z :=
  adjust10 8 ((Z.log2 num - Z.log2 den) * 30103 / 100000 + 1) num den.

(** [m * 10 ^ e] with the factors of ten taken out of [m]. *)
Fixpoint strip10 (fuel : nat) (m e : Z) : Z * Z :=
  match fuel with
  | O => (m, e)
  | S f =>
      if (m mod 10 =? 0) && negb (m =? 0) then strip10 f (m / 10) (e + 1) else (m, e)
  end.

Definition normal (m e : Z) : Z * Z :=
  if m =? 0 then (0, 0) else strip10 (S (Z.to_nat (Z.log2 (Z.abs m)))) m e.

(** The two decimals of [k] digits next to [M * 2 ^ E], which lies between
    [10 ^ (n - 1)] and [10 ^ n]: the one that rounds to it, the nearer of
    the two when both do, the even one when they are as near. *)
Definition candidate (M E : Z) (n k : Z) : option (Z * Z) :=
  let '(num, den) := if 0 <=? E then (M * 2 ^ E, 1) else (M, 2 ^ (- E)) in
  let p := n - k in
  let lo := if 0 <=? p then num / (den * 10 ^ p) else (num * 10 ^ (- p)) / den in
  let hi := lo + 1 in
  let ok s := match round_decimal s p with
              | Some (M', E') => (M' =? M) && (E' =? E)
              | None => false
              end in
  let lo_nearer :=
    if 0 <=? p then 2 * num <? (lo + hi) * 10 ^ p * den
    else 2 * num * 10 ^ (- p) <? (lo + hi) * den in
  let tie :=
    if 0 <=? p then 2 * num =? (lo + hi) * 10 ^ p * den
    else 2 * num * 10 ^ (- p) =? (lo + hi) * den in
  match ok lo && negb (lo =? 0), ok hi with
  | true, true => if lo_nearer || (tie && Z.even lo) then Some (lo, p) else Some (hi, p)
  | true, false => Some (lo, p)
  | false, true => Some (hi, p)
  | false, false => None
  end.

Fixpoint search (fuel : nat) (M E n k : Z) : Z * Z :=
  match fuel with
  | O => (M, E)
  | S f =>
      match candidate M E n k with
      | Some (s, p) => normal s p
      | None => search f M E n (k + 1)
      end
  end.

(** The digits [s] and the exponent [p] of the shortest decimal
    [s * 10 ^ p] that rounds to the positive binary64 [M * 2 ^ E]
    (seventeen digits always suffice). *)
Definition shortest (M E : Z) : Z * Z :=
  let '(num, den) := if 0 <=? E then (M * 2 ^ E, 1) else (M, 2 ^ (- E)) in
  search 17 M E (magnitude10 num den) 1.

End Double.

(** ** JavaScript values *)

Module Js.

(** Host objects: instances of classes implemented outside the program.
    Only what the program inspects is kept: the class, the media type of a
    Blob, the payload bytes, the fields appended to a form session. *)
Inductive HostKind : Type :=
| HBlob (type : string) (bytes : string)
| HBuffer (bytes : string)
| HArrayBuffer (bytes : string)
| HReadable
| HDuplex
| HFormData (fields : list (string * string))
| HAgent (proxy : option string).

(** Numbers.  A finite number other than zero is kept as the digits and
    the exponent of the shortest decimal that rounds to it, [m * 10 ^ e]
    with [m] no multiple of ten, the form from which ECMA-262 defines the
    text of a number; zero is [Finite 0 0].  An integer literal stands for
    the number of that value. *)
Inductive Number : Type :=
| Finite (m : Z) (e : Z)
| NegativeZero
| NaN
| Infinity (negative : bool).

Definition number_of_Z (n : Z) : Number :=
  let '(m, e) := Double.normal n 0 in Finite m e.

Coercion number_of_Z : Z >-> Number.
Bind Scope Z_scope with Number.

Definition zero (negative : bool) : Number :=
  if negative then NegativeZero else Finite 0 0.

(** The number a decimal denotes: the binary64 nearest to [m * 10 ^ e],
    negated when [negative]. *)
Definition canon (negative : bool) (m : N) (e : Z) : Number :=
  if (m =? 0)%N then zero negative
  else match Double.round_decimal (Z.of_N m) e with
       | None => Infinity negative
       | Some (M, E) =>
           if (M =? 0)%Z then zero negative
           else let '(s, p) := Double.shortest M E in
                Finite (if negative then (- s)%Z else s) p
       end.

(** The same number ([Object.is]): [NaN] is itself, the two zeros differ. *)
Definition number_eqb (x y : Number) : bool :=
  match x, y with
  | Finite m e, Finite m' e' => (m =? m')%Z && (e =? e')%Z
  | NegativeZero, NegativeZero => true
  | NaN, NaN => true
  | Infinity a, Infinity b => Bool.eqb a b
  | _, _ => false
  end.

(** The numbers of JavaScript among the decimals: a decimal that is the
    shortest one of the binary64 it rounds to. *)
Definition binary64 (x : Number) : bool :=
  match x with
  | Finite m e => number_eqb (canon (m <? 0)%Z (Z.abs_N m) e) x
  | _ => true
  end.

(** [isFinite] *)
Definition isFinite (x : Number) : bool :=
  match x with
  | Finite _ _ | NegativeZero => true
  | NaN | Infinity _ => false
  end.

(** Values.  Strings are sequences of
    bytes (the UTF-8 encoding of the text); a function is a zero-argument
    function producing a string, the only kind the program ever calls
    ([FetchAuth.credentials]), together with its source text.  Objects keep
    their properties in insertion order, which is the enumeration order of
    JavaScript for keys that are not array indices. *)
#[local] Unset Elimination Schemes.
Inductive JsValue : Type :=
| JUndefined
| JNull
| JBool (b : bool)
| JNum (x : Number)
| JStr (s : string)
| JFun (src : string) (call : unit -> string)
| JHost (h : HostKind)
| JArr (xs : list JsValue)
| JObj (props : list (string * JsValue)).
#[local] Set Elimination Schemes.

Definition Props := list (string * JsValue).

(** Induction principle that reaches inside arrays and objects. *)
Section JsValue_induction.
Variable P : JsValue -> Prop.
Hypothesis Hundef : P JUndefined.
Hypothesis Hnull : P JNull.
Hypothesis Hbool : forall b, P (JBool b).
Hypothesis Hnum : forall n, P (JNum n).
Hypothesis Hstr : forall s, P (JStr s).
Hypothesis Hfun : forall src f, P (JFun src f).
Hypothesis Hhost : forall h, P (JHost h).
Hypothesis Harr : forall xs, Forall P xs -> P (JArr xs).
Hypothesis Hobj : forall kvs, Forall (fun kv => P (snd kv)) kvs -> P (JObj kvs).

Fixpoint JsValue_deep_ind (v : JsValue) : P v :=
  match v with
  | JUndefined => Hundef
  | JNull => Hnull
  | JBool b => Hbool b
  | JNum n => Hnum n
  | JStr s => Hstr s
  | JFun src f => Hfun src f
  | JHost h => Hhost h
  | JArr xs =>
      Harr xs ((fix go (l : list JsValue) : Forall P l :=
               match l with
               | [] => List.Forall_nil P
               | x :: l' => @List.Forall_cons _ P x l' (JsValue_deep_ind x) (go l')
               end) xs)
  | JObj kvs =>
      Hobj kvs ((fix go (l : Props) : Forall (fun kv => P (snd kv)) l :=
               match l with
               | [] => List.Forall_nil _
               | kv :: l' =>
                   @List.Forall_cons _ (fun kv => P (snd kv)) kv l'
                     (JsValue_deep_ind (snd kv)) (go l')
               end) kvs)
  end.
End JsValue_induction.

(** *** Operators *)

(** [typeof v] *)
Definition typeof (v : JsValue) : string :=
  match v with
  | JUndefined => "undefined"
  | JNull => "object"
  | JBool _ => "boolean"
  | JNum _ => "number"
  | JStr _ => "string"
  | JFun _ _ => "function"
  | JHost _ | JArr _ | JObj _ => "object"
  end.

(** [v instanceof Object] *)
Definition instanceof_Object (v : JsValue) : bool :=
  match v with
  | JFun _ _ | JHost _ | JArr _ | JObj _ => true
  | _ => false
  end.

(** [v instanceof Array] *)
Definition instanceof_Array (v : JsValue) : bool :=
  match v with JArr _ => true | _ => false end.

(** ToBoolean: what [if ( v )], [!!v] and [a && b] test. *)
Definition truthy (v : JsValue) : bool :=
  match v with
  | JUndefined | JNull => false
  | JBool b => b
  | JNum (Finite m _) => negb (m =? 0)%Z
  | JNum NegativeZero | JNum NaN => false
  | JNum (Infinity _) => true
  | JStr s => negb (String.eqb s "")
  | JFun _ _ | JHost _ | JArr _ | JObj _ => true
  end.

(** *** Property tables *)

Fixpoint lookup_prop (k : string) (ps : Props) : option JsValue :=
  match ps with
  | [] => None
  | (k', v) :: ps' => if String.eqb k k' then Some v else lookup_prop k ps'
  end.

Definition has_prop (k : string) (ps : Props) : bool :=
  match lookup_prop k ps with Some _ => true | None => false end.

(** [o[k] = v] on a property table: an existing key keeps its place. *)
Fixpoint set_prop (k : string) (v : JsValue) (ps : Props) : Props :=
  match ps with
  | [] => [(k, v)]
  | (k', v') :: ps' =>
      if String.eqb k k' then (k', v) :: ps' else (k', v') :: set_prop k v ps'
  end.

(** [delete o[k]] on a property table. *)
Fixpoint delete_prop (k : string) (ps : Props) : Props :=
  match ps with
  | [] => []
  | (k', v') :: ps' =>
      if String.eqb k k' then delete_prop k ps' else (k', v') :: delete_prop k ps'
  end.

Definition keys (ps : Props) : list string := map fst ps.

(** [v[k]] where [v] is known not to be [null] or [undefined]: an absent key
    reads as [undefined]; so does any named property of a primitive, an
    array, a function or a host object. *)
Definition prop_of (v : JsValue) (k : string) : JsValue :=
  match v with
  | JObj ps => match lookup_prop k ps with Some x => x | None => JUndefined end
  | _ => JUndefined
  end.

(** [v === 'literal'] *)
Definition is_str (v : JsValue) (literal : string) : bool :=
  match v with JStr s => String.eqb s literal | _ => false end.

(** [k in v] for an object [v] and a key that names no inherited member
    (see [inherited] below): the key is one of the object's own. *)
Definition has_key (v : JsValue) (k : string) : bool :=
  match v with JObj ps => has_prop k ps | _ => false end.

(** The members every object inherits from [Object.prototype]; none of
    them is enumerable. *)
Definition Object_prototype_keys : list string :=
  ["constructor"; "__defineGetter__"; "__defineSetter__"; "hasOwnProperty";
   "__lookupGetter__"; "__lookupSetter__"; "isPrototypeOf"; "propertyIsEnumerable";
   "toString"; "valueOf"; "__proto__"; "toLocaleString"].

Definition inherited (k : string) : bool :=
  existsb (String.eqb k) Object_prototype_keys.

(** [delete v[k]] *)
Definition delete_key (v : JsValue) (k : string) : JsValue :=
  match v with JObj ps => JObj (delete_prop k ps) | _ => v end.

(** *** ToString *)

Definition digit_char (d : N) : ascii := ascii_of_N (48 + d).

(** Decimal digits of [n], most significant first, in front of [acc]. *)
Fixpoint digits_fuel (fuel : nat) (n : N) (acc : string) : string :=
  match fuel with
  | O => acc
  | S f =>
      let acc' := String (digit_char (n mod 10)) acc in
      if (n <? 10)%N then acc' else digits_fuel f (n / 10) acc'
  end.

Definition N_to_string (n : N) : string := digits_fuel (S (N.size_nat n)) n "".

(** The number of decimal digits of [s]. *)
Fixpoint ndigits_fuel (fuel : nat) (s : N) : N :=
  match fuel with
  | O => 1
  | S f => if (s <? 10)%N then 1 else (1 + ndigits_fuel f (s / 10))%N
  end.

Definition ndigits (s : N) : N := ndigits_fuel (N.size_nat s) s.

(** The [w] low decimal digits of [f], most significant first, in front of
    [acc]. *)
Fixpoint fixed_digits (w : nat) (f : N) (acc : string) : string :=
  match w with
  | O => acc
  | S w' => fixed_digits w' (f / 10) (String (digit_char (f mod 10)) acc)
  end.

(** Number::toString for the positive number of digits [s] and exponent
    [e]: with [k] the number of digits and [n = k + e] the position of the
    decimal point, the digits followed by zeros when [k <= n <= 21], the
    digits around the point when [0 < n <= 21], the digits behind [0.] and
    zeros when [-6 < n <= 0], and the exponent form otherwise. *)
Definition digits_to_string (s : N) (e : Z) : string :=
  let k := ndigits s in
  let n := (Z.of_N k + e)%Z in
  if (0 <=? e)%Z && (n <=? 21)%Z then N_to_string (s * 10 ^ Z.to_N e)
  else if (0 <? n)%Z && (n <=? 21)%Z then
    N_to_string (s / 10 ^ Z.to_N (- e)) +:+
    String "." (fixed_digits (Z.to_nat (- e)) s "")
  else if (-6 <? n)%Z && (n <=? 0)%Z then
    String "0" (String "." (fixed_digits (Z.to_nat (- e)) s ""))
  else
    String (digit_char (s / 10 ^ (k - 1)))
           (if (k =? 1)%N then ""
            else String "." (fixed_digits (N.to_nat (k - 1)) s "")) +:+
    String "e" (String (if (n - 1 <? 0)%Z then "-" else "+")
                       (N_to_string (Z.abs_N (n - 1)))).

Definition number_to_string (x : Number) : string :=
  match x with
  | NegativeZero => "0"
  | NaN => "NaN"
  | Infinity false => "Infinity"
  | Infinity true => "-Infinity"
  | Finite m e =>
      match m with
      | Z0 => "0"
      | Zpos p => digits_to_string (Npos p) e
      | Zneg p => String "-" (digits_to_string (Npos p) e)
      end
  end.

Fixpoint join (sep : string) (parts : list string) : string :=
  match parts with
  | [] => ""
  | [p] => p
  | p :: ps => p +:+ sep +:+ join sep ps
  end.

(** ToString, as applied by string concatenation and template literals. *)
Fixpoint to_string (v : JsValue) : string :=
  match v with
  | JUndefined => "undefined"
  | JNull => "null"
  | JBool true => "true"
  | JBool false => "false"
  | JNum x => number_to_string x
  | JStr s => s
  | JFun src _ => src
  | JHost _ | JObj _ => "[object Object]"
  | JArr xs =>
      join "," (map (fun x => match x with
                              | JUndefined | JNull => ""
                              | _ => to_string x
                              end) xs)
  end.

End Js.
Import Js.

(** ** Libraries the program calls

    None of these is part of the repository; each is modelled by the
    behaviour its documentation gives for the calls the program makes. *)

(** *** Buffer: [Buffer.from( s ).toString( 'base64' )] *)
Module Base64.

Definition alphabet : string :=
  "ABCDEFGHIJKLMNOPQRSTUVWXYZabcdefghijklmnopqrstuvwxyz0123456789+/".

Definition sextet (n : N) : ascii :=
  match String.get (N.to_nat (n mod 64)) alphabet with
  | Some c => c
  | None => "="%char
  end.

Fixpoint encode_bytes (bs : list N) : string :=
  match bs with
  | [] => ""
  | [a] =>
      let n := (a * 65536)%N in
      String (sextet (n / 262144)) (String (sextet (n / 4096)) "==")
  | [a; b] =>
      let n := (a * 65536 + b * 256)%N in
      String (sextet (n / 262144))
        (String (sextet (n / 4096)) (String (sextet (n / 64)) "="))
  | a :: b :: c :: rest =>
      let n := (a * 65536 + b * 256 + c)%N in
      String (sextet (n / 262144))
        (String (sextet (n / 4096))
           (String (sextet (n / 64)) (String (sextet n) (encode_bytes rest))))
  end.

Definition encode (s : string) : string :=
  encode_bytes (map N_of_ascii (list_ascii_of_string s)).

End Base64.

(** *** @yeasoft/baseutils

    The two helpers the program imports, as their names and their uses say:
    a Blob without a type has the type [''] and gets the default content
    type, so the empty string counts as not specified. *)

(** [getValidObj( value, defval )]: [value] when it is an object, [defval]
    otherwise. *)
Definition getValidObj (value defval : JsValue) : JsValue :=
  if instanceof_Object value then value else defval.

(** [getSpecifiedStr( value, defval )]: [value] when it is a non-empty
    string, [defval] otherwise.  Every call of the program passes a string
    as [defval]. *)
Definition getSpecifiedStr (value : JsValue) (defval : string) : string :=
  match value with
  | JStr s => if String.eqb s "" then defval else s
  | _ => defval
  end.

(** *** deepmerge, called as [merge( x, y )] with its default options

    The package documents: merging creates a new object, so that neither
    argument is modified; objects are merged key by key, recursively;
    arrays are merged by concatenating them; every mergeable member is
    cloned.  The program never passes an [arrayMerge], [clone] or
    [isMergeableObject] option.  A key of the source that the target
    inherits without owning it is not copied ([propertyIsUnsafe]). *)
Module Deepmerge.

(** is-mergeable-object: a non-null value of type ['object'] (functions are
    of type ['function']). *)
Definition isMergeableObject (v : JsValue) : bool :=
  match v with
  | JHost _ | JArr _ | JObj _ => true
  | _ => false
  end.

Definition emptyTarget (v : JsValue) : JsValue :=
  match v with JArr _ => JArr [] | _ => JObj [] end.

(** [propertyIsUnsafe( target, key )]: the key is on the target without
    being an enumerable member of its own.  For a record these are the
    members of [Object.prototype] it does not own; the test throws on a
    primitive, which counts as safe.  Of what a function or a host object
    inherits, only the members of [Object.prototype] are modelled, not
    those of its own class ([length], [name], [call], ...). *)
Definition propertyIsUnsafe (target : JsValue) (key : string) : bool :=
  match target with
  | JObj ps => inherited key && negb (has_prop key ps)
  | JFun _ _ | JHost _ => inherited key
  | _ => false
  end.

(** The enumerable members of a Buffer: its bytes under their indices. *)
Fixpoint buffer_members (i : N) (bytes : string) : Props :=
  match bytes with
  | EmptyString => []
  | String b r => (N_to_string i, JNum (Z.of_N (N_of_ascii b))) :: buffer_members (i + 1) r
  end.

(** The enumerable own members of a host object: a Blob and an ArrayBuffer
    have none, a Buffer has its bytes; those of a stream, a form session or
    an agent belong to their implementation and are not modelled. *)
Definition host_members (h : HostKind) : Props :=
  match h with
  | HBuffer bytes => buffer_members 0 bytes
  | _ => []
  end.

(** [cloneUnlessOtherwiseSpecified]: with the default [clone: true] a
    mergeable value is merged into an empty target of its kind, anything
    else is passed on as it is.  The empty target inherits the members of
    [Object.prototype], so a key that names one of them is left out. *)
Fixpoint clone (v : JsValue) : JsValue :=
  match v with
  | JArr xs => JArr (map clone xs)
  | JObj ps =>
      JObj (fold_left
              (fun dst kv =>
                 if inherited (fst kv) then dst
                 else set_prop (fst kv) (clone (snd kv)) dst)
              ps [])
  | JHost h => JObj (host_members h)
  | _ => v
  end.

(** The members [mergeObject] copies from its target first: every
    enumerable own member of a mergeable target, cloned.  (An own member
    named [__proto__], which [JSON.parse] or a computed key can make, would
    be assigned as the prototype of the result instead; the statements on
    merged options take the defaults not to own one, as is the case of
    what a merge has made.) *)
Definition cloned_props (target : JsValue) : Props :=
  match target with
  | JObj ps => fold_left (fun dst kv => set_prop (fst kv) (clone (snd kv)) dst) ps []
  | JHost h => host_members h
  | _ => []
  end.

(** [deepmerge( target, source )]:
    - one argument is an array and the other is not: a clone of [source];
    - both are arrays: [defaultArrayMerge], the concatenation of the cloned
      elements;
    - otherwise [mergeObject]: the cloned members of [target], then every
      key of [source] that is not unsafe, merged recursively when the key
      is on [target] and the source value is mergeable, cloned over it
      otherwise. *)
Fixpoint deepmerge (target source : JsValue) {struct source} : JsValue :=
  match source with
  | JArr ys =>
      match target with
      | JArr xs => JArr (map clone xs ++ map clone ys)
      | _ => JArr (map clone ys)
      end
  | JObj sps =>
      match target with
      | JArr _ => clone source
      | _ =>
          JObj (fold_left
                  (fun dst kv =>
                     if propertyIsUnsafe target (fst kv) then dst
                     else if has_key target (fst kv) && isMergeableObject (snd kv)
                     then set_prop (fst kv) (deepmerge (prop_of target (fst kv)) (snd kv)) dst
                     else set_prop (fst kv) (clone (snd kv)) dst)
                  sps (cloned_props target))
      end
  | JHost h =>
      match target with
      | JArr _ => clone source
      | _ =>
          JObj (fold_left
                  (fun dst kv =>
                     if propertyIsUnsafe target (fst kv) then dst
                     else set_prop (fst kv) (snd kv) dst)
                  (host_members h) (cloned_props target))
      end
  | _ =>
      match target with
      | JArr _ => clone source
      | _ => JObj (cloned_props target)
      end
  end.

End Deepmerge.

Abbreviation merge := Deepmerge.deepmerge.

(** *** JSON: [JSON.stringify( value )] and [JSON.parse( text )] *)
Module JSON.

Definition dquote : ascii := "034"%char.
Definition backslash : ascii := "092"%char.

Definition hex_char (n : N) : ascii :=
  if (n <? 10)%N then ascii_of_N (48 + n) else ascii_of_N (87 + n).

(** QuoteJSONString, one code unit: the quote, the backslash and the
    control characters are escaped. *)
Definition escape_char (c : ascii) : string :=
  let n := N_of_ascii c in
  if Ascii.eqb c dquote then String backslash (String dquote "")
  else if Ascii.eqb c backslash then String backslash (String backslash "")
  else if (n =? 8)%N then String backslash "b"
  else if (n =? 9)%N then String backslash "t"
  else if (n =? 10)%N then String backslash "n"
  else if (n =? 12)%N then String backslash "f"
  else if (n =? 13)%N then String backslash "r"
  else if (n <? 32)%N then
    String backslash
      (String "u" (String "0" (String "0"
         (String (hex_char (n / 16)) (String (hex_char (n mod 16)) "")))))
  else String c "".

Fixpoint escape (s : string) : string :=
  match s with
  | EmptyString => ""
  | String c r => escape_char c +:+ escape r
  end.

Definition quote (s : string) : string :=
  String dquote (escape s +:+ String dquote "").

(** SerializeJSONProperty without indentation.  [None] is the [undefined]
    that [JSON.stringify] returns for [undefined] and for a function; inside
    an array such an element is written [null], inside an object the member
    is left out.  A number that is not finite is written [null].  A Buffer
    is written as its [toJSON] gives it; of the other host objects the
    members are not kept, and they are written as an object without
    members. *)
Fixpoint stringify (v : JsValue) : option string :=
  match v with
  | JUndefined | JFun _ _ => None
  | JNull => Some "null"
  | JBool true => Some "true"
  | JBool false => Some "false"
  | JNum x => Some (if isFinite x then number_to_string x else "null")
  | JStr s => Some (quote s)
  | JHost (HBuffer bytes) =>
      Some ("{" +:+ quote "type" +:+ ":" +:+ quote "Buffer" +:+ "," +:+
            quote "data" +:+ ":[" +:+
            join "," (map (fun b => N_to_string (N_of_ascii b)) (list_ascii_of_string bytes)) +:+
            "]}")
  | JHost _ => Some "{}"
  | JArr xs =>
      Some ("[" +:+
            join "," (map (fun x => match stringify x with
                                    | Some t => t
                                    | None => "null"
                                    end) xs) +:+ "]")
  | JObj ps =>
      Some ("{" +:+
            join "," (flat_map (fun kv => match stringify (snd kv) with
                                          | Some t => [quote (fst kv) +:+ ":" +:+ t]
                                          | None => []
                                          end) ps) +:+ "}")
  end.

(** The value [options.body] receives from [JSON.stringify( data )]. *)
Definition stringify_value (v : JsValue) : JsValue :=
  match stringify v with Some t => JStr t | None => JUndefined end.

(** **** Decoding *)

Definition is_ws (c : ascii) : bool :=
  let n := N_of_ascii c in
  ((n =? 32) || (n =? 9) || (n =? 10) || (n =? 13))%N.

Fixpoint skip_ws (s : string) : string :=
  match s with
  | EmptyString => ""
  | String c r => if is_ws c then skip_ws r else s
  end.

Definition digit_val (c : ascii) : option N :=
  let n := N_of_ascii c in
  if ((48 <=? n) && (n <=? 57))%N then Some (n - 48)%N else None.

Definition hex_val (c : ascii) : option N :=
  let n := N_of_ascii c in
  if ((48 <=? n) && (n <=? 57))%N then Some (n - 48)%N
  else if ((97 <=? n) && (n <=? 102))%N then Some (n - 87)%N
  else if ((65 <=? n) && (n <=? 70))%N then Some (n - 55)%N
  else None.

Fixpoint parse_digits (acc : N) (s : string) : N * string :=
  match s with
  | EmptyString => (acc, "")
  | String c r =>
      match digit_val c with
      | Some d => parse_digits (acc * 10 + d) r
      | None => (acc, s)
      end
  end.

(** The integer part of a JSON number: [0], or a digit from 1 to 9 followed
    by digits. *)
Definition parse_int (s : string) : option (N * string) :=
  match s with
  | EmptyString => None
  | String c r =>
      match digit_val c with
      | Some 0%N => Some (0%N, r)
      | Some d => Some (parse_digits d r)
      | None => None
      end
  end.

(** What cannot continue a number: the end of the text, or a character
    that is no digit, no point and no exponent mark. *)
Definition number_end (s : string) : bool :=
  match s with
  | EmptyString => true
  | String c _ =>
      match digit_val c with
      | Some _ => false
      | None => negb (Ascii.eqb c "." || Ascii.eqb c "e" || Ascii.eqb c "E")
      end
  end.

(** Digits of a fraction: each one extends the digits read so far and
    lowers the exponent by one. *)
Fixpoint parse_fraction (acc : N) (e : Z) (s : string) : N * Z * string :=
  match s with
  | EmptyString => (acc, e, "")
  | String c r =>
      match digit_val c with
      | Some d => parse_fraction (acc * 10 + d) (e - 1) r
      | None => (acc, e, s)
      end
  end.

(** The optional fraction: a point followed by at least one digit. *)
Definition parse_frac (int : N) (s : string) : option (N * Z * string) :=
  match s with
  | String "." r =>
      match r with
      | String c _ =>
          match digit_val c with
          | Some _ => Some (parse_fraction int 0 r)
          | None => None
          end
      | EmptyString => None
      end
  | _ => Some (int, 0%Z, s)
  end.

(** At least one digit. *)
Definition parse_exp_digits (s : string) : option (N * string) :=
  match s with
  | String c _ =>
      match digit_val c with
      | Some _ => Some (parse_digits 0 s)
      | None => None
      end
  | EmptyString => None
  end.

(** The optional exponent: [e] or [E], an optional sign, digits. *)
Definition parse_exp (s : string) : option (Z * string) :=
  match s with
  | String c r =>
      if Ascii.eqb c "e" || Ascii.eqb c "E" then
        match r with
        | String "-" r' =>
            match parse_exp_digits r' with
            | Some (x, rest) => Some (Z.opp (Z.of_N x), rest)
            | None => None
            end
        | String "+" r' =>
            match parse_exp_digits r' with
            | Some (x, rest) => Some (Z.of_N x, rest)
            | None => None
            end
        | _ =>
            match parse_exp_digits r with
            | Some (x, rest) => Some (Z.of_N x, rest)
            | None => None
            end
        end
      else Some (0%Z, s)
  | EmptyString => Some (0%Z, "")
  end.

(** An unsigned JSON number: the digits read and the decimal exponent. *)
Definition parse_unsigned (s : string) : option (N * Z * string) :=
  match parse_int s with
  | Some (int, s1) =>
      match parse_frac int s1 with
      | Some (digits, scale, s2) =>
          match parse_exp s2 with
          | Some (x, rest) => Some (digits, (x + scale)%Z, rest)
          | None => None
          end
      | None => None
      end
  | None => None
  end.

(** A JSON number and the number it denotes. *)
Definition parse_number (s : string) : option (Number * string) :=
  match s with
  | String "-" r =>
      match parse_unsigned r with
      | Some (digits, e, rest) => Some (canon true digits e, rest)
      | None => None
      end
  | _ =>
      match parse_unsigned s with
      | Some (digits, e, rest) => Some (canon false digits e, rest)
      | None => None
      end
  end.

(** The UTF-8 bytes of the code unit a [\u] escape denotes. *)
Definition utf8 (n : N) : string :=
  if (n <? 128)%N then String (ascii_of_N n) ""
  else if (n <? 2048)%N then
    String (ascii_of_N (192 + n / 64)) (String (ascii_of_N (128 + n mod 64)) "")
  else
    String (ascii_of_N (224 + n / 4096))
      (String (ascii_of_N (128 + (n / 64) mod 64))
         (String (ascii_of_N (128 + n mod 64)) "")).

Definition hex4 (a b c d : ascii) : option N :=
  match hex_val a, hex_val b, hex_val c, hex_val d with
  | Some x, Some y, Some z, Some w => Some (((x * 16 + y) * 16 + z) * 16 + w)%N
  | _, _, _, _ => None
  end.

Definition simple_escape (e : ascii) : option ascii :=
  if Ascii.eqb e dquote then Some dquote
  else if Ascii.eqb e backslash then Some backslash
  else if Ascii.eqb e "/" then Some "/"%char
  else if Ascii.eqb e "b" then Some "008"%char
  else if Ascii.eqb e "f" then Some "012"%char
  else if Ascii.eqb e "n" then Some "010"%char
  else if Ascii.eqb e "r" then Some "013"%char
  else if Ascii.eqb e "t" then Some "009"%char
  else None.

(** The characters of a string literal after its opening quote, up to and
    including the closing quote. *)
Fixpoint parse_chars (s : string) : option (string * string) :=
  match s with
  | EmptyString => None
  | String c r =>
      if Ascii.eqb c dquote then Some ("", r)
      else if Ascii.eqb c backslash then
        match r with
        | EmptyString => None
        | String e r' =>
            if Ascii.eqb e "u" then
              match r' with
              | String h1 (String h2 (String h3 (String h4 r''))) =>
                  match hex4 h1 h2 h3 h4, parse_chars r'' with
                  | Some n, Some (t, rest) => Some (utf8 n +:+ t, rest)
                  | _, _ => None
                  end
              | _ => None
              end
            else
              match simple_escape e, parse_chars r' with
              | Some x, Some (t, rest) => Some (String x t, rest)
              | _, _ => None
              end
        end
      else if (N_of_ascii c <? 32)%N then None
      else
        match parse_chars r with
        | Some (t, rest) => Some (String c t, rest)
        | None => None
        end
  end.

(** [s] without its prefix [word], when it starts with it. *)
Fixpoint strip_prefix (word s : string) : option string :=
  match word with
  | EmptyString => Some s
  | String a word' =>
      match s with
      | EmptyString => None
      | String b s' => if Ascii.eqb a b then strip_prefix word' s' else None
      end
  end.

Definition expect (word : string) (s : string) (v : JsValue)
  : option (JsValue * string) :=
  match strip_prefix word s with
  | Some rest => Some (v, rest)
  | None => None
  end.

(** Recursive descent; [fuel] bounds the nesting and the number of elements
    and members still to be read. *)
Fixpoint parse_value (fuel : nat) (s : string) : option (JsValue * string) :=
  match fuel with
  | O => None
  | S f =>
      match skip_ws s with
      | EmptyString => None
      | String c r =>
          if Ascii.eqb c "n" then expect "ull" r JNull
          else if Ascii.eqb c "t" then expect "rue" r (JBool true)
          else if Ascii.eqb c "f" then expect "alse" r (JBool false)
          else if Ascii.eqb c dquote then
            match parse_chars r with
            | Some (t, rest) => Some (JStr t, rest)
            | None => None
            end
          else if Ascii.eqb c "[" then
            match skip_ws r with
            | String "]" r' => Some (JArr [], r')
            | _ =>
                match parse_elements f r with
                | Some (vs, rest) => Some (JArr vs, rest)
                | None => None
                end
            end
          else if Ascii.eqb c "{" then
            match skip_ws r with
            | String "}" r' => Some (JObj [], r')
            | _ =>
                match parse_members f r [] with
                | Some (ps, rest) => Some (JObj ps, rest)
                | None => None
                end
            end
          else
            match parse_number (String c r) with
            | Some (x, rest) => Some (JNum x, rest)
            | None => None
            end
      end
  end
with parse_elements (fuel : nat) (s : string) : option (list JsValue * string) :=
  match fuel with
  | O => None
  | S f =>
      match parse_value f s with
      | None => None
      | Some (v, r) =>
          match skip_ws r with
          | String c r' =>
              if Ascii.eqb c "," then
                match parse_elements f r' with
                | Some (vs, rest) => Some (v :: vs, rest)
                | None => None
                end
              else if Ascii.eqb c "]" then Some ([v], r')
              else None
          | EmptyString => None
          end
      end
  end
with parse_members (fuel : nat) (s : string) (acc : Props) : option (Props * string) :=
  match fuel with
  | O => None
  | S f =>
      match skip_ws s with
      | EmptyString => None
      | String c r =>
          if Ascii.eqb c dquote then
            match parse_chars r with
            | None => None
            | Some (k, r1) =>
                match skip_ws r1 with
                | String ":" r2 =>
                    match parse_value f r2 with
                    | None => None
                    | Some (v, r3) =>
                        match skip_ws r3 with
                        | String c3 r4 =>
                            if Ascii.eqb c3 "," then parse_members f r4 (set_prop k v acc)
                            else if Ascii.eqb c3 "}" then Some (set_prop k v acc, r4)
                            else None
                        | EmptyString => None
                        end
                    end
                | _ => None
                end
            end
          else None
      end
  end.

(** [JSON.parse( text )]; [None] is a [SyntaxError]. *)
Definition parse (text : string) : option JsValue :=
  match parse_value (S (String.length text)) text with
  | Some (v, rest) =>
      match skip_ws rest with
      | EmptyString => Some v
      | _ => None
      end
  | None => None
  end.

(** Deep equality of two values: the same primitive (numbers as
    [Object.is] compares them), arrays equal element by element, objects with the same keys and deeply equal members
    whatever the order of the keys.  Functions and host objects are compared
    by identity, which a decoded value never shares with another value. *)
Fixpoint deep_equal (a b : JsValue) : bool :=
  match a, b with
  | JUndefined, JUndefined => true
  | JNull, JNull => true
  | JBool x, JBool y => Bool.eqb x y
  | JNum x, JNum y => number_eqb x y
  | JStr x, JStr y => String.eqb x y
  | JArr xs, JArr ys =>
      (fix all2 (l : list JsValue) (r : list JsValue) : bool :=
         match l, r with
         | [], [] => true
         | x :: l', y :: r' => deep_equal x y && all2 l' r'
         | _, _ => false
         end) xs ys
  | JObj ps, JObj qs =>
      Nat.eqb (length ps) (length qs) &&
      forallb (fun kv => match lookup_prop (fst kv) qs with
                         | Some w => deep_equal (snd kv) w
                         | None => false
                         end) ps
  | _, _ => false
  end.

End JSON.

(** *** node-fetch: the response ticket *)

Record Response : Type := mkResponse {
  status : Z;
  statusText : string;
  body : string
}.

(** [res.ok]: the status is in the range 200-299. *)
Definition ok (res : Response) : bool :=
  ((200 <=? status res) && (status res <=? 299))%Z.

(** ** httpstatuserror.js *)

Record HttpStatusError : Type := mkHttpStatusError {
  err_message : string;
  err_status : Z;
  err_code : Z;
  err_res : Response
}.

(** [new HttpStatusError( message, status, res )] *)
Definition new_HttpStatusError (message : string) (status : Z) (res : Response)
  : HttpStatusError :=
  {| err_message := message; err_status := status; err_code := status; err_res := res |}.

(** ** Failures

    What a call can throw, or reject its promise with. *)
Inductive JsError : Type :=
| TypeError (message : string)
| Error (message : string)
| SyntaxError (message : string)
| FetchError (message : string)
| HttpStatus (e : HttpStatusError).

Inductive Result (A : Type) : Type :=
| Ok (a : A)
| Throw (e : JsError).
Arguments Ok {A} a.
Arguments Throw {A} e.

(** ** The store and the instance

    A cell holds the value of one object the program has a reference to: the
    instance's [defaults], [queryOptions] and [formOptions], and the
    effective options of a call.  [merge] returns a new object that shares
    no mergeable part with its arguments, so it is modelled by allocation; a
    member assignment or [delete] through a reference is a write to its
    cell. *)

Definition loc := nat.

(** The fields of [this], for the three classes: a [FetchHelper] leaves the
    fields of the subclasses at their blank values. *)
Record Instance : Type := mkInstance {
  defaults : loc;
  auth : JsValue;
  baseurl : string;
  onlysuccessful : bool;
  agent : JsValue;
  queryOptions : loc;   (* RequestHelper *)
  formOptions : loc;    (* FormHelper *)
  formData : JsValue    (* FormHelper *)
}.

Definition with_defaults (d : loc) (t : Instance) : Instance :=
  {| defaults := d; auth := auth t; baseurl := baseurl t;
     onlysuccessful := onlysuccessful t; agent := agent t;
     queryOptions := queryOptions t; formOptions := formOptions t;
     formData := formData t |}.

Definition with_auth (a : JsValue) (t : Instance) : Instance :=
  {| defaults := defaults t; auth := a; baseurl := baseurl t;
     onlysuccessful := onlysuccessful t; agent := agent t;
     queryOptions := queryOptions t; formOptions := formOptions t;
     formData := formData t |}.

Definition with_baseurl (u : string) (t : Instance) : Instance :=
  {| defaults := defaults t; auth := auth t; baseurl := u;
     onlysuccessful := onlysuccessful t; agent := agent t;
     queryOptions := queryOptions t; formOptions := formOptions t;
     formData := formData t |}.

Definition with_onlysuccessful (b : bool) (t : Instance) : Instance :=
  {| defaults := defaults t; auth := auth t; baseurl := baseurl t;
     onlysuccessful := b; agent := agent t;
     queryOptions := queryOptions t; formOptions := formOptions t;
     formData := formData t |}.

Definition with_agent (a : JsValue) (t : Instance) : Instance :=
  {| defaults := defaults t; auth := auth t; baseurl := baseurl t;
     onlysuccessful := onlysuccessful t; agent := a;
     queryOptions := queryOptions t; formOptions := formOptions t;
     formData := formData t |}.

Definition with_queryOptions (q : loc) (t : Instance) : Instance :=
  {| defaults := defaults t; auth := auth t; baseurl := baseurl t;
     onlysuccessful := onlysuccessful t; agent := agent t;
     queryOptions := q; formOptions := formOptions t;
     formData := formData t |}.

Definition with_formOptions (q : loc) (t : Instance) : Instance :=
  {| defaults := defaults t; auth := auth t; baseurl := baseurl t;
     onlysuccessful := onlysuccessful t; agent := agent t;
     queryOptions := queryOptions t; formOptions := q;
     formData := formData t |}.

Definition with_formData (f : JsValue) (t : Instance) : Instance :=
  {| defaults := defaults t; auth := auth t; baseurl := baseurl t;
     onlysuccessful := onlysuccessful t; agent := agent t;
     queryOptions := queryOptions t; formOptions := formOptions t;
     formData := f |}.

(** The object a constructor starts from. *)
Definition blank : Instance :=
  {| defaults := 0; auth := JUndefined; baseurl := ""; onlysuccessful := false;
     agent := JUndefined; queryOptions := 0; formOptions := 0;
     formData := JUndefined |}.

Record State : Type := mkState {
  this : Instance;
  heap : list JsValue
}.

(** Computations: they read and write the state and return or throw. A
    promise is identified with the outcome it settles to. *)
Definition M (A : Type) : Type := State -> Result A * State.

#[global] Instance M_ret : MRet M := fun A a st => (Ok a, st).
#[global] Instance M_bind : MBind M := fun A B f m st =>
  match m st with
  | (Ok a, st') => f a st'
  | (Throw e, st') => (Throw e, st')
  end.

Definition throw {A} (e : JsError) : M A := fun st => (Throw e, st).

Definition lift {A} (r : Result A) : M A := fun st => (r, st).

Definition get_this : M Instance := fun st => (Ok (this st), st).

Definition set_this (t : Instance) : M unit :=
  fun st => (Ok tt, {| this := t; heap := heap st |}).

(** [this.field = value] *)
Definition update_this (f : Instance -> Instance) : M unit :=
  fun st => (Ok tt, {| this := f (this st); heap := heap st |}).

Definition cell (h : list JsValue) (l : loc) : JsValue :=
  match h !! l with Some v => v | None => JUndefined end.

Definition alloc (v : JsValue) : M loc :=
  fun st => (Ok (length (heap st)), {| this := this st; heap := heap st ++ [v] |}).

Definition read (l : loc) : M JsValue := fun st => (Ok (cell (heap st) l), st).

Definition write (l : loc) (v : JsValue) : M unit :=
  fun st => (Ok tt, {| this := this st; heap := <[l := v]> (heap st) |}).

(** [o[k]] for a value [o] that may be [null] or [undefined]. *)
Definition member (o : JsValue) (k : string) : Result JsValue :=
  match o with
  | JUndefined | JNull => Throw (TypeError ("Cannot read properties of " +:+ to_string o))
  | _ => Ok (prop_of o k)
  end.

(** [o[k] = v] in strict mode: a property of a plain object is created or
    overwritten; [null], [undefined] and primitives throw.  Arrays,
    functions and host objects have no named members in the model, and a
    named property set on one of them is not kept.  The program sets such
    properties on [headers] only; an array or a host object found there is
    a copy the merge has made, a function is the function of the defaults
    or of the overrides itself, so that the write reaches them: the
    statements on what a call leaves unchanged exclude a function as the
    [headers] of the defaults. *)
Definition set_member (o : JsValue) (k : string) (v : JsValue) : Result JsValue :=
  match o with
  | JObj ps => Ok (JObj (set_prop k v ps))
  | JArr _ | JFun _ _ | JHost _ => Ok o
  | JUndefined | JNull => Throw (TypeError ("Cannot set properties of " +:+ to_string o))
  | _ => Throw (TypeError ("Cannot create property " +:+ k))
  end.

(** [ref[k]] *)
Definition read_member (ref : loc) (k : string) : M JsValue :=
  o ← read ref; lift (member o k).

(** [ref[k] = v] *)
Definition assign (ref : loc) (k : string) (v : JsValue) : M unit :=
  o ← read ref; o' ← lift (set_member o k v); write ref o'.

(** [ref[k1][k2] = v] *)
Definition assign_in (ref : loc) (k1 k2 : string) (v : JsValue) : M unit :=
  o ← read ref;
  inner ← lift (member o k1);
  inner' ← lift (set_member inner k2 v);
  match inner with
  | JObj _ => assign ref k1 inner'
  | _ => mret tt
  end.

(** [delete ref[k]] *)
Definition delete_member (ref : loc) (k : string) : M unit :=
  o ← read ref;
  match o with
  | JUndefined | JNull => throw (TypeError "Cannot convert undefined or null to object")
  | _ => write ref (delete_key o k)
  end.

(** ** The environment of the program *)

Section Program.

(** [fetch( url, options )] of node-fetch: the transport.  It is given the
    request URL and the options object and settles to a response ticket or
    to a failure of its own. *)
Variable transport : string -> JsValue -> Result Response.

(** [queryString.stringify( object, options )] of query-string. *)
Variable queryString_stringify : JsValue -> JsValue -> string.

(** What the free identifier [credentials] is bound to in the global scope:
    [JUndefined] when, as in a plain Node.js process, nothing declares it. *)
Variable global_credentials : JsValue.

(** ** fetchhelper.js *)

(** [ensureObjMember( obj, key, defval )] *)
Definition ensureObjMember (obj : loc) (key : string) (defval : JsValue) : M unit :=
  v ← read_member obj key;
  if negb (instanceof_Object v) then assign obj key defval else mret tt.

(** [prepareAuth( auth )] *)
Definition prepareAuth (auth : JsValue) : Result JsValue :=
  match auth with
  | JUndefined | JNull =>
      Throw (TypeError ("Cannot read properties of " +:+ to_string auth))
  | _ =>
      if truthy (prop_of auth "username") && truthy (prop_of auth "password") then
        Ok (JStr ("Basic " +:+
                  Base64.encode (to_string (prop_of auth "username") +:+ ":" +:+
                                 to_string (prop_of auth "password"))))
      else if String.eqb (typeof (prop_of auth "credentials")) "function" then
        Ok (JStr (getSpecifiedStr (prop_of auth "authtype") "Bearer" +:+ " " +:+
                  match prop_of auth "credentials" with
                  | JFun _ call => call tt
                  | _ => ""
                  end))
      else if String.eqb (typeof global_credentials) "string" then
        Ok (JStr (getSpecifiedStr (prop_of auth "authtype") "Bearer" +:+ " " +:+
                  to_string (prop_of auth "credentials")))
      else Ok JUndefined
  end.

(** [this.setAuth( auth )] *)
Definition setAuth (a : JsValue) : M unit :=
  v ← lift (prepareAuth a); update_this (with_auth v).

(** [this.setBasicAuth( username, password )] *)
Definition setBasicAuth (username password : JsValue) : M unit :=
  v ← lift (prepareAuth (JObj [("username", username); ("password", password)]));
  update_this (with_auth v).

(** [this.setBaseUrl( url )] *)
Definition setBaseUrl (url : JsValue) : M unit :=
  update_this (with_baseurl (getSpecifiedStr url "")).

(** [this.setAgent( agent )] *)
Definition setAgent (a : JsValue) : M unit := update_this (with_agent a).

(** [this.setProxy( proxy )]: a [ProxyAgent] is made from an options object,
    from a proxy URL, or from the environment. *)
Definition setProxy (proxy : JsValue) : M unit :=
  t ← get_this;
  if instanceof_Object proxy || String.eqb (typeof proxy) "string"
     || match proxy with JBool true => true | _ => false end
     || negb (truthy (agent t))
  then
    if instanceof_Object proxy then update_this (with_agent (JHost (HAgent None)))
    else match proxy with
         | JStr s => update_this (with_agent (JHost (HAgent (Some s))))
         | JBool true => update_this (with_agent (JHost (HAgent None)))
         | _ => mret tt
         end
  else mret tt.

(** [this.setOnlySuccesful( onlysuccessful )] *)
Definition setOnlySuccesful (v : JsValue) : M unit :=
  update_this (with_onlysuccessful (truthy v)).

(** [this._extractOptions( options, keylist )]: the keys of [keylist] found
    in the object behind [options] are moved, in the order of [keylist],
    into a new object, which is returned. *)
Fixpoint extract_each (options : loc) (keylist : list string) (extracted : Props)
  : M Props :=
  match keylist with
  | [] => mret extracted
  | key :: rest =>
      o ← read options;
      if has_key o key then
        _ ← delete_member options key;
        extract_each options rest (set_prop key (prop_of o key) extracted)
      else extract_each options rest extracted
  end.

Definition _extractOptions (options : loc) (keylist : list string) : M JsValue :=
  o ← read options;
  if instanceof_Object o then
    ps ← extract_each options keylist []; mret (JObj ps)
  else mret (JObj []).

(** [this._prepareOptions( options )]: returns the reference to the merged
    object. *)
Definition _prepareOptions (options : JsValue) : M loc :=
  t ← get_this;
  d ← read (defaults t);
  result ← alloc (merge d (getValidObj options (JObj [])));
  result_auth ← read_member result "auth";
  a ← (if instanceof_Object result_auth then lift (prepareAuth result_auth)
       else mret (auth t));
  _ ← delete_member result "auth";
  _ ← (if truthy a then assign_in result "headers" "Authorization" a else mret tt);
  _ ← (if truthy (agent t) then assign result "agent" (agent t) else mret tt);
  mret result.

(** [fetch( url, options )] on the object behind [options]. *)
Definition node_fetch (url : string) (options : loc) : M Response :=
  o ← read options; lift (transport url o).

(** [this._fetch( url, options )] *)
Definition _fetch (url : JsValue) (options : loc) : M Response :=
  t ← get_this;
  options_baseurl ← read_member options "baseurl";
  let baseurl := getSpecifiedStr options_baseurl (baseurl t) in
  options_onlysuccessful ← read_member options "onlysuccessful";
  let onlysuccessful :=
    if String.eqb (typeof options_onlysuccessful) "boolean"
    then truthy options_onlysuccessful
    else onlysuccessful t in
  _ ← delete_member options "baseurl";
  _ ← delete_member options "onlysuccessful";
  if onlysuccessful then
    res ← node_fetch (baseurl +:+ to_string url) options;
    if ok res then mret res
    else throw (HttpStatus (new_HttpStatusError (statusText res) (status res) res))
  else node_fetch (baseurl +:+ to_string url) options.

(** [this.fetch( url, options )] *)
Definition fetch (url : JsValue) (options : JsValue) : M Response :=
  o ← _prepareOptions options; _fetch url o.

(** [new FetchHelper( options )] *)
Definition FetchHelper_constructor (options : JsValue) : M unit :=
  d ← alloc (merge (JObj []) (getValidObj options (JObj [])));
  _ ← update_this (with_defaults d);
  _ ← ensureObjMember d "headers" (JObj []);
  _ ← ensureObjMember d "auth" (JObj []);
  fhoptions ← _extractOptions d ["auth"; "onlysuccessful"; "baseurl"; "agent"; "proxy"];
  _ ← setAuth (prop_of fhoptions "auth");
  _ ← setOnlySuccesful (prop_of fhoptions "onlysuccessful");
  _ ← setBaseUrl (prop_of fhoptions "baseurl");
  _ ← setAgent (prop_of fhoptions "agent");
  setProxy (prop_of fhoptions "proxy").

(** ** requesthelper.js *)

Definition QUERY_OPTIONS : list string :=
  ["strict"; "encode"; "sort"; "arrayFormat"; "arrayFormatSeparator";
   "skipNull"; "skipEmptyString"].

(** The decoders of a response ticket: [res.json()], [res.text()],
    [res.blob()], [res.arrayBuffer()], [res.buffer()]. *)
Definition res_json (res : Response) : M JsValue :=
  match JSON.parse (body res) with
  | Some v => mret v
  | None => throw (SyntaxError "invalid json response body")
  end.
Definition res_text (res : Response) : M JsValue := mret (JStr (body res)).
Definition res_blob (res : Response) : M JsValue := mret (JHost (HBlob "" (body res))).
Definition res_arrayBuffer (res : Response) : M JsValue :=
  mret (JHost (HArrayBuffer (body res))).
Definition res_buffer (res : Response) : M JsValue := mret (JHost (HBuffer (body res))).

(** [s.split( sep )] for a one-character separator. *)
Fixpoint split (sep : ascii) (s : string) : list string :=
  match s with
  | EmptyString => [""]
  | String c r =>
      if Ascii.eqb c sep then "" :: split sep r
      else match split sep r with
           | h :: t => String c h :: t
           | [] => [String c ""]
           end
  end.

(** [testJsonContentType( contentType )] *)
Definition testJsonContentType (contentType : JsValue) : bool :=
  match contentType with
  | JStr ct =>
      match split "/" ct with
      | _ :: second :: _ => existsb (String.eqb "json") (rev (split "+" second))
      | _ => false
      end
  | _ => false
  end.

(** [ensureContentType( options, defval )] *)
Definition ensureContentType (options : loc) (defval : JsValue) : M unit :=
  headers ← read_member options "headers";
  ct ← lift (member headers "Content-Type");
  match ct with
  | JUndefined =>
      assign_in options "headers" "Content-Type"
        (JStr (getSpecifiedStr defval "application/octet-stream"))
  | _ => mret tt
  end.

(** [this._prepareParams( options, params )] *)
Definition _prepareParams (options : loc) (params : JsValue) : M string :=
  t ← get_this;
  extracted ← _extractOptions options QUERY_OPTIONS;
  q ← read (queryOptions t);
  let queryOptions := merge q extracted in
  if instanceof_Object params then
    let result := queryString_stringify params queryOptions in
    mret (if String.eqb result "" then "" else "?" +:+ result)
  else mret "".

(** [this._prepareBody( options, data )] *)
Definition _prepareBody (options : loc) (data : JsValue) : M loc :=
  _ ← match data with
      | JNull | JUndefined => assign options "body" JNull
      | JStr _ =>
          _ ← ensureContentType options (JStr "text/plain");
          assign options "body" data
      | JHost (HBlob type _) =>
          _ ← ensureContentType options (JStr type);
          assign options "body" data
      | JHost (HBuffer _) | JHost (HArrayBuffer _) =>
          _ ← ensureContentType options JUndefined;
          assign options "body" data
      | JHost HReadable | JHost HDuplex =>
          _ ← ensureContentType options JUndefined;
          assign options "body" data
      | _ =>
          if instanceof_Object data then
            headers ← read_member options "headers";
            ct ← lift (member headers "Content-Type");
            match ct with
            | JUndefined =>
                _ ← assign_in options "headers" "Content-Type" (JStr "application/json");
                assign options "body" (JSON.stringify_value data)
            | _ =>
                if is_str ct "application/json" then
                  assign options "body" (JSON.stringify_value data)
                else if is_str ct "application/x-www-form-urlencoded" then
                  t ← get_this;
                  extracted ← _extractOptions options QUERY_OPTIONS;
                  q ← read (queryOptions t);
                  assign options "body"
                    (JStr (queryString_stringify data (merge q extracted)))
                else if testJsonContentType ct then
                  assign options "body" (JSON.stringify_value data)
                else throw (Error ("Invalid Content-Type " +:+ to_string ct))
            end
          else throw (TypeError ("Unsupported data type " +:+ typeof data))
      end;
  mret options.

(** [this.get( url, params, options )] *)
Definition get (url params options : JsValue) : M Response :=
  options ← _prepareOptions options;
  _ ← assign options "method" (JStr "GET");
  params ← _prepareParams options params;
  _fetch (JStr (to_string url +:+ params)) options.

(** The GET variants that decode the response. *)
Definition get_decoded (decode : Response -> M JsValue) (url params options : JsValue)
  : M JsValue :=
  options ← _prepareOptions options;
  _ ← assign options "method" (JStr "GET");
  _ ← assign options "onlysuccessful" (JBool true);
  params ← _prepareParams options params;
  res ← _fetch (JStr (to_string url +:+ params)) options;
  decode res.

Definition getGetJson := get_decoded res_json.
Definition getGetText := get_decoded res_text.
Definition getGetBlob := get_decoded res_blob.
Definition getArrayBuffer := get_decoded res_arrayBuffer.
Definition getBuffer := get_decoded res_buffer.

(** [this.post( url, data, options )] *)
Definition post (url data options : JsValue) : M Response :=
  options ← _prepareOptions options;
  options ← _prepareBody options data;
  _ ← assign options "method" (JStr "POST");
  _fetch url options.

(** The POST variants that decode the response. *)
Definition post_decoded (decode : Response -> M JsValue) (url data options : JsValue)
  : M JsValue :=
  options ← _prepareOptions options;
  options ← _prepareBody options data;
  _ ← assign options "method" (JStr "POST");
  _ ← assign options "onlysuccessful" (JBool true);
  res ← _fetch url options;
  decode res.

Definition postGetJson := post_decoded res_json.
Definition postGetText := post_decoded res_text.
Definition postGetBlob := post_decoded res_blob.
Definition postGetArrayBuffer := post_decoded res_arrayBuffer.
Definition postGetBuffer := post_decoded res_buffer.

(** [new RequestHelper( options )] *)
Definition RequestHelper_constructor (options : JsValue) : M unit :=
  _ ← FetchHelper_constructor options;
  t ← get_this;
  extracted ← _extractOptions (defaults t) QUERY_OPTIONS;
  q ← alloc extracted;
  update_this (with_queryOptions q).

(** ** formhelper.js *)

Definition FORM_OPTIONS : list string := ["maxDataSize"; "pauseStreams"].

(** [new FormData( options )]: a session without fields. *)
Definition new_FormData : JsValue := JHost (HFormData []).

(** [new FormHelper( options )] *)
Definition FormHelper_constructor (options : JsValue) : M unit :=
  _ ← FetchHelper_constructor options;
  t ← get_this;
  extracted ← _extractOptions (defaults t) FORM_OPTIONS;
  f ← alloc extracted;
  _ ← update_this (with_formOptions f);
  update_this (with_formData new_FormData).

(** [this.reset()] *)
Definition FormHelper_reset : M unit := update_this (with_formData new_FormData).

(** [this.append( field, value, options )], forwarded to the session. *)
Definition FormHelper_append (field : string) (value : JsValue) : M unit :=
  t ← get_this;
  match formData t with
  | JHost (HFormData fields) =>
      update_this (with_formData (JHost (HFormData (fields ++ [(field, to_string value)]))))
  | _ => throw (TypeError "Cannot read properties of undefined")
  end.

(** [this.post( url, options )] of the form helper *)
Definition FormHelper_post (url options : JsValue) : M Response :=
  options ← _prepareOptions options;
  _ ← assign options "method" (JStr "POST");
  t ← get_this;
  _ ← assign options "body" (formData t);
  _fetch url options.

(** [this.postGetJson( url, options )] of the form helper *)
Definition FormHelper_postGetJson (url options : JsValue) : M JsValue :=
  options ← _prepareOptions options;
  _ ← assign options "method" (JStr "POST");
  _ ← assign_in options "headers" "Accept" (JStr "application/json");
  _ ← assign options "onlyok" (JBool true);
  t ← get_this;
  _ ← assign options "body" (formData t);
  res ← _fetch url options;
  res_json res.

(** [this.submit( url, options )] *)
Definition FormHelper_submit (url options : JsValue) : M Response := FormHelper_post url options.

(** [this.submitGetJson( url, options )] *)
Definition FormHelper_submitGetJson (url options : JsValue) : M JsValue :=
  FormHelper_postGetJson url options.

(** ** The call surface

    A method call [helper.name( args )] looks [name] up on the class, then
    on the class it extends; calling a name that is on neither throws a
    [TypeError].  A missing argument is [undefined]. *)

Inductive CallResult : Type :=
| RResponse (res : Response)
| RValue (v : JsValue)
| RNone.

Definition arg (n : nat) (args : list JsValue) : JsValue := nth n args JUndefined.

Definition returning_response (m : M Response) : M CallResult :=
  res ← m; mret (RResponse res).
Definition returning_value (m : M JsValue) : M CallResult :=
  v ← m; mret (RValue v).
Definition returning_nothing (m : M unit) : M CallResult :=
  _ ← m; mret RNone.

(** The methods that issue a request. *)
Inductive FetchCall : Type := Cfetch.

Inductive RequestCall : Type :=
| Cget | CgetGetJson | CgetGetText | CgetGetBlob | CgetArrayBuffer | CgetBuffer
| Cpost | CpostGetJson | CpostGetText | CpostGetBlob | CpostGetArrayBuffer
| CpostGetBuffer
| Cinherited (c : FetchCall).

Inductive FormCall : Type :=
| CformPost | CformPostGetJson | CformSubmit | CformSubmitGetJson
| CformInherited (c : FetchCall).

Definition FetchHelper_call (c : FetchCall) (args : list JsValue) : M CallResult :=
  match c with
  | Cfetch => returning_response (fetch (arg 0 args) (arg 1 args))
  end.

Definition RequestHelper_call (c : RequestCall) (args : list JsValue) : M CallResult :=
  let a0 := arg 0 args in
  let a1 := arg 1 args in
  let a2 := arg 2 args in
  match c with
  | Cget => returning_response (get a0 a1 a2)
  | CgetGetJson => returning_value (getGetJson a0 a1 a2)
  | CgetGetText => returning_value (getGetText a0 a1 a2)
  | CgetGetBlob => returning_value (getGetBlob a0 a1 a2)
  | CgetArrayBuffer => returning_value (getArrayBuffer a0 a1 a2)
  | CgetBuffer => returning_value (getBuffer a0 a1 a2)
  | Cpost => returning_response (post a0 a1 a2)
  | CpostGetJson => returning_value (postGetJson a0 a1 a2)
  | CpostGetText => returning_value (postGetText a0 a1 a2)
  | CpostGetBlob => returning_value (postGetBlob a0 a1 a2)
  | CpostGetArrayBuffer => returning_value (postGetArrayBuffer a0 a1 a2)
  | CpostGetBuffer => returning_value (postGetBuffer a0 a1 a2)
  | Cinherited c => FetchHelper_call c args
  end.

Definition FormHelper_call (c : FormCall) (args : list JsValue) : M CallResult :=
  match c with
  | CformPost => returning_response (FormHelper_post (arg 0 args) (arg 1 args))
  | CformPostGetJson => returning_value (FormHelper_postGetJson (arg 0 args) (arg 1 args))
  | CformSubmit => returning_response (FormHelper_submit (arg 0 args) (arg 1 args))
  | CformSubmitGetJson =>
      returning_value (FormHelper_submitGetJson (arg 0 args) (arg 1 args))
  | CformInherited c => FetchHelper_call c args
  end.

(** The request methods in the class body of [FetchHelper]. *)
Definition FetchHelper_method (name : string) : option FetchCall :=
  if String.eqb name "fetch" then Some Cfetch else None.

(** The setters of [FetchHelper], by name. *)
Definition FetchHelper_setter (name : string) (args : list JsValue) : option (M unit) :=
  if String.eqb name "setAuth" then Some (setAuth (arg 0 args))
  else if String.eqb name "setBasicAuth" then Some (setBasicAuth (arg 0 args) (arg 1 args))
  else if String.eqb name "setBaseUrl" then Some (setBaseUrl (arg 0 args))
  else if String.eqb name "setAgent" then Some (setAgent (arg 0 args))
  else if String.eqb name "setProxy" then Some (setProxy (arg 0 args))
  else if String.eqb name "setOnlySuccesful" then Some (setOnlySuccesful (arg 0 args))
  else None.

(** The request methods in the class body of [RequestHelper], then those of
    [FetchHelper]. *)
Definition RequestHelper_method (name : string) : option RequestCall :=
  if String.eqb name "get" then Some Cget
  else if String.eqb name "getGetJson" then Some CgetGetJson
  else if String.eqb name "getGetText" then Some CgetGetText
  else if String.eqb name "getGetBlob" then Some CgetGetBlob
  else if String.eqb name "getArrayBuffer" then Some CgetArrayBuffer
  else if String.eqb name "getBuffer" then Some CgetBuffer
  else if String.eqb name "post" then Some Cpost
  else if String.eqb name "postGetJson" then Some CpostGetJson
  else if String.eqb name "postGetText" then Some CpostGetText
  else if String.eqb name "postGetBlob" then Some CpostGetBlob
  else if String.eqb name "postGetArrayBuffer" then Some CpostGetArrayBuffer
  else if String.eqb name "postGetBuffer" then Some CpostGetBuffer
  else match FetchHelper_method name with
       | Some c => Some (Cinherited c)
       | None => None
       end.

(** [requestHelper[name]( ...args )] *)
Definition RequestHelper_invoke (name : string) (args : list JsValue) : M CallResult :=
  match RequestHelper_method name with
  | Some c => RequestHelper_call c args
  | None =>
      match FetchHelper_setter name args with
      | Some m => returning_nothing m
      | None => throw (TypeError (name +:+ " is not a function"))
      end
  end.

End Program.

(** The methods [requesthelper.d.ts] declares on [RequestHelper]. *)
Definition RequestHelper_declared : list string :=
  ["get"; "getGetJson"; "getGetText"; "getGetBlob"; "getArrayBuffer"; "getBuffer";
   "post"; "postGetJson"; "postGetText"; "postGetBlob"; "postGetArrayBuffer";
   "postGetBuffer";
   "delete"; "deleteGetJson"; "deleteGetText"; "deleteGetBlob";
   "deleteGetArrayBuffer"; "deleteGetBuffer"].

(** ** The status gate

    What [_fetch] makes of the outcome of the transport, given the effective
    only-successful flag. *)
Definition status_gate (onlysuccessful : bool) (outcome : Result Response)
  : Result Response :=
  match outcome with
  | Ok res =>
      if onlysuccessful && negb (ok res)
      then Throw (HttpStatus (new_HttpStatusError (statusText res) (status res) res))
      else Ok res
  | Throw e => Throw e
  end.

(** ** Notions used in the statements *)

(** [frame n Q m]: run in a store of at least [n] cells, [m] leaves [this]
    and the first [n] cells as they are, whether it returns or throws, and
    what it returns satisfies [Q]. *)
Definition frame {A} (n : nat) (Q : A -> Prop) (m : M A) : Prop :=
  forall st, n <= length (heap st) ->
    this (snd (m st)) = this st /\
    take n (heap (snd (m st))) = take n (heap st) /\
    n <= length (heap (snd (m st))) /\
    forall a, fst (m st) = Ok a -> Q a.

(** The postcondition that asks nothing. *)
Definition anything {A} : A -> Prop := fun _ => True.

(** The persisted configuration of an instance. *)
Record Configuration : Type := mkConfiguration {
  cfg_defaults : JsValue;
  cfg_queryOptions : JsValue;
  cfg_auth : JsValue;
  cfg_baseurl : string;
  cfg_onlysuccessful : bool
}.

Definition configuration (st : State) : Configuration :=
  {| cfg_defaults := cell (heap st) (defaults (this st));
     cfg_queryOptions := cell (heap st) (queryOptions (this st));
     cfg_auth := auth (this st);
     cfg_baseurl := baseurl (this st);
     cfg_onlysuccessful := onlysuccessful (this st) |}.

(** The flag [_fetch] computes from the options object and the instance. *)
Definition effective_onlysuccessful (t : Instance) (options : JsValue) : bool :=
  match prop_of options "onlysuccessful" with
  | JBool b => b
  | _ => onlysuccessful t
  end.

(** The object [_fetch] hands to the transport. *)
Definition transport_options (ps : Props) : JsValue :=
  JObj (delete_prop "onlysuccessful" (delete_prop "baseurl" ps)).

(** The URL [_fetch] hands to the transport. *)
Definition transport_url (t : Instance) (options : JsValue) (url : JsValue) : string :=
  getSpecifiedStr (prop_of options "baseurl") (baseurl t) +:+ to_string url.

(** The auth value a call uses: the descriptor in the merged options when it
    is an object, the value kept by the instance otherwise. *)
Definition resolved_auth (global_credentials : JsValue) (t : Instance) (merged : JsValue)
  : Result JsValue :=
  if instanceof_Object (prop_of merged "auth")
  then prepareAuth global_credentials (prop_of merged "auth")
  else Ok (auth t).

(** The merged options after [result.headers[ 'Authorization' ] = auth]. *)
Definition with_authorization (a : JsValue) (hp : Props) (ps : Props) : Props :=
  if truthy a then set_prop "headers" (JObj (set_prop "Authorization" a hp)) ps else ps.

(** The merged options after [result.agent = this.agent]. *)
Definition with_agent_member (ag : JsValue) (ps : Props) : Props :=
  if truthy ag then set_prop "agent" ag ps else ps.

(** Every member of the record is a string. *)
Definition string_valued (ps : Props) : bool :=
  forallb (fun kv => match snd kv with JStr _ => true | _ => false end) ps.

(** The auth value of a call; [resolved_auth] never fails on a merged
    object. *)
Definition effective_auth (g : JsValue) (t : Instance) (merged : JsValue) : JsValue :=
  match resolved_auth g t merged with Ok a => a | Throw _ => JUndefined end.
(** The keys of a list are pairwise different. *)
Fixpoint distinct (ks : list string) : bool :=
  match ks with
  | [] => true
  | k :: ks' => negb (existsb (String.eqb k) ks') && distinct ks'
  end.

(** The numbers JSON carries: the finite ones but negative zero, which is
    written [0]. *)
Definition carried (x : Number) : bool :=
  match x with
  | Finite _ _ => binary64 x
  | _ => false
  end.

(** The values JSON can carry: [null], booleans, the numbers it carries,
    strings, arrays of such values and objects of such values (under
    distinct keys); no [undefined], no function, no host object at any
    depth. *)
Fixpoint jsonable (v : JsValue) : bool :=
  match v with
  | JNull | JBool _ | JStr _ => true
  | JNum x => carried x
  | JArr xs => forallb jsonable xs
  | JObj ps => distinct (keys ps) && forallb (fun kv => jsonable (snd kv)) ps
  | _ => false
  end.

(** The text of a value inside an array. *)
Definition json_text (v : JsValue) : string :=
  match JSON.stringify v with Some t => t | None => "null" end.

(** A bound on the fuel the decoder needs for the text of a value. *)
Fixpoint json_size (v : JsValue) : nat :=
  match v with
  | JArr xs => S (list_sum (map (fun x => S (json_size x)) xs))
  | JObj ps => S (list_sum (map (fun kv => S (json_size (snd kv))) ps))
  | _ => 1
  end.

(** A structured record: what [_prepareBody] encodes by the content type,
    an object that is not a Blob, a buffer or a stream. *)
Definition structured_record (data : JsValue) : bool :=
  match data with
  | JObj _ | JArr _ => true
  | _ => false
  end.

(** The characters a JSON text of a value can start with. *)
Definition value_start (c : ascii) : Prop :=
  In c ["n"; "t"; "f"; JSON.dquote; "["; "{"; "-";
        "0"; "1"; "2"; "3"; "4"; "5"; "6"; "7"; "8"; "9"]%char.

(** The element texts and member texts of [stringify]. *)
Definition element_texts (xs : list JsValue) : list string := map json_text xs.

Definition member_texts (ps : Props) : list string :=
  map (fun kv => JSON.quote (fst kv) +:+ ":" +:+ json_text (snd kv)) ps.

(** What the induction gives for a value: its text, followed by anything
    that cannot continue a number, decodes to the value. *)
Definition decodes (v : JsValue) : Prop :=
  forall fuel rest, json_size v <= fuel -> JSON.number_end rest = true ->
    JSON.parse_value fuel (json_text v +:+ rest) = Some (v, rest).

(** The elements of an array; a named member that an assignment adds to an
    array is no element of it. *)
Definition elements (v : JsValue) : option (list JsValue) :=
  match v with JArr xs => Some xs | _ => None end.

(** ** States and values of the examples *)

Definition not_modified : Response :=
  {| status := 304; statusText := "Not Modified"; body := "" |}.

Definition gated_state : State :=
  {| this := blank; heap := [JObj [("onlysuccessful", JBool true)]] |}.

Definition falsy_flag_state (v : JsValue) : State :=
  {| this := with_onlysuccessful true blank; heap := [JObj [("onlysuccessful", v)]] |}.

Definition helper_keys_state : State :=
  {| this := blank;
     heap := [JObj [("baseurl", JStr "https://api.example.com");
                    ("method", JStr "GET"); ("onlysuccessful", JBool false)]] |}.

Definition tagged_state : State :=
  {| this := blank;
     heap := [JObj [("headers", JObj []); ("tags", JArr [JStr "a"; JStr "b"])]] |}.

Definition tagged_overrides : JsValue := JObj [("tags", JArr [JStr "c"])].

Definition basic_state : State :=
  {| this := with_auth (JStr "Basic dTpw") blank;
     heap := [JObj [("headers", JObj [("Accept", JStr "text/html")])]] |}.

Definition bearer_overrides : JsValue :=
  JObj [("headers", JObj [("Authorization", JStr "Bearer t")])].

Definition not_found : Response :=
  {| status := 404; statusText := "Not Found"; body := "[404]" |}.

Definition form_state : State :=
  snd (FormHelper_constructor JUndefined JUndefined {| this := blank; heap := [] |}).

Definition bare_options_state : State :=
  {| this := blank; heap := [JObj [("headers", JObj [])]] |}.

Definition record_with_gaps : JsValue :=
  JObj [("name", JStr "n"); ("age", JUndefined);
        ("greet", JFun "() => 'hello'" (fun _ => "hello"))].

(** ** Notions used in the further statements *)

(** What [_extractOptions] does to the properties [ps] of the object it is
    given: the first component is the new object, filled in the order of
    [keylist]; the second is what the object keeps. *)
Fixpoint extraction (keylist : list string) (ps acc : Props) : Props * Props :=
  match keylist with
  | [] => (acc, ps)
  | key :: rest =>
      if has_prop key ps
      then extraction rest (delete_prop key ps) (set_prop key (prop_of (JObj ps) key) acc)
      else extraction rest ps acc
  end.

(** [key] is one of [keylist]. *)
Definition listed (key : string) (keylist : list string) : bool :=
  existsb (String.eqb key) keylist.

(** The internal settings the constructor of [FetchHelper] separates from
    the options of the transport. *)
Definition FETCH_OPTIONS : list string :=
  ["auth"; "onlysuccessful"; "baseurl"; "agent"; "proxy"].

(** The properties of an object after [ensureObjMember( obj, key, defval )]. *)
Definition ensured (key : string) (defval : JsValue) (ps : Props) : Props :=
  if instanceof_Object (prop_of (JObj ps) key) then ps else set_prop key defval ps.

(** The agent of the instance after [setProxy( proxy )]. *)
Definition proxy_agent (proxy current : JsValue) : JsValue :=
  if instanceof_Object proxy then JHost (HAgent None)
  else match proxy with
       | JStr s => JHost (HAgent (Some s))
       | JBool true => JHost (HAgent None)
       | _ => current
       end.

(** The value [prepareAuth] returns for a descriptor it accepts. *)
Definition auth_value (g : JsValue) (descriptor : JsValue) : JsValue :=
  match prepareAuth g descriptor with Ok v => v | Throw _ => JUndefined end.

(** The options object [new FetchHelper( options )] starts from, before the
    internal settings are taken out of it. *)
Definition initial_options (options : JsValue) : Props :=
  match merge (JObj []) (getValidObj options (JObj [])) with
  | JObj mp => ensured "auth" (JObj []) (ensured "headers" (JObj []) mp)
  | _ => []
  end.

(** The instance [new FetchHelper( options )] leaves, its defaults in the
    cell [d]. *)
Definition constructed (g : JsValue) (options : JsValue) (d : loc) (t : Instance)
  : Instance :=
  let fhoptions := JObj (fst (extraction FETCH_OPTIONS (initial_options options) [])) in
  let t1 := with_auth (auth_value g (prop_of fhoptions "auth")) (with_defaults d t) in
  let t2 := with_onlysuccessful (truthy (prop_of fhoptions "onlysuccessful")) t1 in
  let t3 := with_baseurl (getSpecifiedStr (prop_of fhoptions "baseurl") "") t2 in
  let t4 := with_agent (prop_of fhoptions "agent") t3 in
  with_agent (proxy_agent (prop_of fhoptions "proxy") (agent t4)) t4.

(** The state after a series of calls on a [RequestHelper], each settled,
    by a response or a failure, before the next is made. *)
Definition after_calls
  (transport : string -> JsValue -> Result Response)
  (queryString_stringify : JsValue -> JsValue -> string)
  (global_credentials : JsValue)
  (calls : list (RequestCall * list JsValue)) (st : State) : State :=
  fold_left
    (fun s call =>
       snd (RequestHelper_call transport queryString_stringify global_credentials
              (fst call) (snd call) s))
    calls st.

(** The query part [_prepareParams] returns for [params] under the query
    options [queryOptions]. *)
Definition query_part (queryString_stringify : JsValue -> JsValue -> string)
  (params queryOptions : JsValue) : string :=
  if instanceof_Object params then
    let result := queryString_stringify params queryOptions in
    if String.eqb result "" then "" else "?" +:+ result
  else "".

(** The keys that never reach the transport from a GET call. *)
Definition GET_INTERNAL : list string := QUERY_OPTIONS ++ ["baseurl"; "onlysuccessful"].

(** The options after [ensureContentType] has been given the default [d]:
    [hp] are the headers of the options [ps]. *)
Definition with_content_type (d : string) (hp ps : Props) : Props :=
  match prop_of (JObj hp) "Content-Type" with
  | JUndefined => set_prop "headers" (JObj (set_prop "Content-Type" (JStr d) hp)) ps
  | _ => ps
  end.

(** The data [_prepareBody] passes on as it is, with the content type it
    falls back to: strings, Blobs, buffers and streams. *)
Definition verbatim_default (data : JsValue) : option string :=
  match data with
  | JStr _ => Some "text/plain"
  | JHost (HBlob type _) => Some (getSpecifiedStr (JStr type) "application/octet-stream")
  | JHost (HBuffer _) | JHost (HArrayBuffer _) | JHost HReadable | JHost HDuplex =>
      Some "application/octet-stream"
  | _ => None
  end.

(** The character [c] occurs in [s]. *)
Fixpoint contains (c : ascii) (s : string) : bool :=
  match s with
  | EmptyString => false
  | String x r => Ascii.eqb x c || contains c r
  end.

(** A transport answers with the body it is sent: whenever the options it
    is handed carry a string as [body], the response is ok and has that
    string as its body. *)
Definition echoes (transport : string -> JsValue -> Result Response) : Prop :=
  forall url options text,
    prop_of options "body" = JStr text ->
    exists res, transport url options = Ok res /\ ok res = true /\ body res = text.

(** The transport of a server that answers 200 with the body it is sent. *)
Definition echo_transport (url : string) (options : JsValue) : Result Response :=
  Ok {| status := 200; statusText := "OK"; body := to_string (prop_of options "body") |}.

(** A part of a media type: it has no slash and no plus sign. *)
Definition media_part (p : string) : bool :=
  negb (contains "/" p) && negb (contains "+" p).

(** ** States and values of the further examples *)

Definition request_state : State :=
  snd (RequestHelper_constructor JUndefined
         (JObj [("baseurl", JStr "https://api.example.com"); ("sort", JBool false)])
         {| this := blank; heap := [] |}).

Definition request_overrides : JsValue :=
  JObj [("method", JStr "PUT"); ("onlysuccessful", JBool false);
        ("arrayFormat", JStr "comma")].

(** The effective options of a call on [request_state] with
    [request_overrides]. *)
Definition request_effective : Props :=
  [("headers", JObj []); ("method", JStr "PUT"); ("onlysuccessful", JBool false);
   ("arrayFormat", JStr "comma")].

Definition request_prepared : State :=
  {| this := this request_state;
     heap := heap request_state ++ [JObj request_effective] |}.

Definition upload_state : State :=
  snd (FormHelper_append "name" (JStr "n")
         (snd (FormHelper_constructor JUndefined
                 (JObj [("maxDataSize", JNum 1024); ("redirect", JStr "follow")])
                 {| this := blank; heap := [] |}))).

Definition upload_effective : Props :=
  [("redirect", JStr "follow"); ("headers", JObj []); ("body", JStr "ignored")].

Definition upload_prepared : State :=
  {| this := this upload_state; heap := heap upload_state ++ [JObj upload_effective] |}.

(** * Properties *)

(** ** Running the primitives *)

Lemma bind_run {A B} {m : M A} (f : A -> M B) {st a st'} :
  m st = (Ok a, st') -> (m ≫= f) st = f a st'.
Proof. intros E. unfold mbind, M_bind. by rewrite E. Qed.

Lemma bind_throw {A B} {m : M A} (f : A -> M B) {st e st'} :
  m st = (Throw e, st') -> (m ≫= f) st = (Throw e, st').
Proof. intros E. unfold mbind, M_bind. by rewrite E. Qed.

Lemma cell_lookup {h l v} : h !! l = Some v -> cell h l = v.
Proof. intros E. unfold cell. by rewrite E. Qed.

Lemma run_read {st l v} : heap st !! l = Some v -> read l st = (Ok v, st).
Proof. intros E. unfold read. by rewrite (cell_lookup E). Qed.

Lemma run_read_member {st ref} k {ps} :
  heap st !! ref = Some (JObj ps) ->
  read_member ref k st = (Ok (prop_of (JObj ps) k), st).
Proof. intros E. unfold read_member. by rewrite (bind_run _ (run_read E)). Qed.

Lemma run_delete_member {st ref} k {ps} :
  heap st !! ref = Some (JObj ps) ->
  delete_member ref k st =
    (Ok tt, {| this := this st; heap := <[ref := JObj (delete_prop k ps)]> (heap st) |}).
Proof. intros E. unfold delete_member. by rewrite (bind_run _ (run_read E)). Qed.

Lemma run_assign {st ref} k v {ps} :
  heap st !! ref = Some (JObj ps) ->
  assign ref k v st =
    (Ok tt, {| this := this st; heap := <[ref := JObj (set_prop k v ps)]> (heap st) |}).
Proof. intros E. unfold assign. by rewrite (bind_run _ (run_read E)). Qed.

Lemma lookup_written {h : list JsValue} {l v} w :
  h !! l = Some v -> <[l := w]> h !! l = Some w.
Proof. intros E. apply list_lookup_insert_eq. by eapply lookup_lt_Some. Qed.

Lemma insert_twice (h : list JsValue) l v w : <[l := w]> (<[l := v]> h) = <[l := w]> h.
Proof.
  revert l. induction h as [|x h IH]; intros [|l]; cbn; auto. by rewrite IH.
Qed.

(** ** Property tables *)

Lemma lookup_delete_prop_eq k ps : lookup_prop k (delete_prop k ps) = None.
Proof.
  induction ps as [|[k' v] ps IH]; cbn; auto.
  destruct (String.eqb k k') eqn:E; auto. cbn. by rewrite E.
Qed.

Lemma lookup_delete_prop_ne k k' ps :
  k <> k' -> lookup_prop k (delete_prop k' ps) = lookup_prop k ps.
Proof.
  intros Hne. induction ps as [|[k2 v] ps IH]; cbn; auto.
  destruct (String.eqb k' k2) eqn:E.
  - apply String.eqb_eq in E. subst k2.
    destruct (String.eqb k k') eqn:E2; auto. apply String.eqb_eq in E2. congruence.
  - cbn. by rewrite IH.
Qed.

Lemma has_prop_delete_prop_eq k ps : has_prop k (delete_prop k ps) = false.
Proof. unfold has_prop. by rewrite lookup_delete_prop_eq. Qed.

Lemma has_prop_delete_prop_ne k k' ps :
  k <> k' -> has_prop k (delete_prop k' ps) = has_prop k ps.
Proof. intros. unfold has_prop. by rewrite lookup_delete_prop_ne. Qed.

(** ** [_fetch] *)

Section FetchRun.
Variable transport : string -> JsValue -> Result Response.

Lemma typeof_boolean v :
  String.eqb (typeof v) "boolean" = match v with JBool _ => true | _ => false end.
Proof. by destruct v. Qed.

Lemma fetch_run url o st ps :
  heap st !! o = Some (JObj ps) ->
  _fetch transport url o st =
    (status_gate (effective_onlysuccessful (this st) (JObj ps))
       (transport (transport_url (this st) (JObj ps) url) (transport_options ps)),
     {| this := this st; heap := <[o := transport_options ps]> (heap st) |}).
Proof.
  intros E. unfold _fetch.
  rewrite (bind_run _ (eq_refl : get_this st = (Ok (this st), st))).
  rewrite (bind_run _ (run_read_member "baseurl" E)).
  rewrite (bind_run _ (run_read_member "onlysuccessful" E)).
  rewrite (bind_run _ (run_delete_member "baseurl" E)).
  pose proof (lookup_written (JObj (delete_prop "baseurl" ps)) E) as E1.
  rewrite (bind_run _ (run_delete_member
             (st := {| this := this st;
                       heap := <[o:=JObj (delete_prop "baseurl" ps)]> (heap st) |})
             "onlysuccessful" E1)).
  cbn [this heap]. rewrite insert_twice.
  pose proof (lookup_written (transport_options ps) E) as E2.
  set (st2 := {| this := this st; heap := <[o:=transport_options ps]> (heap st) |}).
  assert (Hnf : forall u, node_fetch transport u o st2 = (transport u (transport_options ps), st2)).
  { intros u. unfold node_fetch.
    by rewrite (bind_run _ (run_read (st := st2) E2)). }
  unfold effective_onlysuccessful, transport_url. rewrite typeof_boolean.
  fold (transport_options ps) in *. fold st2.
  set (flag := match prop_of (JObj ps) "onlysuccessful" with
               | JBool _ => true | _ => false end).
  assert (Hflag :
    (if flag then truthy (prop_of (JObj ps) "onlysuccessful") else onlysuccessful (this st))
    = match prop_of (JObj ps) "onlysuccessful" with
      | JBool b => b | _ => onlysuccessful (this st) end).
  { subst flag. by destruct (prop_of (JObj ps) "onlysuccessful"). }
  rewrite Hflag. clear Hflag flag.
  destruct (match prop_of (JObj ps) "onlysuccessful" with
            | JBool b => b | _ => onlysuccessful (this st) end).
  - unfold mbind, M_bind. rewrite Hnf.
    destruct (transport _ _) as [res|e]; cbn; auto. by destruct (ok res).
  - rewrite Hnf. by destruct (transport _ _).
Qed.

End FetchRun.

(** ** Frame reasoning

    Every call method writes only to cells it allocated itself. *)

Lemma frame_weaken {A} n (P Q : A -> Prop) m :
  (forall a, P a -> Q a) -> frame n P m -> frame n Q m.
Proof.
  intros HPQ Hm st Hn. destruct (Hm st Hn) as (H1 & H2 & H3 & H4).
  repeat split; auto.
Qed.

Lemma frame_ret {A} n (Q : A -> Prop) a : Q a -> frame n Q (mret a).
Proof.
  intros HQ st Hn. cbn. repeat split; auto. intros a' E. inversion E. subst. done.
Qed.

Lemma frame_bind {A B} n (P : A -> Prop) (Q : B -> Prop) (m : M A) (f : A -> M B) :
  frame n P m -> (forall a, P a -> frame n Q (f a)) -> frame n Q (m ≫= f).
Proof.
  intros Hm Hf st Hn. destruct (Hm st Hn) as (H1 & H2 & H3 & H4).
  unfold mbind, M_bind. destruct (m st) as [[a|e] st'] eqn:E; cbn in *.
  - destruct (Hf a (H4 a eq_refl) st' H3) as (G1 & G2 & G3 & G4).
    repeat split; try congruence. done.
  - repeat split; auto. intros a E'. discriminate.
Qed.

Lemma frame_throw {A} n (Q : A -> Prop) e : frame n Q (throw e).
Proof. intros st Hn. cbn. repeat split; auto. intros a E. discriminate. Qed.

Lemma frame_lift {A} n (r : Result A) : frame n anything (lift r).
Proof. intros st Hn. cbn. repeat split; auto. Qed.

Lemma frame_get_this n : frame n anything get_this.
Proof. intros st Hn. cbn. repeat split; auto. Qed.

Lemma frame_read n l : frame n anything (read l).
Proof. intros st Hn. cbn. repeat split; auto. Qed.

Lemma frame_alloc n v : frame n (fun l => n <= l) (alloc v).
Proof.
  intros st Hn. cbn. repeat split; auto.
  - by rewrite take_app_le.
  - rewrite length_app. lia.
  - intros a E. inversion E. subst. done.
Qed.

Lemma frame_write n l v : n <= l -> frame n anything (write l v).
Proof.
  intros Hl st Hn. cbn. repeat split; auto.
  - by rewrite take_insert_ge.
  - by rewrite length_insert.
Qed.

Lemma frame_read_member n ref k : frame n anything (read_member ref k).
Proof.
  unfold read_member. eapply frame_bind; [apply frame_read|]. intros o _.
  apply frame_lift.
Qed.

Lemma frame_assign n ref k v : n <= ref -> frame n anything (assign ref k v).
Proof.
  intros H. unfold assign.
  eapply frame_bind; [apply frame_read|]. intros o _.
  eapply frame_bind; [apply frame_lift|]. intros o' _.
  by apply frame_write.
Qed.

Lemma frame_assign_in n ref k1 k2 v : n <= ref -> frame n anything (assign_in ref k1 k2 v).
Proof.
  intros H. unfold assign_in.
  eapply frame_bind; [apply frame_read|]. intros o _.
  eapply frame_bind; [apply frame_lift|]. intros i _.
  eapply frame_bind; [apply frame_lift|]. intros i' _.
  destruct i; try (apply frame_ret; exact I). by apply frame_assign.
Qed.

Lemma frame_delete_member n ref k : n <= ref -> frame n anything (delete_member ref k).
Proof.
  intros H. unfold delete_member.
  eapply frame_bind; [apply frame_read|]. intros o _.
  destruct o; try apply frame_throw; by apply frame_write.
Qed.

Section ProgramFrame.
Variable transport : string -> JsValue -> Result Response.
Variable queryString_stringify : JsValue -> JsValue -> string.
Variable global_credentials : JsValue.

Lemma frame_extract_each n options keylist extracted :
  n <= options -> frame n anything (extract_each options keylist extracted).
Proof.
  intros H. revert extracted. induction keylist as [|key rest IH]; intros extracted; cbn.
  - by apply frame_ret.
  - eapply frame_bind; [apply frame_read|]. intros o _.
    destruct (has_key o key); [|apply IH].
    eapply frame_bind; [by apply frame_delete_member|]. intros _ _. apply IH.
Qed.

Lemma frame_extractOptions n options keylist :
  n <= options -> frame n anything (_extractOptions options keylist).
Proof.
  intros H. unfold _extractOptions.
  eapply frame_bind; [apply frame_read|]. intros o _.
  destruct (instanceof_Object o); [|by apply frame_ret].
  eapply frame_bind; [by apply frame_extract_each|]. intros ps _. by apply frame_ret.
Qed.

Lemma frame_prepareOptions n options :
  frame n (fun l => n <= l) (_prepareOptions global_credentials options).
Proof.
  unfold _prepareOptions.
  eapply frame_bind; [apply frame_get_this|]. intros t _.
  eapply frame_bind; [apply frame_read|]. intros d _.
  eapply frame_bind; [apply frame_alloc|]. intros result Hr.
  eapply frame_bind; [apply frame_read_member|]. intros ra _.
  eapply frame_bind with (P := anything).
  { destruct (instanceof_Object ra); [apply frame_lift | by apply frame_ret]. }
  intros a _.
  eapply frame_bind; [by apply frame_delete_member|]. intros _ _.
  eapply frame_bind with (P := anything).
  { destruct (truthy a); [by apply frame_assign_in | by apply frame_ret]. }
  intros _ _.
  eapply frame_bind with (P := anything).
  { destruct (truthy (agent t)); [by apply frame_assign | by apply frame_ret]. }
  intros _ _. by apply frame_ret.
Qed.

Lemma frame_node_fetch n url options : frame n anything (node_fetch transport url options).
Proof.
  unfold node_fetch. eapply frame_bind; [apply frame_read|]. intros o _. apply frame_lift.
Qed.

Lemma frame_fetch_ n url options :
  n <= options -> frame n anything (_fetch transport url options).
Proof.
  intros H. unfold _fetch.
  eapply frame_bind; [apply frame_get_this|]. intros t _.
  eapply frame_bind; [apply frame_read_member|]. intros ob _.
  eapply frame_bind; [apply frame_read_member|]. intros oo _.
  eapply frame_bind; [by apply frame_delete_member|]. intros _ _.
  eapply frame_bind; [by apply frame_delete_member|]. intros _ _.
  match goal with |- frame _ _ (if ?b then _ else _) => destruct b end;
    [|apply frame_node_fetch].
  eapply frame_bind; [apply frame_node_fetch|]. intros res _.
  destruct (ok res); [by apply frame_ret | apply frame_throw].
Qed.

Lemma frame_fetch n url options :
  frame n anything (fetch transport global_credentials url options).
Proof.
  unfold fetch. eapply frame_bind; [apply frame_prepareOptions|].
  intros o Ho. by apply frame_fetch_.
Qed.

Lemma frame_ensureContentType n options defval :
  n <= options -> frame n anything (ensureContentType options defval).
Proof.
  intros H. unfold ensureContentType.
  eapply frame_bind; [apply frame_read_member|]. intros h _.
  eapply frame_bind; [apply frame_lift|]. intros ct _.
  destruct ct; try (by apply frame_ret). by apply frame_assign_in.
Qed.

Lemma frame_prepareParams n options params :
  n <= options -> frame n anything (_prepareParams queryString_stringify options params).
Proof.
  intros H. unfold _prepareParams.
  eapply frame_bind; [apply frame_get_this|]. intros t _.
  eapply frame_bind; [by apply frame_extractOptions|]. intros e _.
  eapply frame_bind; [apply frame_read|]. intros q _.
  destruct (instanceof_Object params); by apply frame_ret.
Qed.

Lemma frame_prepareBody n options data :
  n <= options ->
  frame n (fun l => n <= l) (_prepareBody queryString_stringify options data).
Proof.
  intros H. unfold _prepareBody.
  eapply frame_bind with (P := anything); [|intros _ _; by apply frame_ret].
  assert (Hobj : frame n anything
    (if instanceof_Object data
     then headers ← read_member options "headers";
          ct ← lift (member headers "Content-Type");
          match ct with
          | JUndefined =>
              _ ← assign_in options "headers" "Content-Type" (JStr "application/json");
              assign options "body" (JSON.stringify_value data)
          | _ =>
              if is_str ct "application/json"
              then assign options "body" (JSON.stringify_value data)
              else if is_str ct "application/x-www-form-urlencoded"
              then t ← get_this;
                   extracted ← _extractOptions options QUERY_OPTIONS;
                   q ← read (queryOptions t);
                   assign options "body"
                     (JStr (queryString_stringify data (merge q extracted)))
              else if testJsonContentType ct
              then assign options "body" (JSON.stringify_value data)
              else throw (Error ("Invalid Content-Type " +:+ to_string ct))
          end
     else throw (TypeError ("Unsupported data type " +:+ typeof data)))).
  { destruct (instanceof_Object data); [|apply frame_throw].
    eapply frame_bind; [apply frame_read_member|]. intros h _.
    eapply frame_bind; [apply frame_lift|]. intros ct _.
    assert (Hrest : frame n anything
      (if is_str ct "application/json"
       then assign options "body" (JSON.stringify_value data)
       else if is_str ct "application/x-www-form-urlencoded"
       then t ← get_this;
            extracted ← _extractOptions options QUERY_OPTIONS;
            q ← read (queryOptions t);
            assign options "body"
              (JStr (queryString_stringify data (merge q extracted)))
       else if testJsonContentType ct
       then assign options "body" (JSON.stringify_value data)
       else throw (Error ("Invalid Content-Type " +:+ to_string ct)))).
    { destruct (is_str ct "application/json"); [by apply frame_assign|].
      destruct (is_str ct "application/x-www-form-urlencoded").
      - eapply frame_bind; [apply frame_get_this|]. intros t _.
        eapply frame_bind; [by apply frame_extractOptions|]. intros e _.
        eapply frame_bind; [apply frame_read|]. intros q _.
        by apply frame_assign.
      - destruct (testJsonContentType ct); [by apply frame_assign | apply frame_throw]. }
    destruct ct; try exact Hrest.
    eapply frame_bind; [by apply frame_assign_in|]. intros _ _. by apply frame_assign. }
  destruct data as [ | | | | | | h | | ]; try exact Hobj.
  - by apply frame_assign.
  - by apply frame_assign.
  - eapply frame_bind; [by apply frame_ensureContentType|]. intros _ _. by apply frame_assign.
  - destruct h; try exact Hobj;
      (eapply frame_bind; [by apply frame_ensureContentType|]; intros _ _; by apply frame_assign).
Qed.


Lemma frame_decoder n (decode : Response -> M JsValue) :
  In decode [res_json; res_text; res_blob; res_arrayBuffer; res_buffer] ->
  forall res, frame n anything (decode res).
Proof.
  intros Hd res. cbn in Hd.
  destruct Hd as [<-|[<-|[<-|[<-|[<-|[]]]]]]; try by apply frame_ret.
  unfold res_json. destruct (JSON.parse (body res)); [by apply frame_ret | apply frame_throw].
Qed.

Lemma frame_get n url params options :
  frame n anything (get transport queryString_stringify global_credentials url params options).
Proof.
  unfold get.
  eapply frame_bind; [apply frame_prepareOptions|]. intros o Ho.
  eapply frame_bind; [by apply frame_assign|]. intros _ _.
  eapply frame_bind; [by apply frame_prepareParams|]. intros p _.
  by apply frame_fetch_.
Qed.

Lemma frame_get_decoded n decode url params options :
  (forall res, frame n anything (decode res)) ->
  frame n anything
    (get_decoded transport queryString_stringify global_credentials decode url params options).
Proof.
  intros Hd. unfold get_decoded.
  eapply frame_bind; [apply frame_prepareOptions|]. intros o Ho.
  eapply frame_bind; [by apply frame_assign|]. intros _ _.
  eapply frame_bind; [by apply frame_assign|]. intros _ _.
  eapply frame_bind; [by apply frame_prepareParams|]. intros p _.
  eapply frame_bind; [by apply frame_fetch_|]. intros res _.
  apply Hd.
Qed.

Lemma frame_post n url data options :
  frame n anything (post transport queryString_stringify global_credentials url data options).
Proof.
  unfold post.
  eapply frame_bind; [apply frame_prepareOptions|]. intros o Ho.
  eapply frame_bind; [by apply frame_prepareBody|]. intros o' Ho'.
  eapply frame_bind; [by apply frame_assign|]. intros _ _.
  by apply frame_fetch_.
Qed.

Lemma frame_post_decoded n decode url data options :
  (forall res, frame n anything (decode res)) ->
  frame n anything
    (post_decoded transport queryString_stringify global_credentials decode url data options).
Proof.
  intros Hd. unfold post_decoded.
  eapply frame_bind; [apply frame_prepareOptions|]. intros o Ho.
  eapply frame_bind; [by apply frame_prepareBody|]. intros o' Ho'.
  eapply frame_bind; [by apply frame_assign|]. intros _ _.
  eapply frame_bind; [by apply frame_assign|]. intros _ _.
  eapply frame_bind; [by apply frame_fetch_|]. intros res _.
  apply Hd.
Qed.

Lemma frame_FormHelper_post n url options :
  frame n anything (FormHelper_post transport global_credentials url options).
Proof.
  unfold FormHelper_post.
  eapply frame_bind; [apply frame_prepareOptions|]. intros o Ho.
  eapply frame_bind; [by apply frame_assign|]. intros _ _.
  eapply frame_bind; [apply frame_get_this|]. intros t _.
  eapply frame_bind; [by apply frame_assign|]. intros _ _.
  by apply frame_fetch_.
Qed.

Lemma frame_FormHelper_postGetJson n url options :
  frame n anything (FormHelper_postGetJson transport global_credentials url options).
Proof.
  unfold FormHelper_postGetJson.
  eapply frame_bind; [apply frame_prepareOptions|]. intros o Ho.
  eapply frame_bind; [by apply frame_assign|]. intros _ _.
  eapply frame_bind; [by apply frame_assign_in|]. intros _ _.
  eapply frame_bind; [by apply frame_assign|]. intros _ _.
  eapply frame_bind; [apply frame_get_this|]. intros t _.
  eapply frame_bind; [by apply frame_assign|]. intros _ _.
  eapply frame_bind; [by apply frame_fetch_|]. intros res _.
  apply frame_decoder. cbn. auto.
Qed.

Lemma frame_returning_response n m :
  frame n anything m -> frame n anything (returning_response m).
Proof. intros H. eapply frame_bind; [exact H|]. intros. by apply frame_ret. Qed.

Lemma frame_returning_value n m :
  frame n anything m -> frame n anything (returning_value m).
Proof. intros H. eapply frame_bind; [exact H|]. intros. by apply frame_ret. Qed.

Lemma frame_FetchHelper_call n c args :
  frame n anything (FetchHelper_call transport global_credentials c args).
Proof. destruct c. apply frame_returning_response, frame_fetch. Qed.

Lemma frame_RequestHelper_call n c args :
  frame n anything
    (RequestHelper_call transport queryString_stringify global_credentials c args).
Proof.
  destruct c; cbn -[get post];
    try (apply frame_returning_response; first [apply frame_get | apply frame_post]);
    try (apply frame_returning_value;
         first [apply frame_get_decoded | apply frame_post_decoded];
         apply frame_decoder; cbn; tauto).
  apply frame_FetchHelper_call.
Qed.

Lemma frame_FormHelper_call n c args :
  frame n anything (FormHelper_call transport global_credentials c args).
Proof.
  destruct c; cbn -[FormHelper_post FormHelper_postGetJson].
  - apply frame_returning_response, frame_FormHelper_post.
  - apply frame_returning_value, frame_FormHelper_postGetJson.
  - apply frame_returning_response, frame_FormHelper_post.
  - apply frame_returning_value, frame_FormHelper_postGetJson.
  - apply frame_FetchHelper_call.
Qed.

End ProgramFrame.

Lemma frame_configuration {A} (m : M A) st :
  frame (length (heap st)) anything m ->
  defaults (this st) < length (heap st) ->
  queryOptions (this st) < length (heap st) ->
  configuration (snd (m st)) = configuration st /\
  this (snd (m st)) = this st /\
  take (length (heap st)) (heap (snd (m st))) = heap st.
Proof.
  intros Hm Hd Hq. destruct (Hm st (le_n _)) as (H1 & H2 & H3 & _).
  rewrite (take_ge (heap st)) in H2 by lia.
  split; [|split; assumption].
  unfold configuration, cell. rewrite H1.
  assert (E : forall l, l < length (heap st) -> heap (snd (m st)) !! l = heap st !! l).
  { intros l Hl. rewrite <- (lookup_take_lt (heap (snd (m st))) (length (heap st)) l Hl).
    by rewrite H2. }
  rewrite !E by assumption. reflexivity.
Qed.


(** C8, persisted configuration.  Whatever the transport answers and
    whether the call returns or fails, every call method of [RequestHelper]
    ([fetch], [get], [post] and their decode variants) and of [FormHelper]
    ([fetch], [post], [submit] and their JSON variants) leaves [this] and
    every object that existed before the call as they were; in particular
    the persisted configuration (the defaults, the query options, the auth
    value, the base URL and the only-successful flag) is the same after the
    call as before.  The references of the instance point into the store,
    and the [headers] member of the defaults is not a function: a function
    is the one kind of value [merge] hands on without copying it, so that a
    header written for the call would be written into the defaults'. *)
Theorem C8_calls_leave_configuration
  (transport : string -> JsValue -> Result Response)
  (queryString_stringify : JsValue -> JsValue -> string)
  (global_credentials : JsValue)
  (st : State) (c : RequestCall) (fc : FormCall) (args : list JsValue) :
  defaults (this st) < length (heap st) ->
  queryOptions (this st) < length (heap st) ->
  typeof (prop_of (cell (heap st) (defaults (this st))) "headers") <> "function" ->
  let after := snd (RequestHelper_call transport queryString_stringify
                      global_credentials c args st) in
  let after_form := snd (FormHelper_call transport global_credentials fc args st) in
  (configuration after = configuration st /\ this after = this st /\
   take (length (heap st)) (heap after) = heap st) /\
  (configuration after_form = configuration st /\ this after_form = this st /\
   take (length (heap st)) (heap after_form) = heap st).
Proof.
  intros Hd Hq _. split.
  - apply frame_configuration; auto. apply frame_RequestHelper_call.
  - apply frame_configuration; auto. apply frame_FormHelper_call.
Qed.

Lemma C8_calls_leave_configuration_witness :
  let st := snd (RequestHelper_constructor JUndefined
                   (JObj [("baseurl", JStr "https://api.example.com");
                          ("auth", JObj [("username", JStr "u"); ("password", JStr "p")]);
                          ("arrayFormat", JStr "bracket")])
                   {| this := blank; heap := [] |}) in
  let transport := fun (_ : string) (_ : JsValue) =>
                     Ok {| status := 200; statusText := "OK"; body := "{}" |} in
  let args := [JStr "/items"; JObj [("a", JNum 1)];
               JObj [("headers", JObj [("Accept", JStr "text/html")])]] in
  defaults (this st) < length (heap st) /\
  queryOptions (this st) < length (heap st) /\
  typeof (prop_of (cell (heap st) (defaults (this st))) "headers") <> "function" /\
  configuration (snd (RequestHelper_call transport (fun _ _ => "a=1") JUndefined
                        CpostGetJson args st)) = configuration st /\
  configuration (snd (FormHelper_call transport JUndefined
                        CformPostGetJson args st)) = configuration st.
Proof.
  intros st transport args.
  assert (Hd : defaults (this st) < length (heap st)) by (vm_compute; lia).
  assert (Hq : queryOptions (this st) < length (heap st)) by (vm_compute; lia).
  assert (Hh : typeof (prop_of (cell (heap st) (defaults (this st))) "headers")
               <> "function") by (vm_compute; discriminate).
  split; [exact Hd|]. split; [exact Hq|]. split; [exact Hh|].
  destruct (C8_calls_leave_configuration transport (fun _ _ => "a=1") JUndefined
              st CpostGetJson CformPostGetJson args Hd Hq Hh) as [[H1 _] [H2 _]].
  split; assumption.
Defined.

(** ** Property tables, continued *)

Lemma lookup_set_prop k k' v ps :
  lookup_prop k (set_prop k' v ps) = if String.eqb k k' then Some v else lookup_prop k ps.
Proof.
  induction ps as [|[k2 v2] ps IH]; cbn.
  - by destruct (String.eqb k k').
  - destruct (String.eqb k' k2) eqn:E; cbn.
    + apply String.eqb_eq in E. subst k2. by destruct (String.eqb k k').
    + rewrite IH. destruct (String.eqb k k2) eqn:E2; auto.
      apply String.eqb_eq in E2. subst k2.
      destruct (String.eqb k k') eqn:E3; auto.
      apply String.eqb_eq in E3. subst k'. by rewrite String.eqb_refl in E.
Qed.

Lemma lookup_prop_not_in k ps : ~ In k (keys ps) -> lookup_prop k ps = None.
Proof.
  induction ps as [|[k' v] ps IH]; cbn; auto. intros H.
  destruct (String.eqb k k') eqn:E.
  - apply String.eqb_eq in E. subst. tauto.
  - apply IH. tauto.
Qed.

Lemma lookup_fold_set (step : Props -> string * JsValue -> Props)
  (skip : string -> bool) (g : string -> JsValue -> JsValue) k l dst :
  (forall d kv, step d kv =
                if skip (fst kv) then d else set_prop (fst kv) (g (fst kv) (snd kv)) d) ->
  List.NoDup (keys l) ->
  lookup_prop k (fold_left step l dst) =
    match lookup_prop k l with
    | Some v => if skip k then lookup_prop k dst else Some (g k v)
    | None => lookup_prop k dst
    end.
Proof.
  intros Hstep. revert dst. induction l as [|[k' v'] l IH]; intros dst Hnd; cbn; auto.
  inversion Hnd as [|? ? Hnotin Hnd']; subst.
  rewrite IH by assumption. rewrite Hstep. cbn [fst snd].
  destruct (String.eqb k k') eqn:E.
  - apply String.eqb_eq in E. subst k'.
    rewrite (lookup_prop_not_in _ _ Hnotin).
    destruct (skip k); [reflexivity|].
    rewrite lookup_set_prop. by rewrite String.eqb_refl.
  - assert (Hd : lookup_prop k (if skip k' then dst else set_prop k' (g k' v') dst) =
                 lookup_prop k dst).
    { destruct (skip k'); [reflexivity|]. by rewrite lookup_set_prop, E. }
    rewrite Hd. reflexivity.
Qed.

(** ** deepmerge *)

Import Deepmerge.

Lemma lookup_cloned_props k ps :
  List.NoDup (keys ps) ->
  lookup_prop k (cloned_props (JObj ps)) = option_map clone (lookup_prop k ps).
Proof.
  intros Hnd. unfold cloned_props.
  rewrite (lookup_fold_set _ (fun _ => false) (fun _ v => clone v));
    [by destruct (lookup_prop k ps) | reflexivity | exact Hnd].
Qed.

(** The member of a cloned record at one key. *)
Lemma lookup_clone k ps :
  List.NoDup (keys ps) ->
  lookup_prop k (match clone (JObj ps) with JObj cp => cp | _ => [] end) =
    if inherited k then None else option_map clone (lookup_prop k ps).
Proof.
  intros Hnd. cbn [clone].
  rewrite (lookup_fold_set _ inherited (fun _ v => clone v));
    [| reflexivity | exact Hnd].
  destruct (lookup_prop k ps); destruct (inherited k); reflexivity.
Qed.

(** The member of a merged object at one key. *)
Lemma lookup_merge k A B :
  List.NoDup (keys A) -> List.NoDup (keys B) ->
  lookup_prop k (match merge (JObj A) (JObj B) with JObj mp => mp | _ => [] end) =
    match lookup_prop k B with
    | Some sv =>
        if inherited k && negb (has_prop k A) then None
        else Some (if has_prop k A && isMergeableObject sv
                   then merge (prop_of (JObj A) k) sv
                   else clone sv)
    | None => option_map clone (lookup_prop k A)
    end.
Proof.
  intros HA HB. cbn [deepmerge].
  rewrite (lookup_fold_set _
             (fun k => inherited k && negb (has_prop k A))
             (fun k sv => if has_key (JObj A) k && isMergeableObject sv
                          then merge (prop_of (JObj A) k) sv else clone sv)); auto.
  - rewrite (lookup_cloned_props k A HA).
    destruct (lookup_prop k B); [|reflexivity].
    destruct (inherited k && negb (has_prop k A)) eqn:E; [|reflexivity].
    apply andb_prop in E. destruct E as [_ E]. apply negb_true_iff in E.
    unfold has_prop in E. by destruct (lookup_prop k A).
  - intros d [k' v']. cbn [fst snd propertyIsUnsafe].
    destruct (inherited k' && negb (has_prop k' A)); [reflexivity|].
    by destruct (has_key (JObj A) k' && isMergeableObject v').
Qed.

(** A key that names no inherited member is never unsafe. *)
Lemma lookup_merge_safe k A B :
  List.NoDup (keys A) -> List.NoDup (keys B) ->
  inherited k && negb (has_prop k A) = false ->
  lookup_prop k (match merge (JObj A) (JObj B) with JObj mp => mp | _ => [] end) =
    match lookup_prop k B with
    | Some sv =>
        Some (if has_prop k A && isMergeableObject sv
              then merge (prop_of (JObj A) k) sv
              else clone sv)
    | None => option_map clone (lookup_prop k A)
    end.
Proof. intros HA HB Hs. by rewrite (lookup_merge k A B HA HB), Hs. Qed.

Lemma merge_objects A B : exists mp, merge (JObj A) (JObj B) = JObj mp.
Proof. cbn [deepmerge]. eauto. Qed.


(** ** [_prepareOptions] *)

Lemma lookup_last (h : list JsValue) v : (h ++ [v]) !! length h = Some v.
Proof. by rewrite list_lookup_middle. Qed.

Lemma insert_last (h : list JsValue) v w : <[length h := w]> (h ++ [v]) = h ++ [w].
Proof.
  replace (length h) with (length h + 0) by lia. by rewrite insert_app_r.
Qed.

Lemma prepareOptions_run g options st mp a hp :
  merge (cell (heap st) (defaults (this st))) (getValidObj options (JObj [])) = JObj mp ->
  resolved_auth g (this st) (JObj mp) = Ok a ->
  lookup_prop "headers" mp = Some (JObj hp) ->
  _prepareOptions g options st =
    (Ok (length (heap st)),
     {| this := this st;
        heap := heap st ++
                [JObj (with_agent_member (agent (this st))
                         (with_authorization a hp (delete_prop "auth" mp)))] |}).
Proof.
  intros Hm Ha Hh. unfold _prepareOptions.
  rewrite (bind_run _ (eq_refl : get_this st = (Ok (this st), st))).
  rewrite (bind_run _ (eq_refl : read (defaults (this st)) st = (Ok _, st))).
  rewrite Hm.
  rewrite (bind_run _ (eq_refl : alloc (JObj mp) st = (Ok _, _))).
  set (st1 := {| this := this st; heap := heap st ++ [JObj mp] |}).
  assert (E1 : heap st1 !! length (heap st) = Some (JObj mp)) by apply lookup_last.
  rewrite (bind_run _ (run_read_member "auth" E1)).
  assert (Hauth : (if instanceof_Object (prop_of (JObj mp) "auth")
                   then lift (prepareAuth g (prop_of (JObj mp) "auth"))
                   else mret (auth (this st))) st1 = (Ok a, st1)).
  { unfold resolved_auth in Ha.
    destruct (instanceof_Object (prop_of (JObj mp) "auth")).
    - unfold lift. by rewrite Ha.
    - inversion Ha. reflexivity. }
  rewrite (bind_run _ Hauth).
  rewrite (bind_run _ (run_delete_member "auth" E1)).
  cbn [this heap st1]. rewrite insert_last.
  set (mp1 := delete_prop "auth" mp).
  set (st2 := {| this := this st; heap := heap st ++ [JObj mp1] |}).
  assert (E2 : heap st2 !! length (heap st) = Some (JObj mp1)) by apply lookup_last.
  assert (Hh1 : lookup_prop "headers" mp1 = Some (JObj hp)).
  { subst mp1. by rewrite lookup_delete_prop_ne. }
  set (st3 := {| this := this st;
                 heap := heap st ++ [JObj (with_authorization a hp mp1)] |}).
  assert (Hinst : (if truthy a
                   then assign_in (length (heap st)) "headers" "Authorization" a
                   else mret tt) st2 = (Ok tt, st3)).
  { unfold with_authorization in st3. subst st3. destruct (truthy a); [|reflexivity].
    unfold assign_in.
    rewrite (bind_run _ (run_read E2)).
    unfold member at 1. cbn [prop_of]. rewrite Hh1.
    rewrite (bind_run _ (eq_refl : lift (Ok (JObj hp)) st2 = (Ok _, st2))).
    cbn [set_member].
    rewrite (bind_run _ (eq_refl : lift (Ok (JObj (set_prop "Authorization" a hp))) st2
                                   = (Ok _, st2))).
    rewrite (run_assign "headers" _ E2). cbn [this heap st2]. by rewrite insert_last. }
  rewrite (bind_run _ Hinst).
  assert (E3 : heap st3 !! length (heap st) = Some (JObj (with_authorization a hp mp1)))
    by apply lookup_last.
  unfold with_agent_member. destruct (truthy (agent (this st))).
  - rewrite (bind_run _ (run_assign "agent" (agent (this st)) E3)).
    cbn [this heap st3]. by rewrite insert_last.
  - reflexivity.
Qed.

(** The run when nothing is written into the headers: no auth value is in
    effect, or the merged headers are an object that is not a record. *)
Lemma prepareOptions_run_unwritten g options st mp a :
  merge (cell (heap st) (defaults (this st))) (getValidObj options (JObj [])) = JObj mp ->
  resolved_auth g (this st) (JObj mp) = Ok a ->
  truthy a = false \/
  match prop_of (JObj mp) "headers" with
  | JFun _ _ | JHost _ | JArr _ => True
  | _ => False
  end ->
  _prepareOptions g options st =
    (Ok (length (heap st)),
     {| this := this st;
        heap := heap st ++
                [JObj (with_agent_member (agent (this st)) (delete_prop "auth" mp))] |}).
Proof.
  intros Hm Ha Hh. unfold _prepareOptions.
  rewrite (bind_run _ (eq_refl : get_this st = (Ok (this st), st))).
  rewrite (bind_run _ (eq_refl : read (defaults (this st)) st = (Ok _, st))).
  rewrite Hm.
  rewrite (bind_run _ (eq_refl : alloc (JObj mp) st = (Ok _, _))).
  set (st1 := {| this := this st; heap := heap st ++ [JObj mp] |}).
  assert (E1 : heap st1 !! length (heap st) = Some (JObj mp)) by apply lookup_last.
  rewrite (bind_run _ (run_read_member "auth" E1)).
  assert (Hauth : (if instanceof_Object (prop_of (JObj mp) "auth")
                   then lift (prepareAuth g (prop_of (JObj mp) "auth"))
                   else mret (auth (this st))) st1 = (Ok a, st1)).
  { unfold resolved_auth in Ha.
    destruct (instanceof_Object (prop_of (JObj mp) "auth")).
    - unfold lift. by rewrite Ha.
    - inversion Ha. reflexivity. }
  rewrite (bind_run _ Hauth).
  rewrite (bind_run _ (run_delete_member "auth" E1)).
  cbn [this heap st1]. rewrite insert_last.
  set (mp1 := delete_prop "auth" mp).
  set (st2 := {| this := this st; heap := heap st ++ [JObj mp1] |}).
  assert (E2 : heap st2 !! length (heap st) = Some (JObj mp1)) by apply lookup_last.
  assert (Hinst : (if truthy a
                   then assign_in (length (heap st)) "headers" "Authorization" a
                   else mret tt) st2 = (Ok tt, st2)).
  { destruct (truthy a); [|reflexivity].
    destruct Hh as [Hh | Hh]; [discriminate Hh|].
    unfold assign_in. rewrite (bind_run _ (run_read E2)).
    assert (Hp : prop_of (JObj mp1) "headers" = prop_of (JObj mp) "headers").
    { subst mp1. cbn [prop_of]. by rewrite lookup_delete_prop_ne. }
    unfold member at 1. rewrite Hp.
    destruct (prop_of (JObj mp) "headers") eqn:Eh; try (by destruct Hh);
      reflexivity. }
  rewrite (bind_run _ Hinst).
  unfold with_agent_member. fold mp1. destruct (truthy (agent (this st))).
  - rewrite (bind_run _ (run_assign "agent" (agent (this st)) E2)).
    cbn [this heap st2]. by rewrite insert_last.
  - reflexivity.
Qed.

(** A member of the effective options other than [auth], [headers] and
    [agent] is the member of the merged object. *)
Lemma lookup_effective k ag a hp mp :
  k <> "auth" -> k <> "headers" -> (truthy ag = true -> k <> "agent") ->
  lookup_prop k (with_agent_member ag (with_authorization a hp (delete_prop "auth" mp)))
  = lookup_prop k mp.
Proof.
  intros H1 H2 H3. unfold with_agent_member, with_authorization.
  assert (E1 : String.eqb k "headers" = false) by by apply String.eqb_neq.
  destruct (truthy ag).
  - rewrite lookup_set_prop.
    assert (E2 : String.eqb k "agent" = false) by (apply String.eqb_neq; auto).
    rewrite E2. destruct (truthy a).
    + rewrite lookup_set_prop, E1. by apply lookup_delete_prop_ne.
    + by apply lookup_delete_prop_ne.
  - destruct (truthy a).
    + rewrite lookup_set_prop, E1. by apply lookup_delete_prop_ne.
    + by apply lookup_delete_prop_ne.
Qed.

Lemma lookup_effective_headers ag a hp mp :
  lookup_prop "headers" mp = Some (JObj hp) ->
  lookup_prop "headers"
    (with_agent_member ag (with_authorization a hp (delete_prop "auth" mp)))
  = Some (JObj (if truthy a then set_prop "Authorization" a hp else hp)).
Proof.
  intros Hh. unfold with_agent_member, with_authorization.
  destruct (truthy ag); [rewrite lookup_set_prop; cbn [String.eqb Ascii.eqb Bool.eqb]|];
    (destruct (truthy a);
     [by rewrite lookup_set_prop | by rewrite lookup_delete_prop_ne]).
Qed.

Lemma lookup_effective_auth ag a hp mp :
  lookup_prop "auth"
    (with_agent_member ag (with_authorization a hp (delete_prop "auth" mp))) = None.
Proof.
  unfold with_agent_member, with_authorization.
  destruct (truthy ag); [rewrite lookup_set_prop; cbn [String.eqb Ascii.eqb Bool.eqb]|];
    (destruct (truthy a);
     [rewrite lookup_set_prop; cbn [String.eqb Ascii.eqb Bool.eqb]|];
     apply lookup_delete_prop_eq).
Qed.

Lemma resolved_auth_succeeds g t merged : exists a, resolved_auth g t merged = Ok a.
Proof.
  unfold resolved_auth. destruct (prop_of merged "auth") eqn:E; cbn; eauto;
    unfold prepareAuth;
    repeat match goal with |- context [if ?b then _ else _] => destruct b end; eauto.
Qed.

(** The effective options carry no [auth] member. *)
Lemma prepareOptions_removes_auth g options st mp hp :
  merge (cell (heap st) (defaults (this st))) (getValidObj options (JObj [])) = JObj mp ->
  lookup_prop "headers" mp = Some (JObj hp) ->
  exists r,
    fst (_prepareOptions g options st) = Ok r /\
    has_key (cell (heap (snd (_prepareOptions g options st))) r) "auth" = false.
Proof.
  intros Hm Hh. destruct (resolved_auth_succeeds g (this st) (JObj mp)) as [a Ha].
  rewrite (prepareOptions_run g options st mp a hp Hm Ha Hh).
  exists (length (heap st)). split; [reflexivity|]. cbn [snd heap].
  rewrite (cell_lookup (lookup_last _ _)). cbn [has_key]. unfold has_prop.
  by rewrite lookup_effective_auth.
Qed.

(** C1 *)

(** C1, status gate.  With the effective only-successful flag true, [_fetch]
    returns the response of the transport unchanged exactly when its status
    is in the range 200-299 ([res.ok]) and fails with an [HttpStatusError]
    carrying the status text, the status and the response otherwise.  The
    claim puts the limit at 400: a response with a status below 200 or from
    300 to 399 is rejected although the claim says it is returned. *)
Theorem C1_gate_passes_only_2xx
  (transport : string -> JsValue -> Result Response)
  (url : JsValue) (o : loc) (st : State) (ps : Props) (res : Response) :
  heap st !! o = Some (JObj ps) ->
  effective_onlysuccessful (this st) (JObj ps) = true ->
  transport (transport_url (this st) (JObj ps) url) (transport_options ps) = Ok res ->
  fst (_fetch transport url o st) =
    if ((200 <=? status res) && (status res <=? 299))%Z
    then Ok res
    else Throw (HttpStatus {| err_message := statusText res;
                              err_status := status res;
                              err_code := status res;
                              err_res := res |}).
Proof.
  intros E Hflag Htr. rewrite (fetch_run transport url o st ps E). cbn [fst].
  rewrite Hflag, Htr. unfold status_gate, ok. cbn [andb].
  by destruct ((200 <=? status res)%Z && (status res <=? 299)%Z).
Qed.

Lemma C1_gate_passes_only_2xx_witness :
  heap gated_state !! 0 = Some (JObj [("onlysuccessful", JBool true)]) /\
  (status not_modified < 400)%Z /\
  fst (_fetch (fun _ _ => Ok not_modified) (JStr "/items") 0 gated_state) =
    Throw (HttpStatus {| err_message := "Not Modified"; err_status := 304;
                         err_code := 304; err_res := not_modified |}).
Proof.
  split; [reflexivity|]. split; [reflexivity|].
  apply (C1_gate_passes_only_2xx (fun _ _ => Ok not_modified) (JStr "/items") 0
           gated_state [("onlysuccessful", JBool true)] not_modified);
    reflexivity.
Defined.

(** With the flag true a status of 400 or more fails with the error the
    claim describes. *)
Lemma gate_rejects_400_and_above
  (transport : string -> JsValue -> Result Response)
  (url : JsValue) (o : loc) (st : State) (ps : Props) (res : Response) :
  heap st !! o = Some (JObj ps) ->
  effective_onlysuccessful (this st) (JObj ps) = true ->
  transport (transport_url (this st) (JObj ps) url) (transport_options ps) = Ok res ->
  (400 <= status res)%Z ->
  fst (_fetch transport url o st) =
    Throw (HttpStatus (new_HttpStatusError (statusText res) (status res) res)).
Proof.
  intros E Hflag Htr Hs. rewrite (fetch_run transport url o st ps E). cbn [fst].
  rewrite Hflag, Htr. unfold status_gate, ok. cbn [andb].
  destruct (Z.leb_spec 200 (status res)); destruct (Z.leb_spec (status res) 299);
    cbn; try reflexivity; lia.
Qed.

(** C9 *)

(** C9, effective flag.  [_fetch] gates with the per-call
    [options.onlysuccessful] when that value is a boolean, and with the
    flag of the instance for a value of any other type. *)
Theorem C9_effective_flag_needs_boolean
  (transport : string -> JsValue -> Result Response)
  (url : JsValue) (o : loc) (st : State) (ps : Props) :
  heap st !! o = Some (JObj ps) ->
  let v := prop_of (JObj ps) "onlysuccessful" in
  let outcome := transport (transport_url (this st) (JObj ps) url) (transport_options ps) in
  (forall b, v = JBool b -> fst (_fetch transport url o st) = status_gate b outcome) /\
  (typeof v <> "boolean" ->
   fst (_fetch transport url o st) = status_gate (onlysuccessful (this st)) outcome).
Proof.
  intros E v outcome. rewrite (fetch_run transport url o st ps E). cbn [fst].
  unfold effective_onlysuccessful. fold v. split.
  - intros b ->. reflexivity.
  - intros Hv. destruct v; try reflexivity. by destruct Hv.
Qed.

Lemma C9_effective_flag_needs_boolean_witness :
  heap (falsy_flag_state JNull) !! 0 = Some (JObj [("onlysuccessful", JNull)]) /\
  typeof JNull <> "boolean" /\
  fst (_fetch (fun _ _ => Ok not_modified) (JStr "/items") 0 (falsy_flag_state JNull)) =
    status_gate true (Ok not_modified).
Proof.
  split; [reflexivity|]. split; [discriminate|].
  apply (C9_effective_flag_needs_boolean (fun _ _ => Ok not_modified) (JStr "/items") 0
           (falsy_flag_state JNull) [("onlysuccessful", JNull)] eq_refl).
  discriminate.
Defined.

(** The values the claim names: the number 1, the string ['true'] and
    [null] leave the decision to the instance. *)
Example flag_of_non_booleans :
  Forall (fun v =>
            fst (_fetch (fun _ _ => Ok not_modified) (JStr "/items") 0 (falsy_flag_state v)) =
              status_gate true (Ok not_modified))
         [JNum 1; JStr "true"; JNull; JUndefined] /\
  fst (_fetch (fun _ _ => Ok not_modified) (JStr "/items") 0
         (falsy_flag_state (JBool false))) = Ok not_modified.
Proof. split; [repeat constructor | reflexivity]. Qed.

(** C10 *)

(** C10, helper keys.  The object [_fetch] hands to the transport is the
    options object without its [baseurl] and [onlysuccessful] members and
    with every other member as it was; the deletion is made on the options
    object itself. *)
Theorem C10_helper_keys_deleted
  (transport : string -> JsValue -> Result Response)
  (url : JsValue) (o : loc) (st : State) (ps : Props) :
  heap st !! o = Some (JObj ps) ->
  let sent := transport_options ps in
  fst (_fetch transport url o st) =
    status_gate (effective_onlysuccessful (this st) (JObj ps))
      (transport (transport_url (this st) (JObj ps) url) sent) /\
  has_key sent "baseurl" = false /\
  has_key sent "onlysuccessful" = false /\
  (forall k, k <> "baseurl" -> k <> "onlysuccessful" ->
             prop_of sent k = prop_of (JObj ps) k) /\
  heap (snd (_fetch transport url o st)) !! o = Some sent.
Proof.
  intros E sent. rewrite (fetch_run transport url o st ps E). cbn [fst snd heap].
  split; [reflexivity|]. subst sent. unfold transport_options. cbn [has_key prop_of].
  split.
  - rewrite has_prop_delete_prop_ne by discriminate. apply has_prop_delete_prop_eq.
  - split; [apply has_prop_delete_prop_eq|]. split.
    + intros k Hb Ho. by rewrite !lookup_delete_prop_ne.
    + by apply (lookup_written _ E).
Qed.

Lemma C10_helper_keys_deleted_witness :
  heap helper_keys_state !! 0 =
    Some (JObj [("baseurl", JStr "https://api.example.com");
                ("method", JStr "GET"); ("onlysuccessful", JBool false)]) /\
  fst (_fetch (fun url options => Ok {| status := 200; statusText := url;
                                        body := default "" (JSON.stringify options) |})
         (JStr "/items") 0 helper_keys_state) =
    Ok {| status := 200; statusText := "https://api.example.com/items";
          body := "{" +:+ JSON.quote "method" +:+ ":" +:+ JSON.quote "GET" +:+ "}" |}.
Proof.
  split; [reflexivity|].
  destruct (C10_helper_keys_deleted
              (fun url options => Ok {| status := 200; statusText := url;
                                        body := default "" (JSON.stringify options) |})
              (JStr "/items") 0 helper_keys_state _ eq_refl) as [H _].
  exact H.
Defined.

(** C3 *)

(** C3, as the claim states it, fails: with the defaults
    [{ headers: {}, tags: ['a','b'] }] and the overrides [{ tags: ['c'] }]
    the effective options carry [['a','b','c']] at [tags], not the array
    ['c'] of the overrides. *)
Lemma C3_arrays_not_replaced :
  fst (_prepareOptions JUndefined tagged_overrides tagged_state) = Ok 1 /\
  prop_of (cell (heap (snd (_prepareOptions JUndefined tagged_overrides tagged_state))) 1)
    "tags" = JArr [JStr "a"; JStr "b"; JStr "c"] /\
  prop_of tagged_overrides "tags" = JArr [JStr "c"] /\
  JArr [JStr "a"; JStr "b"; JStr "c"] <> JArr [JStr "c"].
Proof. repeat split; try reflexivity. discriminate. Qed.

(** C3, amended.  When the defaults and the overrides both hold an array at
    a key, other than [auth] and other than [agent] on an instance with an
    agent, then whenever [_prepareOptions] returns, that is, when no auth
    value is in effect for the call or the merged headers are an object, the
    effective options hold at that key an array whose elements are those of
    the defaults' array followed by those of the overrides' array, each
    cloned.  The defaults own no member named [__proto__], which would
    become the prototype of the effective options and lend them its
    members. *)
Theorem C3_arrays_are_concatenated
  (g : JsValue) (st : State) (A B : Props) (k : string) (xs ys : list JsValue) :
  heap st !! defaults (this st) = Some (JObj A) ->
  List.NoDup (keys A) -> List.NoDup (keys B) ->
  has_prop "__proto__" A = false ->
  lookup_prop k A = Some (JArr xs) ->
  lookup_prop k B = Some (JArr ys) ->
  k <> "auth" ->
  (truthy (agent (this st)) = true -> k <> "agent") ->
  let merged := merge (JObj A) (JObj B) in
  truthy (effective_auth g (this st) merged) = false \/
  instanceof_Object (prop_of merged "headers") = true ->
  exists r,
    fst (_prepareOptions g (JObj B) st) = Ok r /\
    elements (prop_of (cell (heap (snd (_prepareOptions g (JObj B) st))) r) k) =
      Some (map Deepmerge.clone xs ++ map Deepmerge.clone ys).
Proof.
  intros Hd HA_nd HB_nd _ HkA HkB Hauth Hagent merged Hret.
  destruct (merge_objects A B) as [mp Hmp].
  pose proof (lookup_merge k A B HA_nd HB_nd) as Hlk.
  rewrite Hmp in Hlk. rewrite HkB in Hlk. unfold has_prop in Hlk.
  rewrite HkA, andb_false_r in Hlk.
  cbn [andb Deepmerge.isMergeableObject prop_of Deepmerge.deepmerge] in Hlk.
  rewrite HkA in Hlk.
  destruct (resolved_auth_succeeds g (this st) (JObj mp)) as [a Ha].
  assert (Hm : merge (cell (heap st) (defaults (this st)))
                 (getValidObj (JObj B) (JObj [])) = JObj mp).
  { rewrite (cell_lookup Hd). exact Hmp. }
  subst merged. rewrite Hmp in Hret. unfold effective_auth in Hret. rewrite Ha in Hret.
  assert (Hag : forall E, lookup_prop k (with_agent_member (agent (this st)) E) =
                          lookup_prop k E).
  { intros E. unfold with_agent_member.
    destruct (truthy (agent (this st))) eqn:Eag; [|reflexivity].
    rewrite lookup_set_prop.
    assert (En : String.eqb k "agent" = false) by (apply String.eqb_neq; auto).
    by rewrite En. }
  assert (Hplain :
    truthy a = false \/
    match prop_of (JObj mp) "headers" with
    | JFun _ _ | JHost _ | JArr _ => True
    | _ => False
    end ->
    exists r,
      fst (_prepareOptions g (JObj B) st) = Ok r /\
      elements (prop_of (cell (heap (snd (_prepareOptions g (JObj B) st))) r) k) =
        Some (map Deepmerge.clone xs ++ map Deepmerge.clone ys)).
  { intros Hc. rewrite (prepareOptions_run_unwritten g (JObj B) st mp a Hm Ha Hc).
    exists (length (heap st)). split; [reflexivity|]. cbn [snd heap].
    rewrite (cell_lookup (lookup_last _ _)). cbn [prop_of].
    rewrite Hag, lookup_delete_prop_ne by exact Hauth. by rewrite Hlk. }
  destruct Hret as [Hfalsy | Hobj]; [apply Hplain; by left|].
  destruct (prop_of (JObj mp) "headers") as [ | |b|n|s|src call|h|zs|hp] eqn:Eh;
    rewrite ?Eh in Hobj; try discriminate Hobj;
    try (apply Hplain; right; rewrite ?Eh; exact I).
  assert (Hhp : lookup_prop "headers" mp = Some (JObj hp)).
  { cbn [prop_of] in Eh. destruct (lookup_prop "headers" mp); by subst. }
  assert (Hk_headers : k <> "headers").
  { intros ->. rewrite Hhp in Hlk. discriminate Hlk. }
  rewrite (prepareOptions_run g (JObj B) st mp a hp Hm Ha Hhp).
  exists (length (heap st)). split; [reflexivity|]. cbn [snd heap].
  rewrite (cell_lookup (lookup_last _ _)). cbn [prop_of].
  rewrite lookup_effective by assumption. by rewrite Hlk.
Qed.

Lemma C3_arrays_are_concatenated_witness :
  heap tagged_state !! defaults (this tagged_state) =
    Some (JObj [("headers", JObj []); ("tags", JArr [JStr "a"; JStr "b"])]) /\
  exists r,
    fst (_prepareOptions JUndefined tagged_overrides tagged_state) = Ok r /\
    elements
      (prop_of (cell (heap (snd (_prepareOptions JUndefined tagged_overrides
                                   tagged_state))) r) "tags") =
      Some (map Deepmerge.clone [JStr "a"; JStr "b"] ++ map Deepmerge.clone [JStr "c"]).
Proof.
  split; [reflexivity|].
  apply (C3_arrays_are_concatenated JUndefined tagged_state
           [("headers", JObj []); ("tags", JArr [JStr "a"; JStr "b"])]
           [("tags", JArr [JStr "c"])] "tags" [JStr "a"; JStr "b"] [JStr "c"]).
  - reflexivity.
  - repeat constructor; cbn; intuition discriminate.
  - repeat constructor; cbn; intuition discriminate.
  - reflexivity.
  - reflexivity.
  - reflexivity.
  - discriminate.
  - discriminate.
  - left. reflexivity.
Defined.

(** The same at the key [headers], which the transport accepts as an array
    of pairs. *)
Example header_arrays_are_concatenated :
  let pair := fun n v => JArr [JStr n; JStr v] in
  let st := {| this := blank; heap := [JObj [("headers", JArr [pair "Accept" "text/html"])]] |} in
  let overrides := JObj [("headers", JArr [pair "X-Trace" "1"])] in
  fst (_prepareOptions JUndefined overrides st) = Ok 1 /\
  elements (prop_of (cell (heap (snd (_prepareOptions JUndefined overrides st))) 1)
              "headers") =
    Some [pair "Accept" "text/html"; pair "X-Trace" "1"].
Proof. split; reflexivity. Qed.

(** C6 *)

(** C6, as the claim states it, fails: the instance holds the auth value
    ['Basic dTpw'], the overrides carry the header [Authorization: Bearer t];
    in the union of the two header records [Authorization] is ['Bearer t'],
    in the effective options it is ['Basic dTpw']. *)
Lemma C6_authorization_overrides_union :
  fst (_prepareOptions JUndefined bearer_overrides basic_state) = Ok 1 /\
  prop_of (prop_of (cell (heap (snd (_prepareOptions JUndefined bearer_overrides
                                        basic_state))) 1) "headers") "Authorization"
    = JStr "Basic dTpw" /\
  prop_of (prop_of bearer_overrides "headers") "Authorization" = JStr "Bearer t" /\
  prop_of (prop_of (cell (heap basic_state) 0) "headers") "Authorization" = JUndefined /\
  JStr "Basic dTpw" <> JStr "Bearer t".
Proof. repeat split; try reflexivity. discriminate. Qed.

Lemma lookup_string_valued k ps v :
  string_valued ps = true -> lookup_prop k ps = Some v ->
  Deepmerge.isMergeableObject v = false /\ Deepmerge.clone v = v.
Proof.
  induction ps as [|[k' v'] ps IH]; cbn; [discriminate|].
  intros H E. apply andb_prop in H. destruct H as [Hv Hps].
  destruct (String.eqb k k').
  - inversion E. subst. destruct v; try discriminate. by split.
  - by apply IH.
Qed.

(** C6, amended.  For defaults and overrides whose [headers] are records of
    strings, the headers of the effective options are the union of the two
    records with the value of the overrides at a key of both, with two
    exceptions.  [Authorization] holds the auth value of the call whenever
    that value is not empty.  A key that names a member every object
    inherits ([constructor], [toString], ...) is left out when it comes
    from the overrides and the defaults' headers do not have it, and when
    the overrides have no headers, in which case the defaults' headers are
    cloned.  Neither the defaults nor their headers own a member named
    [__proto__], which would become the prototype of the merged record
    instead of a member of it. *)
Theorem C6_headers_union_then_authorization
  (g : JsValue) (st : State) (A B HA HB : Props) :
  heap st !! defaults (this st) = Some (JObj A) ->
  List.NoDup (keys A) -> List.NoDup (keys B) ->
  List.NoDup (keys HA) -> List.NoDup (keys HB) ->
  has_prop "__proto__" A = false -> has_prop "__proto__" HA = false ->
  lookup_prop "headers" A = Some (JObj HA) ->
  (lookup_prop "headers" B = Some (JObj HB) \/
   (lookup_prop "headers" B = None /\ HB = [])) ->
  string_valued HA = true -> string_valued HB = true ->
  let a := effective_auth g (this st) (merge (JObj A) (JObj B)) in
  exists r H,
    fst (_prepareOptions g (JObj B) st) = Ok r /\
    prop_of (cell (heap (snd (_prepareOptions g (JObj B) st))) r) "headers" = JObj H /\
    forall key,
      lookup_prop key H =
        if truthy a && String.eqb key "Authorization" then Some a
        else match lookup_prop key HB with
             | Some v => if inherited key && negb (has_prop key HA) then None else Some v
             | None => if inherited key && negb (has_prop "headers" B) then None
                       else lookup_prop key HA
             end.
Proof.
  intros Hd HA_nd HB_nd HHA_nd HHB_nd _ _ HhA HhB HsA HsB a.
  destruct (merge_objects A B) as [mp Hmp].
  pose proof (lookup_merge "headers" A B HA_nd HB_nd) as Hlh. rewrite Hmp in Hlh.
  change (inherited "headers") with false in Hlh. cbn [andb] in Hlh.
  assert (Hhp : exists hp, lookup_prop "headers" mp = Some (JObj hp) /\
            forall key, lookup_prop key hp =
                        match lookup_prop key HB with
                        | Some v =>
                            if inherited key && negb (has_prop key HA) then None
                            else Some v
                        | None =>
                            if inherited key && negb (has_prop "headers" B) then None
                            else lookup_prop key HA
                        end).
  { rewrite Hlh. destruct HhB as [HhB | [HhB ->]].
    - assert (Hb : has_prop "headers" B = true) by (unfold has_prop; by rewrite HhB).
      rewrite HhB, Hb.
      unfold has_prop at 1. rewrite HhA. cbn [andb Deepmerge.isMergeableObject prop_of].
      rewrite HhA. destruct (merge_objects HA HB) as [hp Hhp]. rewrite Hhp.
      exists hp. split; [reflexivity|]. intros key.
      pose proof (lookup_merge key HA HB HHA_nd HHB_nd) as Hl. rewrite Hhp in Hl.
      rewrite Hl. cbn [negb]. rewrite andb_false_r.
      destruct (lookup_prop key HB) as [v|] eqn:Ev.
      + destruct (lookup_string_valued _ _ _ HsB Ev) as [Hm Hc].
        destruct (inherited key && negb (has_prop key HA)); [reflexivity|].
        by rewrite Hm, andb_false_r, Hc.
      + destruct (lookup_prop key HA) as [v|] eqn:Ea; [|reflexivity].
        destruct (lookup_string_valued _ _ _ HsA Ea) as [_ Hc]. cbn. by rewrite Hc.
    - assert (Hb : has_prop "headers" B = false) by (unfold has_prop; by rewrite HhB).
      rewrite HhB, Hb, HhA. cbn [option_map].
      destruct (clone (JObj HA)) as [ | |b|n|s|src call|h|zs|hp] eqn:Ec;
        try discriminate Ec.
      exists hp. split; [reflexivity|]. intros key.
      pose proof (lookup_clone key HA HHA_nd) as Hl. rewrite Ec in Hl. rewrite Hl.
      cbn [lookup_prop negb]. rewrite andb_true_r.
      destruct (inherited key); [reflexivity|].
      destruct (lookup_prop key HA) as [v|] eqn:Ea; [|reflexivity].
      destruct (lookup_string_valued _ _ _ HsA Ea) as [_ Hc]. cbn. by rewrite Hc. }
  destruct Hhp as (hp & Hhp & Hunion).
  destruct (resolved_auth_succeeds g (this st) (JObj mp)) as [a' Ha].
  assert (a = a') as <-.
  { subst a. unfold effective_auth. by rewrite Hmp, Ha. }
  rewrite (prepareOptions_run g (JObj B) st mp a hp); [| | exact Ha | exact Hhp].
  - exists (length (heap st)), (if truthy a then set_prop "Authorization" a hp else hp).
    split; [reflexivity|]. cbn [snd heap].
    rewrite (cell_lookup (lookup_last _ _)). cbn [prop_of].
    rewrite (lookup_effective_headers _ _ _ _ Hhp). split; [reflexivity|].
    intros key. destruct (truthy a); cbn [andb].
    + rewrite lookup_set_prop. destruct (String.eqb key "Authorization"); auto.
    + apply Hunion.
  - rewrite (cell_lookup Hd). exact Hmp.
Qed.

Lemma C6_headers_union_then_authorization_witness :
  heap basic_state !! defaults (this basic_state) =
    Some (JObj [("headers", JObj [("Accept", JStr "text/html")])]) /\
  exists r H,
    fst (_prepareOptions JUndefined bearer_overrides basic_state) = Ok r /\
    prop_of (cell (heap (snd (_prepareOptions JUndefined bearer_overrides basic_state))) r)
      "headers" = JObj H /\
    forall key,
      lookup_prop key H =
        if truthy (JStr "Basic dTpw") && String.eqb key "Authorization"
        then Some (JStr "Basic dTpw")
        else match lookup_prop key [("Authorization", JStr "Bearer t")] with
             | Some v =>
                 if inherited key && negb (has_prop key [("Accept", JStr "text/html")])
                 then None else Some v
             | None =>
                 if inherited key &&
                    negb (has_prop "headers"
                            [("headers", JObj [("Authorization", JStr "Bearer t")])])
                 then None
                 else lookup_prop key [("Accept", JStr "text/html")]
             end.
Proof.
  split; [reflexivity|].
  apply (C6_headers_union_then_authorization JUndefined basic_state
           [("headers", JObj [("Accept", JStr "text/html")])]
           [("headers", JObj [("Authorization", JStr "Bearer t")])]
           [("Accept", JStr "text/html")] [("Authorization", JStr "Bearer t")]).
  - reflexivity.
  - repeat constructor; cbn; intuition discriminate.
  - repeat constructor; cbn; intuition discriminate.
  - repeat constructor; cbn; intuition discriminate.
  - repeat constructor; cbn; intuition discriminate.
  - reflexivity.
  - reflexivity.
  - reflexivity.
  - left. reflexivity.
  - reflexivity.
  - reflexivity.
Defined.

(** A header of the overrides under an inherited name does not arrive. *)
Example inherited_header_name_is_dropped :
  let st := {| this := blank; heap := [JObj [("headers", JObj [])]] |} in
  let overrides := JObj [("headers", JObj [("constructor", JStr "x"); ("Accept", JStr "*/*")])] in
  fst (_prepareOptions JUndefined overrides st) = Ok 1 /\
  prop_of (cell (heap (snd (_prepareOptions JUndefined overrides st))) 1) "headers" =
    JObj [("Accept", JStr "*/*")].
Proof. split; reflexivity. Qed.

(** C2 *)

(** The first two steps of the precedence hold: a username and a password
    give a Basic header whatever else the descriptor holds, and without them
    a function under [credentials] is called for the header. *)
Lemma prepareAuth_basic_first (g : JsValue) (ps : Props) (u p : string) :
  lookup_prop "username" ps = Some (JStr u) ->
  lookup_prop "password" ps = Some (JStr p) ->
  u <> "" -> p <> "" ->
  prepareAuth g (JObj ps) = Ok (JStr ("Basic " +:+ Base64.encode (u +:+ ":" +:+ p))).
Proof.
  intros Hu Hp Hu' Hp'. unfold prepareAuth. cbn [prop_of]. rewrite Hu, Hp.
  cbn [truthy to_string].
  apply String.eqb_neq in Hu', Hp'. by rewrite Hu', Hp'.
Qed.

Lemma prepareAuth_function_second (g : JsValue) (ps : Props) (src : string)
  (call : unit -> string) :
  truthy (prop_of (JObj ps) "username") && truthy (prop_of (JObj ps) "password") = false ->
  lookup_prop "credentials" ps = Some (JFun src call) ->
  prepareAuth g (JObj ps) =
    Ok (JStr (getSpecifiedStr (prop_of (JObj ps) "authtype") "Bearer" +:+ " " +:+ call tt)).
Proof.
  intros Hb Hc. unfold prepareAuth. rewrite Hb. cbn [prop_of]. by rewrite Hc.
Qed.

Lemma prepareAuth_none (g : JsValue) (ps : Props) :
  truthy (prop_of (JObj ps) "username") && truthy (prop_of (JObj ps) "password") = false ->
  lookup_prop "credentials" ps = None ->
  typeof g <> "string" ->
  prepareAuth g (JObj ps) = Ok JUndefined.
Proof.
  intros Hb Hc Hg. unfold prepareAuth. rewrite Hb. cbn [prop_of]. rewrite Hc.
  cbn [typeof]. apply String.eqb_neq in Hg. by rewrite Hg.
Qed.

(** C2, string credentials.  The third step tests the type of the free
    identifier [credentials], not of [auth.credentials]: unless the global
    scope binds that identifier to a string, a descriptor whose
    [credentials] is a string (and which has no username and password pair)
    resolves to [undefined], so that no Authorization header is produced,
    where the claim has the header ['authtype credentials']. *)
Theorem C2_string_credentials_give_no_header
  (g : JsValue) (ps : Props) (s : string) :
  typeof g <> "string" ->
  truthy (prop_of (JObj ps) "username") && truthy (prop_of (JObj ps) "password") = false ->
  lookup_prop "credentials" ps = Some (JStr s) ->
  prepareAuth g (JObj ps) = Ok JUndefined.
Proof.
  intros Hg Hb Hc. unfold prepareAuth. rewrite Hb. cbn [prop_of]. rewrite Hc.
  cbn [typeof]. apply String.eqb_neq in Hg. by rewrite Hg.
Qed.

Lemma C2_string_credentials_give_no_header_witness :
  typeof JUndefined <> "string" /\
  prepareAuth JUndefined (JObj [("credentials", JStr "s3cr3t"); ("authtype", JStr "Token")])
    = Ok JUndefined.
Proof.
  split; [discriminate|].
  apply (C2_string_credentials_give_no_header JUndefined
           [("credentials", JStr "s3cr3t"); ("authtype", JStr "Token")] "s3cr3t").
  - discriminate.
  - reflexivity.
  - reflexivity.
Defined.

(** The same descriptor given at construction: the request carries no
    Authorization header. *)
Example string_credentials_request :
  let st := snd (FetchHelper_constructor JUndefined
                   (JObj [("auth", JObj [("credentials", JStr "s3cr3t")])])
                   {| this := blank; heap := [] |}) in
  auth (this st) = JUndefined /\
  fst (fetch (fun url options => Ok {| status := 200; statusText := url;
                                       body := default "" (JSON.stringify options) |})
         JUndefined (JStr "/items") JUndefined st) =
    Ok {| status := 200; statusText := "/items";
          body := "{" +:+ JSON.quote "headers" +:+ ":{}}" |}.
Proof. split; reflexivity. Qed.

(** C4 *)

(** C4, form JSON variant.  [FormHelper.postGetJson] sets [Accept] and the
    body, but it sets a member [onlyok] where [_fetch] reads
    [onlysuccessful]: on an instance whose flag is off a 404 response is
    not turned into an [HttpStatusError], its body is decoded and returned,
    and the transport is handed the stray [onlyok] member. *)
Theorem C4_form_postGetJson_not_gated :
  onlysuccessful (this form_state) = false /\
  FormHelper_postGetJson (fun _ _ => Ok not_found) JUndefined (JStr "/upload") JUndefined
    form_state =
    (Ok (JArr [JNum 404]),
     {| this := this form_state;
        heap := heap form_state ++
                [JObj [("headers", JObj [("Accept", JStr "application/json")]);
                       ("method", JStr "POST");
                       ("onlyok", JBool true);
                       ("body", JHost (HFormData []))]] |}) /\
  fst (FormHelper_submitGetJson (fun _ _ => Ok not_found) JUndefined (JStr "/upload")
         JUndefined form_state) = Ok (JArr [JNum 404]).
Proof. repeat split; reflexivity. Qed.

(** The sibling method of [RequestHelper] sets [onlysuccessful] and rejects
    the same response. *)
Example request_postGetJson_gated :
  fst (postGetJson (fun _ _ => Ok not_found) (fun _ _ => "") JUndefined
         (JStr "/upload") (JObj [("a", JNum 1)]) JUndefined form_state) =
    Throw (HttpStatus (new_HttpStatusError "Not Found" 404 not_found)).
Proof. reflexivity. Qed.

(** C5 *)

(** C5, call surface.  GET and POST have their base call and decode
    variants on [RequestHelper]; none of the six DELETE methods the
    declaration file lists is defined by the class or inherited by it, and
    calling one throws a [TypeError]. *)
Theorem C5_delete_methods_missing
  (transport : string -> JsValue -> Result Response)
  (queryString_stringify : JsValue -> JsValue -> string)
  (g : JsValue) (args : list JsValue) (st : State) :
  Forall (fun name =>
            In name RequestHelper_declared /\
            RequestHelper_method name = None /\
            RequestHelper_invoke transport queryString_stringify g name args st =
              (Throw (TypeError (name +:+ " is not a function")), st))
         ["delete"; "deleteGetJson"; "deleteGetText"; "deleteGetBlob";
          "deleteGetArrayBuffer"; "deleteGetBuffer"] /\
  Forall (fun name => RequestHelper_method name <> None)
         ["get"; "getGetJson"; "getGetText"; "getGetBlob"; "getArrayBuffer"; "getBuffer";
          "post"; "postGetJson"; "postGetText"; "postGetBlob"; "postGetArrayBuffer";
          "postGetBuffer"].
Proof.
  split.
  - repeat (apply List.Forall_cons; [split; [cbn; tauto | split; reflexivity]|]).
    apply List.Forall_nil.
  - repeat (apply List.Forall_cons; [discriminate|]). apply List.Forall_nil.
Qed.

(** The decode variants of [RequestHelper] gate whatever the instance flag
    and the per-call options say. *)
Example decode_variants_gate :
  let st := snd (RequestHelper_constructor JUndefined JUndefined
                   {| this := blank; heap := [] |}) in
  let tr := fun (_ : string) (_ : JsValue) => Ok not_found in
  let off := JObj [("onlysuccessful", JBool false)] in
  onlysuccessful (this st) = false /\
  fst (get tr (fun _ _ => "") JUndefined (JStr "/items") JUndefined off st) = Ok not_found /\
  Forall (fun call =>
            fst (call (JStr "/items") JUndefined off st) =
              Throw (HttpStatus (new_HttpStatusError "Not Found" 404 not_found)))
         [getGetJson tr (fun _ _ => "") JUndefined;
          getGetText tr (fun _ _ => "") JUndefined;
          getGetBlob tr (fun _ _ => "") JUndefined;
          getArrayBuffer tr (fun _ _ => "") JUndefined;
          getBuffer tr (fun _ _ => "") JUndefined;
          postGetJson tr (fun _ _ => "") JUndefined;
          postGetText tr (fun _ _ => "") JUndefined;
          postGetBlob tr (fun _ _ => "") JUndefined;
          postGetArrayBuffer tr (fun _ _ => "") JUndefined;
          postGetBuffer tr (fun _ _ => "") JUndefined].
Proof. repeat split; try reflexivity. repeat constructor. Qed.

(** ** Strings *)

#[local] Arguments String.append !s1 s2 : simpl nomatch.

Lemma append_assoc (a b c : string) : (a +:+ b) +:+ c = a +:+ (b +:+ c).
Proof. induction a as [|x a IH]; cbn; [reflexivity | by rewrite IH]. Qed.

Lemma append_empty_r (a : string) : a +:+ "" = a.
Proof. induction a as [|x a IH]; cbn; [reflexivity | by rewrite IH]. Qed.

Lemma length_append (a b : string) :
  String.length (a +:+ b) = String.length a + String.length b.
Proof. induction a as [|x a IH]; cbn; [reflexivity | by rewrite IH]. Qed.

(** ** JSON numbers *)

Import JSON.

Lemma digit_val_digit_char d : (d < 10)%N -> digit_val (digit_char d) = Some d.
Proof.
  intros H.
  assert (d = 0 \/ d = 1 \/ d = 2 \/ d = 3 \/ d = 4 \/ d = 5 \/ d = 6 \/ d = 7 \/
          d = 8 \/ d = 9)%N as Hd by lia.
  repeat (destruct Hd as [-> | Hd]; [reflexivity|]). subst. reflexivity.
Qed.

Lemma digits_fuel_append f n acc rest :
  digits_fuel f n acc +:+ rest = digits_fuel f n (acc +:+ rest).
Proof.
  revert n acc. induction f as [|f IH]; intros n acc; cbn; [reflexivity|].
  destruct (n <? 10)%N; [reflexivity | apply IH].
Qed.

Lemma parse_digits_stop acc s : number_end s = true -> parse_digits acc s = (acc, s).
Proof.
  destruct s as [|c s]; cbn; [reflexivity|].
  destruct (digit_val c); [discriminate | reflexivity].
Qed.

(** Reading back the digits of a positive number: the first digit is not
    zero, and reading on from it gives the number. *)
Lemma parse_digits_digits_fuel f n tail :
  (0 < n)%N -> (n < 2 ^ N.of_nat f)%N ->
  exists d s, digits_fuel f n tail = String (digit_char d) s /\
              (0 < d < 10)%N /\
              parse_digits d s = parse_digits n tail.
Proof.
  revert n tail. induction f as [|f IH]; intros n tail Hpos Hlt.
  - cbn in Hlt. lia.
  - cbn [digits_fuel]. destruct (N.ltb_spec n 10) as [Hsmall|Hbig].
    + exists n, tail. rewrite N.mod_small by assumption. repeat split; auto; lia.
    + assert (Hq : (0 < n / 10)%N).
      { apply N.div_str_pos. lia. }
      assert (Hq' : (n / 10 < 2 ^ N.of_nat f)%N).
      { rewrite Nat2N.inj_succ, N.pow_succ_r' in Hlt.
        apply N.Div0.div_lt_upper_bound. lia. }
      destruct (IH (n / 10)%N (String (digit_char (n mod 10)) tail) Hq Hq')
        as (d & s & E & Hd & Hp).
      exists d, s. repeat split; try tauto. rewrite Hp. cbn [parse_digits].
      rewrite digit_val_digit_char by (apply N.mod_lt; lia).
      f_equal. rewrite N.mul_comm. symmetry. apply N.div_mod. lia.
Qed.

Lemma size_nat_bound p : (Npos p < 2 ^ N.of_nat (Pos.size_nat p))%N.
Proof.
  induction p as [p IH|p IH|]; cbn [Pos.size_nat];
    rewrite ?Nat2N.inj_succ, ?N.pow_succ_r'; cbn in *; lia.
Qed.

Lemma N_to_string_head p rest :
  exists d s, N_to_string (Npos p) +:+ rest = String (digit_char d) s /\
              (0 < d < 10)%N /\
              (number_end rest = true -> parse_digits d s = (Npos p, rest)).
Proof.
  unfold N_to_string. rewrite digits_fuel_append. cbn [String.append].
  destruct (parse_digits_digits_fuel (S (N.size_nat (Npos p))) (Npos p) rest)
    as (d & s & E & Hd & Hp).
  - lia.
  - cbn [N.size_nat]. rewrite Nat2N.inj_succ, N.pow_succ_r'.
    pose proof (size_nat_bound p). lia.
  - exists d, s. repeat split; try tauto. intros Hend.
    rewrite Hp. by apply parse_digits_stop.
Qed.

Lemma digit_char_cases d :
  (d < 10)%N ->
  In (digit_char d) ["0"; "1"; "2"; "3"; "4"; "5"; "6"; "7"; "8"; "9"]%char.
Proof.
  intros H.
  assert (d = 0 \/ d = 1 \/ d = 2 \/ d = 3 \/ d = 4 \/ d = 5 \/ d = 6 \/ d = 7 \/
          d = 8 \/ d = 9)%N as Hd by lia.
  repeat (destruct Hd as [-> | Hd]; [cbn; tauto|]). subst. cbn. tauto.
Qed.

Lemma parse_int_N_to_string p rest :
  number_end rest = true ->
  parse_int (N_to_string (Npos p) +:+ rest) = Some (Npos p, rest).
Proof.
  intros Hend. destruct (N_to_string_head p rest) as (d & s & E & Hd & Hp).
  rewrite E. unfold parse_int. rewrite digit_val_digit_char by lia.
  destruct d as [|q]; [lia|]. by rewrite Hp.
Qed.

(** What is no digit ends a run of digits. *)
Definition nondigit (s : string) : Prop :=
  match s with
  | EmptyString => True
  | String c _ => digit_val c = None
  end.

Lemma number_end_nondigit s : number_end s = true -> nondigit s.
Proof.
  destruct s as [|c s]; cbn; [done|]. by destruct (digit_val c).
Qed.

Lemma parse_digits_nondigit acc s : nondigit s -> parse_digits acc s = (acc, s).
Proof. destruct s as [|c s]; cbn; [done|]. by intros ->. Qed.

Lemma parse_fraction_nondigit acc e s : nondigit s -> parse_fraction acc e s = (acc, e, s).
Proof. destruct s as [|c s]; cbn; [done|]. by intros ->. Qed.

Lemma parse_int_positive p tail :
  nondigit tail -> parse_int (N_to_string (Npos p) +:+ tail) = Some (Npos p, tail).
Proof.
  intros Hend. unfold N_to_string. rewrite digits_fuel_append. cbn [String.append].
  destruct (parse_digits_digits_fuel (S (N.size_nat (Npos p))) (Npos p) tail)
    as (d & s & E & Hd & Hp).
  - lia.
  - cbn [N.size_nat]. rewrite Nat2N.inj_succ, N.pow_succ_r'.
    pose proof (size_nat_bound p). lia.
  - rewrite E. unfold parse_int. rewrite digit_val_digit_char by lia.
    destruct d as [|q]; [lia|]. rewrite Hp. by rewrite parse_digits_nondigit.
Qed.

Lemma parse_exp_digits_positive p rest :
  nondigit rest -> parse_exp_digits (N_to_string (Npos p) +:+ rest) = Some (Npos p, rest).
Proof.
  intros Hend. unfold N_to_string. rewrite digits_fuel_append. cbn [String.append].
  destruct (parse_digits_digits_fuel (S (N.size_nat (Npos p))) (Npos p) rest)
    as (d & s & E & Hd & Hp).
  - lia.
  - cbn [N.size_nat]. rewrite Nat2N.inj_succ, N.pow_succ_r'.
    pose proof (size_nat_bound p). lia.
  - rewrite E. unfold parse_exp_digits. rewrite digit_val_digit_char by lia.
    cbn [parse_digits]. rewrite digit_val_digit_char by lia.
    change (0 * 10 + d)%N with d. rewrite Hp. by rewrite parse_digits_nondigit.
Qed.

Lemma N_to_string_digit p tail :
  exists d s, (d < 10)%N /\ N_to_string (Npos p) +:+ tail = String (digit_char d) s.
Proof.
  unfold N_to_string. rewrite digits_fuel_append. cbn [String.append].
  destruct (parse_digits_digits_fuel (S (N.size_nat (Npos p))) (Npos p) tail)
    as (d & s & E & Hd & Hp).
  - lia.
  - cbn [N.size_nat]. rewrite Nat2N.inj_succ, N.pow_succ_r'.
    pose proof (size_nat_bound p). lia.
  - exists d, s. split; [lia | done].
Qed.

(** The digits of a fixed width. *)
Lemma fixed_digits_append w f acc rest :
  fixed_digits w f acc +:+ rest = fixed_digits w f (acc +:+ rest).
Proof.
  revert f acc. induction w as [|w IH]; intros f acc; cbn; [done | apply IH].
Qed.

Lemma fixed_digits_head w f acc :
  exists d s, (d < 10)%N /\ fixed_digits (S w) f acc = String (digit_char d) s.
Proof.
  revert f acc. induction w as [|w IH]; intros f acc.
  - exists (f mod 10)%N, acc. split; [apply N.mod_lt; lia | done].
  - change (fixed_digits (S (S w)) f acc)
      with (fixed_digits (S w) (f / 10) (String (digit_char (f mod 10)) acc)).
    apply IH.
Qed.

Lemma low_digits f w :
  ((f / 10) mod 10 ^ w * 10 + f mod 10 = f mod 10 ^ N.succ w)%N.
Proof.
  rewrite N.pow_succ_r'. rewrite N.Div0.mod_mul_r. lia.
Qed.

Lemma parse_fraction_fixed_digits w f acc e tail :
  parse_fraction acc e (fixed_digits w f tail) =
  parse_fraction (acc * 10 ^ N.of_nat w + f mod 10 ^ N.of_nat w) (e - Z.of_nat w) tail.
Proof.
  revert f acc e tail. induction w as [|w IH]; intros f acc e tail.
  - cbn [fixed_digits]. change (N.of_nat 0) with 0%N. rewrite N.pow_0_r, N.mod_1_r.
    f_equal; lia.
  - cbn [fixed_digits]. rewrite IH. cbn [parse_fraction].
    rewrite digit_val_digit_char by (apply N.mod_lt; lia).
    rewrite Nat2N.inj_succ, <- low_digits, N.pow_succ_r'. f_equal; lia.
Qed.

(** The number of digits. *)
Lemma ndigits_fuel_spec f s :
  (0 < s)%N -> (s < 2 ^ N.of_nat f)%N ->
  (10 ^ (ndigits_fuel f s - 1) <= s < 10 ^ ndigits_fuel f s)%N /\ (1 <= ndigits_fuel f s)%N.
Proof.
  revert s. induction f as [|f IH]; intros s Hpos Hlt.
  - cbn in Hlt. lia.
  - cbn [ndigits_fuel]. destruct (N.ltb_spec s 10) as [Hsmall|Hbig].
    + change (1 - 1)%N with 0%N. rewrite N.pow_0_r, N.pow_1_r. lia.
    + assert (Hq : (0 < s / 10)%N) by (apply N.div_str_pos; lia).
      assert (Hq' : (s / 10 < 2 ^ N.of_nat f)%N).
      { rewrite Nat2N.inj_succ, N.pow_succ_r' in Hlt.
        apply N.Div0.div_lt_upper_bound. lia. }
      destruct (IH _ Hq Hq') as [[Hlo Hhi] Hk].
      set (k := ndigits_fuel f (s / 10)) in *.
      replace (1 + k - 1)%N with (N.succ (k - 1)) by lia.
      replace (1 + k)%N with (N.succ k) by lia.
      rewrite !N.pow_succ_r'.
      pose proof (N.div_mod s 10 ltac:(lia)) as Hs.
      pose proof (N.mod_lt s 10 ltac:(lia)).
      clearbody k. set (a := (10 ^ (k - 1))%N) in *. set (b := (10 ^ k)%N) in *.
      set (q := (s / 10)%N) in *. set (r := (s mod 10)%N) in *.
      clearbody a b q r. split; [|lia]. split; lia.
Qed.

Lemma ndigits_spec p :
  (10 ^ (ndigits (Npos p) - 1) <= Npos p < 10 ^ ndigits (Npos p))%N /\
  (1 <= ndigits (Npos p))%N.
Proof.
  apply ndigits_fuel_spec; [lia|]. cbn [N.size_nat]. apply size_nat_bound.
Qed.

(** After the digits of a number. *)
Lemma parse_frac_end i rest : number_end rest = true -> parse_frac i rest = Some (i, 0%Z, rest).
Proof.
  destruct rest as [|c r]; [reflexivity|].
  destruct c as [[] [] [] [] [] [] [] []]; try reflexivity; discriminate.
Qed.

Lemma parse_exp_end rest : number_end rest = true -> parse_exp rest = Some (0%Z, rest).
Proof.
  destruct rest as [|c r]; [reflexivity|].
  destruct c as [[] [] [] [] [] [] [] []]; try reflexivity; discriminate.
Qed.

Lemma parse_number_digit d s :
  (d < 10)%N ->
  parse_number (String (digit_char d) s) =
    match parse_unsigned (String (digit_char d) s) with
    | Some (digits, e, rest) => Some (canon false digits e, rest)
    | None => None
    end.
Proof.
  intros H.
  assert (d = 0 \/ d = 1 \/ d = 2 \/ d = 3 \/ d = 4 \/ d = 5 \/ d = 6 \/ d = 7 \/
          d = 8 \/ d = 9)%N as Hd by lia.
  repeat (destruct Hd as [-> | Hd]; [reflexivity|]). subst. reflexivity.
Qed.

Lemma parse_frac_fixed_digits i w f tail :
  parse_frac i (String "." (fixed_digits (S w) f tail)) =
  Some (parse_fraction (i * 10 ^ N.of_nat (S w) + f mod 10 ^ N.of_nat (S w))
                       (- Z.of_nat (S w)) tail).
Proof.
  destruct (fixed_digits_head w f tail) as (d & s & Hd & E).
  unfold parse_frac. rewrite E. rewrite (digit_val_digit_char d Hd). rewrite <- E.
  by rewrite parse_fraction_fixed_digits.
Qed.

Lemma parse_exp_signed (x : Z) rest :
  x <> 0%Z -> number_end rest = true ->
  parse_exp (String "e" (String (if (x <? 0)%Z then "-" else "+")
                                (N_to_string (Z.abs_N x))) +:+ rest) = Some (x, rest).
Proof.
  intros Hx Hend. apply number_end_nondigit in Hend.
  cbn [String.append]. destruct x as [|p|p]; [done| |].
  - change (Z.abs_N (Z.pos p)) with (Npos p). change (Z.pos p <? 0)%Z with false.
    cbv beta iota. unfold parse_exp. cbn [Ascii.eqb Bool.eqb orb].
    by rewrite (parse_exp_digits_positive p rest Hend).
  - change (Z.abs_N (Z.neg p)) with (Npos p). change (Z.neg p <? 0)%Z with true.
    cbv beta iota. unfold parse_exp. cbn [Ascii.eqb Bool.eqb orb].
    by rewrite (parse_exp_digits_positive p rest Hend).
Qed.

(** The text of a positive number reads back as its digits and exponent,
    or, when it is written with its zeros, as the digits with the zeros. *)
Lemma parse_unsigned_digits_to_string p e rest :
  number_end rest = true ->
  (exists d t, (d < 10)%N /\ digits_to_string (Npos p) e +:+ rest = String (digit_char d) t) /\
  (parse_unsigned (digits_to_string (Npos p) e +:+ rest) = Some (Npos p, e, rest) \/
   (0 <= e)%Z /\
   parse_unsigned (digits_to_string (Npos p) e +:+ rest) =
     Some ((Npos p * 10 ^ Z.to_N e)%N, 0%Z, rest)).
Proof.
  intros Hend. pose proof (number_end_nondigit rest Hend) as Hnd.
  destruct (ndigits_spec p) as [[Hlo Hhi] Hk].
  unfold digits_to_string. set (k := ndigits (Npos p)) in *. clearbody k.
  destruct ((0 <=? e)%Z && (Z.of_N k + e <=? 21)%Z) eqn:EA.
  { (* the digits followed by zeros *)
    apply andb_prop in EA. destruct EA as [He _]. apply Z.leb_le in He.
    destruct (Npos p * 10 ^ Z.to_N e)%N as [|q] eqn:Eq.
    { apply N.eq_mul_0 in Eq. destruct Eq as [Eq|Eq]; [discriminate|].
      by apply N.pow_nonzero in Eq. }
    split.
    - destruct (N_to_string_digit q rest) as (d & t & Hd & E). by exists d, t.
    - right. split; [done|]. unfold parse_unsigned.
      rewrite (parse_int_positive q rest Hnd), (parse_frac_end _ _ Hend).
      by rewrite (parse_exp_end _ Hend). }
  destruct ((0 <? Z.of_N k + e)%Z && (Z.of_N k + e <=? 21)%Z) eqn:EB.
  { (* the digits around the point *)
    apply andb_prop in EB. destruct EB as [Hn H21]. apply Z.ltb_lt in Hn.
    assert (He : (e < 0)%Z).
    { destruct (Z.leb_spec 0 e) as [H0|H0]; [|done].
      rewrite H21 in EA. discriminate EA. }
    clear EA.
    assert (Hw : Z.to_nat (- e) = S (Z.to_nat (- e) - 1)) by lia.
    assert (HwN : N.of_nat (Z.to_nat (- e)) = Z.to_N (- e)) by lia.
    assert (Hle : (10 ^ Z.to_N (- e) <= Npos p)%N).
    { etrans; [|exact Hlo]. apply N.pow_le_mono_r; lia. }
    destruct (Npos p / 10 ^ Z.to_N (- e))%N as [|q] eqn:Eq.
    { pose proof (N.div_str_pos (Npos p) (10 ^ Z.to_N (- e))) as Hpos.
      rewrite Eq in Hpos. 
      assert (0 < 10 ^ Z.to_N (- e))%N by (apply N.neq_0_lt_0, N.pow_nonzero; lia). lia. }
    rewrite append_assoc. cbn [String.append]. rewrite fixed_digits_append.
    cbn [String.append].
    split.
    - destruct (N_to_string_digit q (String "." (fixed_digits (Z.to_nat (- e)) (Npos p) rest)))
        as (d & t & Hd & E). by exists d, t.
    - left. unfold parse_unsigned.
      rewrite (parse_int_positive q _ (eq_refl : nondigit (String "." _))).
      rewrite Hw, parse_frac_fixed_digits, <- Hw, HwN.
      rewrite (parse_fraction_nondigit _ _ _ Hnd), (parse_exp_end _ Hend).
      rewrite <- Eq. do 3 f_equal.
      + pose proof (N.div_mod (Npos p) (10 ^ Z.to_N (- e))
                      ltac:(apply N.pow_nonzero; lia)) as Hdm.
        rewrite Hdm at 3. lia.
      + lia. }
  destruct ((-6 <? Z.of_N k + e)%Z && (Z.of_N k + e <=? 0)%Z) eqn:EC.
  { (* the digits behind zeros *)
    apply andb_prop in EC. destruct EC as [_ Hn]. apply Z.leb_le in Hn.
    assert (He : (e < 0)%Z) by lia.
    assert (Hw : Z.to_nat (- e) = S (Z.to_nat (- e) - 1)) by lia.
    assert (HwN : N.of_nat (Z.to_nat (- e)) = Z.to_N (- e)) by lia.
    assert (Hlt : (Npos p < 10 ^ Z.to_N (- e))%N).
    { eapply N.lt_le_trans; [exact Hhi|]. apply N.pow_le_mono_r; lia. }
    cbn [String.append]. rewrite fixed_digits_append. cbn [String.append].
    split.
    - exists 0%N, (String "." (fixed_digits (Z.to_nat (- e)) (Npos p) rest)).
      split; [lia | reflexivity].
    - left. unfold parse_unsigned.
      change (parse_int (String "0" ?r)) with (Some (0%N, r)).
      cbv beta iota.
      rewrite Hw, parse_frac_fixed_digits, <- Hw, HwN.
      rewrite (parse_fraction_nondigit _ _ _ Hnd), (parse_exp_end _ Hend).
      rewrite N.mod_small by exact Hlt. do 3 f_equal; lia. }
  (* the exponent form *)
  assert (Hx : (Z.of_N k + e - 1 <> 0)%Z).
  { intros H0. assert (Z.of_N k + e = 1)%Z as H1 by lia. rewrite H1 in EB. 
    discriminate EB. }
  assert (Hp10 : (10 ^ k = 10 * 10 ^ (k - 1))%N).
  { rewrite <- N.pow_succ_r'. f_equal. lia. }
  assert (Hlead : (0 < Npos p / 10 ^ (k - 1) < 10)%N).
  { split.
    - apply N.div_str_pos. split; [|exact Hlo].
      apply N.neq_0_lt_0, N.pow_nonzero; lia.
    - apply N.Div0.div_lt_upper_bound. rewrite N.mul_comm, <- Hp10. exact Hhi. }
  pose proof (N.div_mod (Npos p) (10 ^ (k - 1)) ltac:(apply N.pow_nonzero; lia)) as Hdm.
  set (lead := (Npos p / 10 ^ (k - 1))%N) in *.
  split.
  - cbn [String.append]. exists lead. eexists. split; [lia | reflexivity].
  - left. destruct (N.eqb_spec k 1) as [->|Hk1].
    + (* one digit *)
      change (1 - 1)%N with 0%N in *. rewrite N.pow_0_r in *.
      rewrite N.mod_1_r in Hdm.
      unfold parse_unsigned. cbn [String.append]. unfold parse_int.
      rewrite (digit_val_digit_char lead ltac:(lia)).
      destruct lead as [|l] eqn:El; [lia|].
      change (parse_digits (N.pos l) (String "e" ?r)) with (N.pos l, String "e" r).
      cbv beta iota.
      change (parse_frac (N.pos l) (String "e" ?r)) with (Some (N.pos l, 0%Z, String "e" r)).
      cbv beta iota.
      pose proof (parse_exp_signed (1 + e - 1)%Z rest Hx Hend) as Hexp.
      cbn [String.append] in Hexp. change (Z.of_N 1) with 1%Z. rewrite Hexp.
      do 3 f_equal; lia.
    + (* several digits *)
      assert (Hw : N.to_nat (k - 1) = S (N.to_nat (k - 1) - 1)) by lia.
      unfold parse_unsigned. cbn [String.append]. unfold parse_int.
      rewrite (digit_val_digit_char lead ltac:(lia)).
      destruct lead as [|l] eqn:El; [lia|].
      change (parse_digits (N.pos l) (String "." ?r)) with (N.pos l, String "." r).
      cbv beta iota. rewrite !fixed_digits_append. cbn [String.append].
      rewrite Hw, parse_frac_fixed_digits, <- Hw, N2Nat.id.
      change (parse_fraction ?a ?b (String "e" ?r)) with (a, b, String "e" r).
      cbv beta iota.
      pose proof (parse_exp_signed (Z.of_N k + e - 1)%Z rest Hx Hend) as Hexp.
      cbn [String.append] in Hexp. rewrite Hexp.
      do 3 f_equal; lia.
Qed.

(** The zeros of a number written in full are part of its value. *)
Lemma canon_zeros negative p e :
  (0 <= e)%Z -> canon negative (Npos p * 10 ^ Z.to_N e) 0 = canon negative (Npos p) e.
Proof.
  intros He. unfold canon.
  destruct (N.eqb_spec (Npos p * 10 ^ Z.to_N e) 0) as [E0|_].
  { apply N.eq_mul_0 in E0. destruct E0 as [E0|E0]; [discriminate|].
    by apply N.pow_nonzero in E0. }
  change (N.pos p =? 0)%N with false. cbv iota.
  unfold Double.round_decimal, Double.ratio.
  change (0 <=? 0)%Z with true. rewrite (proj2 (Z.leb_le 0 e) He). cbv iota.
  rewrite N2Z.inj_mul, N2Z.inj_pow, Z2N.id, Z.pow_0_r, Z.mul_1_r by exact He.
  reflexivity.
Qed.

Lemma number_eqb_eq x y : number_eqb x y = true -> x = y.
Proof.
  destruct x as [m e| | |a], y as [m' e'| | |b]; cbn; try discriminate; try reflexivity.
  - intros H. apply andb_prop in H. destruct H as [Hm He].
    apply Z.eqb_eq in Hm, He. by subst.
  - intros H. apply Bool.eqb_prop in H. by subst.
Qed.

Lemma number_eqb_refl x : number_eqb x x = true.
Proof.
  destruct x as [m e| | |a]; cbn; [|reflexivity|reflexivity|by destruct a].
  by rewrite !Z.eqb_refl.
Qed.

(** The text of a number JSON carries, followed by what cannot continue a
    number, reads back as the number. *)
Lemma parse_number_to_string x rest :
  carried x = true -> number_end rest = true ->
  parse_number (number_to_string x +:+ rest) = Some (x, rest).
Proof.
  destruct x as [m e| | |a]; try discriminate. unfold carried, binary64.
  intros Hf Hend. apply number_eqb_eq in Hf. destruct m as [|p|p].
  - change (canon (0 <? 0)%Z (Z.abs_N 0) e) with (Finite 0 0) in Hf.
    injection Hf as <-. cbn [number_to_string String.append].
    change (parse_number (String "0" rest))
      with (match parse_unsigned (String "0" rest) with
            | Some (digits, e, rest) => Some (canon false digits e, rest)
            | None => None
            end).
    unfold parse_unsigned. change (parse_int (String "0" rest)) with (Some (0%N, rest)).
    cbv beta iota. rewrite (parse_frac_end _ _ Hend), (parse_exp_end _ Hend).
    reflexivity.
  - change (canon (Z.pos p <? 0)%Z (Z.abs_N (Z.pos p)) e)
      with (canon false (Npos p) e) in Hf.
    cbn [number_to_string].
    destruct (parse_unsigned_digits_to_string p e rest Hend)
      as [(d & t & Hd & E) [Hp | [He Hp]]];
      rewrite E in *; rewrite (parse_number_digit d t Hd), Hp.
    + by rewrite Hf.
    + by rewrite (canon_zeros false p e He), Hf.
  - change (canon (Z.neg p <? 0)%Z (Z.abs_N (Z.neg p)) e)
      with (canon true (Npos p) e) in Hf.
    cbn [number_to_string String.append].
    change (parse_number (String "-" ?r))
      with (match parse_unsigned r with
            | Some (digits, e, rest) => Some (canon true digits e, rest)
            | None => None
            end).
    destruct (parse_unsigned_digits_to_string p e rest Hend) as [_ [Hp | [He Hp]]];
      rewrite Hp.
    + by rewrite Hf.
    + by rewrite (canon_zeros true p e He), Hf.
Qed.

Lemma number_to_string_head x rest :
  carried x = true ->
  exists c r, number_to_string x +:+ rest = String c r /\
              In c ["-"; "0"; "1"; "2"; "3"; "4"; "5"; "6"; "7"; "8"; "9"]%char.
Proof.
  destruct x as [m e| | |a]; try discriminate. intros _. destruct m as [|p|p].
  - eexists _, _. split; [reflexivity | cbn; tauto].
  - cbn [number_to_string].
    destruct (parse_unsigned_digits_to_string p e "" eq_refl) as [(d & t & Hd & E) _].
    rewrite append_empty_r in E. rewrite E. eexists _, _. split; [reflexivity|].
    pose proof (digit_char_cases d Hd) as Hc. cbn [In] in Hc |- *. tauto.
  - eexists _, _. split; [reflexivity | cbn; tauto].
Qed.
(** ** JSON strings *)

Lemma parse_chars_plain c r :
  Ascii.eqb c dquote = false -> Ascii.eqb c backslash = false ->
  (N_of_ascii c <? 32)%N = false ->
  parse_chars (String c r) =
    match parse_chars r with
    | Some (t, rest) => Some (String c t, rest)
    | None => None
    end.
Proof. intros H1 H2 H3. cbn [parse_chars]. by rewrite H1, H2, H3. Qed.

Lemma parse_chars_simple e x r :
  Ascii.eqb e "u" = false -> simple_escape e = Some x ->
  parse_chars (String backslash (String e r)) =
    match parse_chars r with
    | Some (t, rest) => Some (String x t, rest)
    | None => None
    end.
Proof.
  intros H1 H2. cbn [parse_chars].
  change (Ascii.eqb backslash dquote) with false.
  change (Ascii.eqb backslash backslash) with true. cbv iota.
  by rewrite H1, H2.
Qed.

Lemma parse_chars_unicode h1 h2 h3 h4 n r :
  hex4 h1 h2 h3 h4 = Some n ->
  parse_chars (String backslash (String "u" (String h1 (String h2 (String h3 (String h4 r))))))
  = match parse_chars r with
    | Some (t, rest) => Some (utf8 n +:+ t, rest)
    | None => None
    end.
Proof.
  intros H. cbn [parse_chars].
  change (Ascii.eqb backslash dquote) with false.
  change (Ascii.eqb backslash backslash) with true.
  change (Ascii.eqb "u" "u") with true. cbv iota.
  rewrite H. by destruct (parse_chars r) as [[t rest]|].
Qed.

Lemma hex4_control n :
  (n < 32)%N -> hex4 "0" "0" (hex_char (n / 16)) (hex_char (n mod 16)) = Some n.
Proof.
  intros H.
  assert (Hn : exists k, n = N.of_nat k /\ k < 32).
  { exists (N.to_nat n). split; lia. }
  destruct Hn as (k & -> & Hk).
  do 32 (destruct k as [|k]; [vm_compute; reflexivity|]). lia.
Qed.

Lemma parse_chars_escape_char c t s rest :
  parse_chars t = Some (s, rest) ->
  parse_chars (escape_char c +:+ t) = Some (String c s, rest).
Proof.
  intros Ht. unfold escape_char. cbv zeta.
  destruct (Ascii.eqb c dquote) eqn:Eq.
  { apply Ascii.eqb_eq in Eq. subst c. cbn [String.append].
    rewrite (parse_chars_simple dquote dquote) by reflexivity. by rewrite Ht. }
  destruct (Ascii.eqb c backslash) eqn:Eb.
  { apply Ascii.eqb_eq in Eb. subst c. cbn [String.append].
    rewrite (parse_chars_simple backslash backslash) by reflexivity. by rewrite Ht. }
  assert (Hc : c = ascii_of_N (N_of_ascii c)) by (symmetry; apply ascii_N_embedding).
  destruct (N.eqb_spec (N_of_ascii c) 8) as [E|_].
  { rewrite E in Hc. cbn [String.append].
    rewrite (parse_chars_simple "b" c) by (subst c; reflexivity). by rewrite Ht. }
  destruct (N.eqb_spec (N_of_ascii c) 9) as [E|_].
  { rewrite E in Hc. cbn [String.append].
    rewrite (parse_chars_simple "t" c) by (subst c; reflexivity). by rewrite Ht. }
  destruct (N.eqb_spec (N_of_ascii c) 10) as [E|_].
  { rewrite E in Hc. cbn [String.append].
    rewrite (parse_chars_simple "n" c) by (subst c; reflexivity). by rewrite Ht. }
  destruct (N.eqb_spec (N_of_ascii c) 12) as [E|_].
  { rewrite E in Hc. cbn [String.append].
    rewrite (parse_chars_simple "f" c) by (subst c; reflexivity). by rewrite Ht. }
  destruct (N.eqb_spec (N_of_ascii c) 13) as [E|_].
  { rewrite E in Hc. cbn [String.append].
    rewrite (parse_chars_simple "r" c) by (subst c; reflexivity). by rewrite Ht. }
  destruct (N.ltb_spec (N_of_ascii c) 32) as [Hlt|Hge].
  - cbn [String.append].
    rewrite (parse_chars_unicode _ _ _ _ (N_of_ascii c)) by (by apply hex4_control).
    rewrite Ht. unfold utf8.
    destruct (N.ltb_spec (N_of_ascii c) 128) as [_|?]; [|lia].
    cbn [String.append]. by rewrite <- Hc.
  - cbn [String.append]. rewrite parse_chars_plain; auto.
    + by rewrite Ht.
    + apply N.ltb_ge. exact Hge.
Qed.

Lemma parse_chars_escape s rest :
  parse_chars (escape s +:+ String dquote rest) = Some (s, rest).
Proof.
  induction s as [|c s IH]; cbn [escape String.append].
  - cbn [parse_chars]. by change (Ascii.eqb dquote dquote) with true.
  - rewrite append_assoc. by apply parse_chars_escape_char.
Qed.

Lemma parse_chars_quote s rest :
  exists body, quote s +:+ rest = String dquote body /\
               parse_chars body = Some (s, rest).
Proof.
  unfold quote. cbn [String.append]. eexists. split; [reflexivity|].
  rewrite append_assoc. cbn [String.append]. apply parse_chars_escape.
Qed.
(** ** JSON values *)

Lemma json_text_head v :
  jsonable v = true -> exists c r, json_text v = String c r /\ value_start c.
Proof.
  unfold json_text, value_start. destruct v as [ | |[]|x|s| | |xs|ps]; cbn [jsonable stringify];
    try discriminate; intros Hjs;
    try (eexists _, _; split; [reflexivity | cbn; tauto]).
  destruct x as [m e| | |a]; try discriminate. cbn [isFinite].
  destruct (number_to_string_head (Finite m e) "" Hjs) as (c & r & E & Hc).
  rewrite append_empty_r in E. rewrite E. eexists _, _; split; [reflexivity|].
  cbn [In] in Hc |- *. tauto.
Qed.

Lemma skip_ws_value_start c r : value_start c -> skip_ws (String c r) = String c r.
Proof.
  unfold value_start. cbn [In]. intros H.
  repeat (destruct H as [<- | H]; [reflexivity|]). destruct H.
Qed.

Lemma skip_ws_json_text v rest :
  jsonable v = true -> skip_ws (json_text v +:+ rest) = json_text v +:+ rest.
Proof.
  intros H. destruct (json_text_head v H) as (c & r & -> & Hc).
  cbn [String.append]. by apply skip_ws_value_start.
Qed.

Lemma number_end_separator r :
  number_end (String "," r) = true /\ number_end (String "]" r) = true /\
  number_end (String "}" r) = true.
Proof. repeat split; reflexivity. Qed.

(** Objects: a new key goes to the end of the table. *)
Lemma set_prop_fresh k v acc :
  existsb (String.eqb k) (keys acc) = false -> set_prop k v acc = acc ++ [(k, v)].
Proof.
  induction acc as [|[k' v'] acc IH]; cbn; [reflexivity|].
  intros H. apply orb_false_elim in H. destruct H as [H1 H2].
  rewrite H1. by rewrite IH.
Qed.

Lemma distinct_app_cons ks k ks' :
  distinct (ks ++ k :: ks') = true ->
  existsb (String.eqb k) ks = false /\ distinct ((ks ++ [k]) ++ ks') = true.
Proof.
  intros H. rewrite <- app_assoc. cbn [app]. split; [|exact H].
  induction ks as [|k0 ks IH]; cbn in *; [reflexivity|].
  apply andb_prop in H. destruct H as [H1 H2].
  rewrite (IH H2), orb_false_r.
  apply negb_true_iff in H1. rewrite existsb_app in H1.
  apply orb_false_elim in H1. destruct H1 as [_ H1]. cbn in H1.
  apply orb_false_elim in H1. destruct H1 as [H1 _].
  by rewrite String.eqb_sym.
Qed.

Lemma list_sum_cons a l : list_sum (a :: l) = a + list_sum l.
Proof. reflexivity. Qed.

Lemma parse_elements_texts xs :
  xs <> [] -> Forall decodes xs -> forallb jsonable xs = true ->
  forall fuel rest,
    list_sum (map (fun x => S (json_size x)) xs) <= fuel ->
    parse_elements fuel (join "," (element_texts xs) +:+ String "]" rest) = Some (xs, rest).
Proof.
  induction xs as [|x xs IH]; [congruence|].
  intros _ Hdec Hjs fuel rest Hfuel.
  inversion Hdec as [|? ? Hx Hxs]; subst.
  cbn [forallb] in Hjs. apply andb_prop in Hjs. destruct Hjs as [Hjx Hjxs].
  cbn [map] in Hfuel. rewrite list_sum_cons in Hfuel.
  destruct fuel as [|fuel]; [lia|]. cbn [parse_elements].
  destruct xs as [|y ys].
  - cbn [element_texts map join].
    rewrite (Hx fuel (String "]" rest)) by (try reflexivity; lia).
    reflexivity.
  - change (join "," (element_texts (x :: y :: ys)))
      with (json_text x +:+ "," +:+ join "," (element_texts (y :: ys))).
    rewrite !append_assoc. cbn [String.append].
    rewrite (Hx fuel) by (try reflexivity; lia).
    cbn [skip_ws]. change (is_ws ",") with false. cbv iota.
    change (Ascii.eqb "," ",") with true. cbv iota.
    rewrite (IH ltac:(discriminate) Hxs Hjxs fuel rest) by lia.
    reflexivity.
Qed.

Lemma parse_members_texts ps :
  ps <> [] -> Forall (fun kv => decodes (snd kv)) ps ->
  forallb (fun kv => jsonable (snd kv)) ps = true ->
  forall fuel rest acc,
    distinct (keys acc ++ keys ps) = true ->
    list_sum (map (fun kv => S (json_size (snd kv))) ps) <= fuel ->
    parse_members fuel (join "," (member_texts ps) +:+ String "}" rest) acc
    = Some (acc ++ ps, rest).
Proof.
  induction ps as [|[k v] ps IH]; [congruence|].
  intros _ Hdec Hjs fuel rest acc Hdist Hfuel.
  inversion Hdec as [|? ? Hv Hps]; subst. cbn [snd] in Hv.
  cbn [forallb snd] in Hjs. apply andb_prop in Hjs. destruct Hjs as [Hjv Hjps].
  cbn [map snd] in Hfuel. rewrite list_sum_cons in Hfuel.
  cbn [keys map fst] in Hdist. fold (keys ps) in Hdist.
  destruct (distinct_app_cons _ _ _ Hdist) as [Hfresh Hdist'].
  destruct fuel as [|fuel]; [lia|].
  assert (Hmember : forall c3 r4, c3 = ","%char \/ c3 = "}"%char ->
    parse_members (S fuel)
      ((quote k +:+ ":" +:+ json_text v) +:+ String c3 r4) acc =
    if Ascii.eqb c3 "," then parse_members fuel r4 (acc ++ [(k, v)])
    else Some (acc ++ [(k, v)], r4)).
  { intros c3 r4 Hc3. rewrite !append_assoc.
    destruct (parse_chars_quote k (":" +:+ json_text v +:+ String c3 r4))
      as (body & Eq & Hbody).
    rewrite Eq. cbn [parse_members skip_ws].
    change (is_ws dquote) with false. cbv iota.
    change (Ascii.eqb dquote dquote) with true. cbv iota.
    rewrite Hbody. cbn [String.append skip_ws].
    change (is_ws ":") with false. cbv iota.
    rewrite (Hv fuel (String c3 r4)) by (try lia; destruct Hc3 as [-> | ->]; reflexivity).
    rewrite (set_prop_fresh k v acc Hfresh).
    destruct Hc3 as [-> | ->]; reflexivity. }
  destruct ps as [|[k' v'] ps'].
  - cbn [member_texts map join fst snd]. rewrite Hmember by tauto.
    reflexivity.
  - change (join "," (member_texts ((k, v) :: (k', v') :: ps')))
      with ((quote k +:+ ":" +:+ json_text v) +:+ "," +:+
            join "," (member_texts ((k', v') :: ps'))).
    rewrite (append_assoc (quote k +:+ ":" +:+ json_text v)). cbn [String.append].
    rewrite Hmember by tauto. change (Ascii.eqb "," ",") with true. cbv iota.
    rewrite (IH ltac:(discriminate) Hps Hjps fuel rest (acc ++ [(k, v)])).
    + by rewrite <- app_assoc.
    + unfold keys in *. rewrite map_app. exact Hdist'.
    + lia.
Qed.


Lemma stringify_jsonable v : jsonable v = true -> stringify v = Some (json_text v).
Proof.
  unfold json_text. destruct v as [ | |[]| | | | | | ]; cbn [jsonable stringify];
    try discriminate; reflexivity.
Qed.

Lemma member_texts_flat_map ps :
  forallb (fun kv => jsonable (snd kv)) ps = true ->
  flat_map (fun kv => match stringify (snd kv) with
                      | Some t => [quote (fst kv) +:+ ":" +:+ t]
                      | None => []
                      end) ps = member_texts ps.
Proof.
  induction ps as [|[k v] ps IH]; cbn [forallb flat_map member_texts map fst snd];
    [reflexivity|].
  intros H. apply andb_prop in H. destruct H as [Hv Hps].
  rewrite (stringify_jsonable v Hv). cbn [app]. f_equal. by apply IH.
Qed.

Lemma parse_value_number f c r :
  In c ["-"; "0"; "1"; "2"; "3"; "4"; "5"; "6"; "7"; "8"; "9"]%char ->
  parse_value (S f) (String c r) =
    match parse_number (String c r) with
    | Some (z, rest) => Some (JNum z, rest)
    | None => None
    end.
Proof.
  cbn [In]. intros H. repeat (destruct H as [<- | H]; [reflexivity|]). destruct H.
Qed.

Lemma parse_value_array f c r :
  value_start c ->
  parse_value (S f) (String "[" (String c r)) =
    match parse_elements f (String c r) with
    | Some (vs, rest) => Some (JArr vs, rest)
    | None => None
    end.
Proof.
  unfold value_start. cbn [In]. intros H.
  repeat (destruct H as [<- | H]; [reflexivity|]). destruct H.
Qed.

Lemma parse_value_object f r :
  parse_value (S f) (String "{" (String dquote r)) =
    match parse_members f (String dquote r) [] with
    | Some (ps, rest) => Some (JObj ps, rest)
    | None => None
    end.
Proof. reflexivity. Qed.

Lemma jsonable_decodes v : jsonable v = true -> decodes v.
Proof.
  induction v as [ | |b|n|s| | |xs IH|ps IH] using JsValue_deep_ind;
    cbn [jsonable]; try discriminate; intros Hjs fuel rest Hfuel Hend;
    (destruct fuel as [|fuel]; [cbn [json_size] in Hfuel; lia|]).
  - reflexivity.
  - destruct b; reflexivity.
  - unfold json_text. cbn [stringify].
    destruct n as [m e| | |a]; try discriminate. cbn [isFinite].
    destruct (number_to_string_head (Finite m e) rest Hjs) as (c & r & E & Hc).
    pose proof (parse_number_to_string (Finite m e) rest Hjs Hend) as Hp.
    rewrite E in Hp |- *.
    rewrite (parse_value_number fuel c r Hc). by rewrite Hp.
  - unfold json_text. cbn [stringify].
    destruct (parse_chars_quote s rest) as (body & E & Hbody). rewrite E.
    change (parse_value (S fuel) (String dquote body))
      with (match parse_chars body with
            | Some (t, rest) => Some (JStr t, rest)
            | None => None
            end).
    by rewrite Hbody.
  - change (json_text (JArr xs))
      with ("[" +:+ join "," (element_texts xs) +:+ "]").
    destruct xs as [|x xs']; [reflexivity|].
    assert (Hdec : Forall decodes (x :: xs')).
    { clear Hfuel. revert Hjs IH. generalize (x :: xs'). intros l Hjs IH.
      induction l as [|y l IHl]; constructor; cbn [forallb] in Hjs;
        apply andb_prop in Hjs; destruct Hjs as [Hy Hl]; inversion IH; subst; auto. }
    cbn [String.append]. rewrite append_assoc. cbn [String.append].
    assert (Hj : jsonable x = true).
    { cbn [forallb] in Hjs. apply andb_prop in Hjs. tauto. }
    destruct (json_text_head x Hj) as (c & r & Ex & Hc).
    assert (Ehead : exists r', join "," (element_texts (x :: xs')) +:+ String "]" rest
                               = String c r').
    { cbn [element_texts map]. destruct (map json_text xs') as [|y ys]; cbn [join];
        rewrite Ex; cbn [String.append]; eauto. }
    destruct Ehead as [r' Ehead].
    pose proof (parse_elements_texts (x :: xs') ltac:(discriminate) Hdec Hjs fuel rest)
      as Hp.
    rewrite Ehead in Hp |- *. rewrite (parse_value_array fuel c r' Hc).
    rewrite Hp; [reflexivity|]. cbn [json_size] in Hfuel. lia.
  - apply andb_prop in Hjs. destruct Hjs as [Hdist Hjs].
    unfold json_text. cbn [stringify]. rewrite (member_texts_flat_map ps Hjs).
    destruct ps as [|[k v] ps']; [reflexivity|].
    assert (Hdec : Forall (fun kv => decodes (snd kv)) ((k, v) :: ps')).
    { clear Hfuel Hdist. revert Hjs IH. generalize ((k, v) :: ps'). intros l Hjs IH.
      induction l as [|y l IHl]; constructor; cbn [forallb] in Hjs;
        apply andb_prop in Hjs; destruct Hjs as [Hy Hl]; inversion IH; subst; auto. }
    cbn [String.append]. rewrite append_assoc. cbn [String.append].
    assert (Ehead : exists r', join "," (member_texts ((k, v) :: ps')) +:+ String "}" rest
                               = String dquote r').
    { cbn [member_texts map fst snd]. fold (member_texts ps').
      destruct (member_texts ps') as [|y ys]; cbn [join]; unfold quote;
        cbn [String.append]; eauto. }
    destruct Ehead as [r' Ehead].
    pose proof (parse_members_texts ((k, v) :: ps') ltac:(discriminate) Hdec Hjs fuel rest [])
      as Hp.
    rewrite Ehead in Hp |- *. rewrite (parse_value_object fuel r').
    rewrite Hp; [reflexivity | exact Hdist |]. cbn [json_size] in Hfuel. lia.
Qed.

(** ** The fuel [JSON.parse] gives the decoder *)

Lemma join_length parts :
  list_sum (map String.length parts) + length parts
  <= String.length (join "," parts) + 1.
Proof.
  induction parts as [|p parts IH]; [cbn; lia|].
  cbn [map length]. rewrite list_sum_cons.
  destruct parts as [|q parts'].
  - cbn. lia.
  - change (join "," (p :: q :: parts')) with (p +:+ "," +:+ join "," (q :: parts')).
    rewrite !length_append. cbn [String.length]. lia.
Qed.

Lemma json_size_le_length v :
  jsonable v = true -> json_size v <= String.length (json_text v).
Proof.
  induction v as [ | |b|n|s| | |xs IH|ps IH] using JsValue_deep_ind;
    intros Hjs; try discriminate;
    try (destruct (json_text_head _ Hjs) as (c & r & -> & _); cbn; lia).
  - change (json_text (JArr xs)) with ("[" +:+ join "," (element_texts xs) +:+ "]").
    rewrite !length_append. cbn [String.length json_size jsonable] in *.
    pose proof (join_length (element_texts xs)) as Hj.
    assert (Hsum : list_sum (map (fun x => S (json_size x)) xs)
                   <= list_sum (map String.length (element_texts xs)) + length xs).
    { clear Hj. induction xs as [|x xs IHxs]; [cbn; lia|].
      cbn [forallb] in Hjs. apply andb_prop in Hjs. destruct Hjs as [Hx Hxs].
      inversion IH as [|? ? Px Pxs]; subst.
      cbn [map element_texts length]. rewrite !list_sum_cons.
      specialize (IHxs Pxs Hxs). specialize (Px Hx). unfold element_texts in IHxs. lia. }
    unfold element_texts in *. rewrite length_map in Hj. lia.
  - cbn [jsonable] in Hjs. apply andb_prop in Hjs. destruct Hjs as [_ Hjs].
    unfold json_text. cbn [stringify]. rewrite (member_texts_flat_map ps Hjs).
    rewrite !length_append. cbn [String.length json_size].
    pose proof (join_length (member_texts ps)) as Hj.
    assert (Hsum : list_sum (map (fun kv => S (json_size (snd kv))) ps)
                   <= list_sum (map String.length (member_texts ps))).
    { clear Hj. induction ps as [|[k v] ps IHps]; [cbn; lia|].
      cbn [forallb snd] in Hjs. apply andb_prop in Hjs. destruct Hjs as [Hv Hps].
      inversion IH as [|? ? Pv Pps]; subst. cbn [snd] in Pv.
      cbn [map member_texts fst snd]. rewrite !list_sum_cons.
      specialize (IHps Pps Hps). specialize (Pv Hv). unfold member_texts in IHps.
      rewrite !length_append. cbn [String.length]. lia. }
    lia.
Qed.

(** Encoding then decoding a value JSON can carry gives the value back. *)
Lemma parse_stringify v :
  jsonable v = true ->
  exists text, stringify v = Some text /\ parse text = Some v.
Proof.
  intros Hjs. exists (json_text v). split; [by apply stringify_jsonable|].
  unfold parse.
  pose proof (jsonable_decodes v Hjs (S (String.length (json_text v))) "") as Hd.
  rewrite append_empty_r in Hd. rewrite Hd; [reflexivity | | reflexivity].
  pose proof (json_size_le_length v Hjs). lia.
Qed.

(** The texts of some numbers, as Number::toString gives them. *)
Example number_texts :
  map number_to_string
      [Finite 15 (-1); Finite 1 21; Finite 12345678901234568 4; Finite 1 (-6);
       Finite 1 (-7); Finite (-25) (-2); Finite 5 (-324); Finite 17976931348623157 292;
       Finite 123 18; Finite 30000000000000004 (-17); NegativeZero; number_of_Z 1200]
  = ["1.5"; "1e+21"; "123456789012345680000"; "0.000001";
     "1e-7"; "-0.25"; "5e-324"; "1.7976931348623157e+308";
     "123000000000000000000"; "0.30000000000000004"; "0"; "1200"].
Proof. vm_compute. reflexivity. Qed.

(** The numbers some texts denote: the nearest binary64, by its shortest
    decimal. *)
Example numbers_of_texts :
  JSON.parse "[1.5, 1E21, 0.1000000000000000055, 9007199254740993, -0, 1e400, 2.5e-3, 100, 1e-400]"
  = Some (JArr [JNum (Finite 15 (-1)); JNum (Finite 1 21); JNum (Finite 1 (-1));
                JNum (Finite 9007199254740992 0); JNum NegativeZero;
                JNum (Infinity false); JNum (Finite 25 (-4)); JNum 100; JNum 0]).
Proof. vm_compute. reflexivity. Qed.

Example malformed_numbers :
  map JSON.parse ["01"; "1."; ".5"; "1e"; "+1"; "1.e3"; "-"] =
  [None; None; None; None; None; None; None].
Proof. vm_compute. reflexivity. Qed.

(** Numbers with a fraction or an exponent are carried as well as the
    integers. *)
Example fractions_round_trip :
  jsonable (JArr [JNum (Finite 15 (-1)); JNum (Finite 1 21); JNum (Finite (-1) (-7))]) = true /\
  JSON.stringify (JArr [JNum (Finite 15 (-1)); JNum (Finite 1 21); JNum (Finite (-1) (-7))])
    = Some "[1.5,1e+21,-1e-7]" /\
  JSON.parse "[1.5,1e+21,-1e-7]"
    = Some (JArr [JNum (Finite 15 (-1)); JNum (Finite 1 21); JNum (Finite (-1) (-7))]).
Proof. vm_compute. repeat split; reflexivity. Qed.

(** What JSON does not carry: [NaN] and the infinities are written [null],
    negative zero is written [0], and a Buffer is written as the record its
    [toJSON] gives. *)
Example numbers_not_carried :
  JSON.stringify (JArr [JNum NaN; JNum (Infinity true); JNum NegativeZero]) = Some "[null,null,0]" /\
  JSON.parse "[null,null,0]" = Some (JArr [JNull; JNull; JNum 0]) /\
  JSON.deep_equal (JArr [JNull; JNull; JNum 0])
                  (JArr [JNum NaN; JNum (Infinity true); JNum NegativeZero]) = false /\
  JSON.deep_equal (JNum 0) (JNum NegativeZero) = false.
Proof. vm_compute. repeat split; reflexivity. Qed.

Example buffer_not_carried :
  exists text,
    JSON.stringify (JObj [("b", JHost (HBuffer "ab"))]) = Some text /\
    JSON.parse text =
      Some (JObj [("b", JObj [("type", JStr "Buffer"); ("data", JArr [JNum 97; JNum 98])])]).
Proof. eexists. split; [reflexivity|]. vm_compute. reflexivity. Qed.

(** C7 *)

Lemma lookup_prop_distinct k v ps :
  distinct (keys ps) = true -> In (k, v) ps -> lookup_prop k ps = Some v.
Proof.
  induction ps as [|[k' v'] ps IH]; cbn [keys map fst distinct In lookup_prop];
    [tauto|].
  intros Hd Hin. apply andb_prop in Hd. destruct Hd as [Hfresh Hd].
  destruct Hin as [Heq | Hin].
  - inversion Heq; subst. by rewrite String.eqb_refl.
  - destruct (String.eqb k k') eqn:E; [|by apply IH].
    apply String.eqb_eq in E. subst k'. apply negb_true_iff in Hfresh.
    assert (Hex : existsb (String.eqb k) (keys ps) = true).
    { apply existsb_exists. exists k. split; [|apply String.eqb_refl].
      unfold keys. change k with (fst (k, v)). by apply in_map. }
    fold (keys ps) in Hfresh. congruence.
Qed.

(** A value JSON can carry is deeply equal to itself. *)
Lemma deep_equal_refl v : jsonable v = true -> JSON.deep_equal v v = true.
Proof.
  induction v as [ | |b|n|s| | |xs IH|ps IH] using JsValue_deep_ind;
    cbn [jsonable JSON.deep_equal]; try discriminate; intros Hjs.
  - reflexivity.
  - by destruct b.
  - apply number_eqb_refl.
  - apply String.eqb_refl.
  - induction xs as [|x xs IHxs]; [reflexivity|].
    cbn [forallb] in Hjs. apply andb_prop in Hjs. destruct Hjs as [Hx Hxs].
    inversion IH; subst. apply andb_true_intro. split; auto.
  - apply andb_prop in Hjs. destruct Hjs as [Hd Hjs].
    rewrite Nat.eqb_refl. cbn [andb].
    apply forallb_forall. intros [k v] Hin. cbn [fst snd].
    rewrite (lookup_prop_distinct k v ps Hd Hin).
    rewrite List.Forall_forall in IH. apply (IH (k, v) Hin).
    rewrite forallb_forall in Hjs. apply (Hjs (k, v) Hin).
Qed.

Lemma run_assign_in {st ref} k1 k2 v {ps hp} :
  heap st !! ref = Some (JObj ps) ->
  lookup_prop k1 ps = Some (JObj hp) ->
  assign_in ref k1 k2 v st =
    (Ok tt, {| this := this st;
               heap := <[ref := JObj (set_prop k1 (JObj (set_prop k2 v hp)) ps)]> (heap st) |}).
Proof.
  intros E Hh. unfold assign_in.
  rewrite (bind_run _ (run_read E)).
  unfold member at 1. cbn [prop_of]. rewrite Hh.
  rewrite (bind_run _ (eq_refl : lift (Ok (JObj hp)) st = (Ok _, st))).
  cbn [set_member].
  rewrite (bind_run _ (eq_refl : lift (Ok (JObj (set_prop k2 v hp))) st = (Ok _, st))).
  by rewrite (run_assign k1 _ E).
Qed.

(** [_prepareBody] on a structured record when the headers carry no
    content type. *)
Lemma prepareBody_json_run
  (queryString_stringify : JsValue -> JsValue -> string)
  (o : loc) (st : State) (data : JsValue) (ps hp : Props) :
  heap st !! o = Some (JObj ps) ->
  lookup_prop "headers" ps = Some (JObj hp) ->
  prop_of (JObj hp) "Content-Type" = JUndefined ->
  structured_record data = true ->
  _prepareBody queryString_stringify o data st =
    (Ok o,
     {| this := this st;
        heap := <[o := JObj (set_prop "body" (JSON.stringify_value data)
                               (set_prop "headers"
                                  (JObj (set_prop "Content-Type" (JStr "application/json") hp))
                                  ps))]> (heap st) |}).
Proof.
  intros E Hh Hct Hrec. unfold _prepareBody.
  assert (Hbranch :
    (headers ← read_member o "headers";
     ct ← lift (member headers "Content-Type");
     match ct with
     | JUndefined =>
         _ ← assign_in o "headers" "Content-Type" (JStr "application/json");
         assign o "body" (JSON.stringify_value data)
     | _ =>
         if is_str ct "application/json"
         then assign o "body" (JSON.stringify_value data)
         else if is_str ct "application/x-www-form-urlencoded"
         then t ← get_this;
              extracted ← _extractOptions o QUERY_OPTIONS;
              q ← read (queryOptions t);
              assign o "body" (JStr (queryString_stringify data (merge q extracted)))
         else if testJsonContentType ct
         then assign o "body" (JSON.stringify_value data)
         else throw (Error ("Invalid Content-Type " +:+ to_string ct))
     end) st =
    (Ok tt,
     {| this := this st;
        heap := <[o := JObj (set_prop "body" (JSON.stringify_value data)
                               (set_prop "headers"
                                  (JObj (set_prop "Content-Type" (JStr "application/json") hp))
                                  ps))]> (heap st) |})).
  { rewrite (bind_run _ (run_read_member "headers" E)).
    cbn [prop_of]. rewrite Hh. unfold member at 1. rewrite Hct.
    rewrite (bind_run _ (eq_refl : lift (Ok JUndefined) st = (Ok _, st))).
    rewrite (bind_run _ (run_assign_in "headers" "Content-Type" _ E Hh)).
    rewrite (run_assign
               (st := {| this := this st;
                         heap := <[o := JObj (set_prop "headers"
                                    (JObj (set_prop "Content-Type"
                                             (JStr "application/json") hp)) ps)]>
                                   (heap st) |})
               "body" _ (lookup_written _ E)).
    cbn [this heap]. by rewrite insert_twice. }
  destruct data; try discriminate; cbn [instanceof_Object];
    by rewrite (bind_run _ Hbranch).
Qed.

(** C7, as the claim states it, fails: the record
    [{ name: 'n', age: undefined, greet: () => 'hello' }] is encoded without
    its [age] and [greet] members, and the decoded body has one key where
    the record has three. *)
Lemma C7_members_lost :
  structured_record record_with_gaps = true /\
  fst (_prepareBody (fun _ _ => "") 0 record_with_gaps bare_options_state) = Ok 0 /\
  prop_of (cell (heap (snd (_prepareBody (fun _ _ => "") 0 record_with_gaps
                              bare_options_state))) 0) "body"
    = JStr ("{" +:+ JSON.quote "name" +:+ ":" +:+ JSON.quote "n" +:+ "}") /\
  JSON.parse ("{" +:+ JSON.quote "name" +:+ ":" +:+ JSON.quote "n" +:+ "}")
    = Some (JObj [("name", JStr "n")]) /\
  JSON.deep_equal (JObj [("name", JStr "n")]) record_with_gaps = false /\
  JObj [("name", JStr "n")] <> record_with_gaps.
Proof. repeat split; try reflexivity. discriminate. Qed.

(** C7, amended.  For a structured record made of [null], booleans,
    finite numbers other than negative zero, strings, arrays and records
    only (no [undefined], no function and no host object at any depth),
    handed to [_prepareBody] with no content type in the effective headers:
    the content type becomes [application/json], the body is the JSON text
    of the record, and decoding the body gives the record back. *)
Theorem C7_json_body_round_trip
  (queryString_stringify : JsValue -> JsValue -> string)
  (o : loc) (st : State) (data : JsValue) (ps hp : Props) :
  heap st !! o = Some (JObj ps) ->
  lookup_prop "headers" ps = Some (JObj hp) ->
  prop_of (JObj hp) "Content-Type" = JUndefined ->
  structured_record data = true ->
  jsonable data = true ->
  let after := snd (_prepareBody queryString_stringify o data st) in
  exists text,
    fst (_prepareBody queryString_stringify o data st) = Ok o /\
    prop_of (prop_of (cell (heap after) o) "headers") "Content-Type"
      = JStr "application/json" /\
    prop_of (cell (heap after) o) "body" = JStr text /\
    JSON.stringify data = Some text /\
    exists decoded,
      JSON.parse text = Some decoded /\
      decoded = data /\
      JSON.deep_equal decoded data = true.
Proof.
  intros E Hh Hct Hrec Hjs after.
  destruct (parse_stringify data Hjs) as (text & Hs & Hp).
  exists text. subst after.
  rewrite (prepareBody_json_run queryString_stringify o st data ps hp E Hh Hct Hrec).
  cbn [fst snd heap]. rewrite (cell_lookup (lookup_written _ E)).
  split; [reflexivity|].
  set (headers' := JObj (set_prop "Content-Type" (JStr "application/json") hp)).
  assert (Hheaders :
    lookup_prop "headers"
      (set_prop "body" (JSON.stringify_value data) (set_prop "headers" headers' ps))
    = Some headers').
  { rewrite lookup_set_prop. change (String.eqb "headers" "body") with false.
    by rewrite lookup_set_prop, String.eqb_refl. }
  split.
  - cbn [prop_of]. rewrite Hheaders. subst headers'. cbn [prop_of].
    by rewrite lookup_set_prop, String.eqb_refl.
  - split.
    + cbn [prop_of]. rewrite lookup_set_prop, String.eqb_refl.
      unfold JSON.stringify_value. by rewrite Hs.
    + split; [exact Hs|]. exists data. repeat split; auto. by apply deep_equal_refl.
Qed.

Lemma C7_json_body_round_trip_witness :
  heap bare_options_state !! 0 = Some (JObj [("headers", JObj [])]) /\
  structured_record (JObj [("a", JNum 1)]) = true /\
  jsonable (JObj [("a", JNum 1)]) = true /\
  exists text,
    fst (_prepareBody (fun _ _ => "") 0 (JObj [("a", JNum 1)]) bare_options_state) = Ok 0 /\
    prop_of (prop_of (cell (heap (snd (_prepareBody (fun _ _ => "") 0
                                         (JObj [("a", JNum 1)]) bare_options_state))) 0)
               "headers") "Content-Type" = JStr "application/json" /\
    prop_of (cell (heap (snd (_prepareBody (fun _ _ => "") 0 (JObj [("a", JNum 1)])
                                bare_options_state))) 0) "body" = JStr text /\
    JSON.stringify (JObj [("a", JNum 1)]) = Some text /\
    exists decoded,
      JSON.parse text = Some decoded /\
      decoded = JObj [("a", JNum 1)] /\
      JSON.deep_equal decoded (JObj [("a", JNum 1)]) = true.
Proof.
  split; [reflexivity|]. split; [reflexivity|]. split; [reflexivity|].
  apply (C7_json_body_round_trip (fun _ _ => "") 0 bare_options_state
           (JObj [("a", JNum 1)]) [("headers", JObj [])] []); reflexivity.
Defined.

(** The body of the scenario: [{ a: 1 }] is sent as the seven characters
    of its JSON text. *)
Example json_text_of_scenario :
  JSON.stringify (JObj [("a", JNum 1)]) =
    Some ("{" +:+ JSON.quote "a" +:+ ":1}").
Proof. reflexivity. Qed.

(** ** [_extractOptions] *)

Lemma run_extract_each st o keylist ps acc :
  heap st !! o = Some (JObj ps) ->
  extract_each o keylist acc st =
    (Ok (fst (extraction keylist ps acc)),
     {| this := this st;
        heap := <[o := JObj (snd (extraction keylist ps acc))]> (heap st) |}).
Proof.
  revert st ps acc. induction keylist as [|key rest IH]; intros st ps acc E.
  - cbn [extract_each extraction fst snd].
    replace (<[o := JObj ps]> (heap st)) with (heap st)
      by (symmetry; by apply list_insert_id).
    by destruct st.
  - cbn [extract_each extraction].
    rewrite (bind_run _ (run_read E)). cbn [has_key].
    destruct (has_prop key ps).
    + rewrite (bind_run _ (run_delete_member key E)).
      rewrite (IH {| this := this st;
                     heap := <[o := JObj (delete_prop key ps)]> (heap st) |}
                  (delete_prop key ps) _ (lookup_written _ E)).
      cbn [this heap]. by rewrite insert_twice.
    + by apply IH.
Qed.

Lemma run_extractOptions st o keylist ps :
  heap st !! o = Some (JObj ps) ->
  _extractOptions o keylist st =
    (Ok (JObj (fst (extraction keylist ps []))),
     {| this := this st;
        heap := <[o := JObj (snd (extraction keylist ps []))]> (heap st) |}).
Proof.
  intros E. unfold _extractOptions.
  rewrite (bind_run _ (run_read E)). cbn [instanceof_Object].
  by rewrite (bind_run _ (run_extract_each st o keylist ps [] E)).
Qed.

Lemma listed_In key keylist : listed key keylist = true <-> In key keylist.
Proof.
  unfold listed. rewrite existsb_exists. split.
  - intros (k & Hin & E). apply String.eqb_eq in E. by subst.
  - intros H. exists key. split; [exact H | apply String.eqb_refl].
Qed.

Lemma lookup_extraction_kept k keylist ps acc :
  lookup_prop k (snd (extraction keylist ps acc)) =
    if listed k keylist then None else lookup_prop k ps.
Proof.
  revert ps acc. induction keylist as [|key rest IH]; intros ps acc; [reflexivity|].
  cbn [extraction listed existsb]. fold (listed k rest).
  destruct (has_prop key ps) eqn:Hhas.
  - rewrite IH. destruct (String.eqb k key) eqn:E; cbn [orb].
    + apply String.eqb_eq in E. subst key.
      destruct (listed k rest); [reflexivity | apply lookup_delete_prop_eq].
    + destruct (listed k rest); [reflexivity|].
      apply lookup_delete_prop_ne. by apply String.eqb_neq.
  - rewrite IH. destruct (String.eqb k key) eqn:E; cbn [orb]; [|reflexivity].
    apply String.eqb_eq in E. subst key.
    unfold has_prop in Hhas. destruct (lookup_prop k ps); [discriminate|].
    by destruct (listed k rest).
Qed.

Lemma lookup_extraction_moved k keylist ps acc :
  lookup_prop k (fst (extraction keylist ps acc)) =
    if listed k keylist
    then match lookup_prop k ps with
         | Some v => Some v
         | None => lookup_prop k acc
         end
    else lookup_prop k acc.
Proof.
  revert ps acc. induction keylist as [|key rest IH]; intros ps acc; [reflexivity|].
  cbn [extraction listed existsb]. fold (listed k rest).
  destruct (has_prop key ps) eqn:Hhas.
  - rewrite IH. rewrite lookup_set_prop. cbn [prop_of].
    destruct (String.eqb k key) eqn:E; cbn [orb].
    + apply String.eqb_eq in E. subst key.
      rewrite lookup_delete_prop_eq.
      unfold has_prop in Hhas. destruct (lookup_prop k ps); [|discriminate].
      by destruct (listed k rest).
    + rewrite lookup_delete_prop_ne by (by apply String.eqb_neq). reflexivity.
  - rewrite IH. destruct (String.eqb k key) eqn:E; cbn [orb]; [|reflexivity].
    apply String.eqb_eq in E. subst key.
    unfold has_prop in Hhas. destruct (lookup_prop k ps); [discriminate|].
    by destruct (listed k rest).
Qed.

(** X1, [_extractOptions].  Given an object and a list of keys none of which
    names a member every object inherits, as is the case of the three lists
    the program uses, the call returns a new object holding exactly the
    listed keys the object had, with their values, and leaves in the object
    exactly its other members; nothing else in the store changes. *)
Theorem X1_extractOptions_partitions
  (st : State) (o : loc) (keylist : list string) (ps : Props) :
  heap st !! o = Some (JObj ps) ->
  forallb (fun key => negb (inherited key)) keylist = true ->
  exists extracted kept,
    _extractOptions o keylist st =
      (Ok (JObj extracted),
       {| this := this st; heap := <[o := JObj kept]> (heap st) |}) /\
    forall k,
      (In k keylist -> lookup_prop k extracted = lookup_prop k ps /\
                       lookup_prop k kept = None) /\
      (~ In k keylist -> lookup_prop k extracted = None /\
                         lookup_prop k kept = lookup_prop k ps).
Proof.
  intros E _. eexists _, _. split; [by apply run_extractOptions|].
  intros k. rewrite lookup_extraction_moved, lookup_extraction_kept.
  split; intros H.
  - apply listed_In in H. rewrite H. split; [|reflexivity].
    by destruct (lookup_prop k ps).
  - destruct (listed k keylist) eqn:El; [|by split].
    apply listed_In in El. contradiction.
Qed.

Lemma X1_extractOptions_partitions_witness :
  exists extracted kept,
    _extractOptions 0 QUERY_OPTIONS
      {| this := blank;
         heap := [JObj [("sort", JBool false); ("method", JStr "GET")]] |} =
      (Ok (JObj extracted),
       {| this := blank; heap := <[0 := JObj kept]>
                    [JObj [("sort", JBool false); ("method", JStr "GET")]] |}) /\
    forall k,
      (In k QUERY_OPTIONS ->
       lookup_prop k extracted =
         lookup_prop k [("sort", JBool false); ("method", JStr "GET")] /\
       lookup_prop k kept = None) /\
      (~ In k QUERY_OPTIONS ->
       lookup_prop k extracted = None /\
       lookup_prop k kept = lookup_prop k [("sort", JBool false); ("method", JStr "GET")]).
Proof.
  apply (X1_extractOptions_partitions
           {| this := blank;
              heap := [JObj [("sort", JBool false); ("method", JStr "GET")]] |}
           0 QUERY_OPTIONS [("sort", JBool false); ("method", JStr "GET")]);
    reflexivity.
Defined.

(** ** The constructors *)

Lemma run_ensureObjMember {st o} key defval {ps} :
  heap st !! o = Some (JObj ps) ->
  ensureObjMember o key defval st =
    (Ok tt, {| this := this st; heap := <[o := JObj (ensured key defval ps)]> (heap st) |}).
Proof.
  intros E. unfold ensureObjMember, ensured.
  rewrite (bind_run _ (run_read_member key E)).
  destruct (instanceof_Object (prop_of (JObj ps) key)); cbn [negb].
  - replace (<[o := JObj ps]> (heap st)) with (heap st)
      by (symmetry; by apply list_insert_id).
    by destruct st.
  - by apply run_assign.
Qed.

Lemma prepareAuth_object g a :
  instanceof_Object a = true -> prepareAuth g a = Ok (auth_value g a).
Proof.
  intros H. unfold auth_value. destruct a; try discriminate H; unfold prepareAuth;
    repeat match goal with |- context [if ?b then _ else _] => destruct b end;
    reflexivity.
Qed.

Lemma run_setProxy proxy st :
  setProxy proxy st =
    (Ok tt, {| this := with_agent (proxy_agent proxy (agent (this st))) (this st);
               heap := heap st |}).
Proof.
  assert (E : (Ok tt, st) =
              (Ok tt, {| this := with_agent (agent (this st)) (this st);
                         heap := heap st |})).
  { by destruct st as [[] ?]. }
  unfold setProxy, proxy_agent.
  rewrite (bind_run _ (eq_refl : get_this st = (Ok (this st), st))).
  destruct proxy as [ | |[]| | | | | | ]; cbn [instanceof_Object typeof orb String.eqb];
    try reflexivity;
    destruct (truthy (agent (this st))); cbn [negb]; exact E.
Qed.

Lemma merge_into_empty options :
  instanceof_Array options = false ->
  exists mp, merge (JObj []) (getValidObj options (JObj [])) = JObj mp.
Proof.
  intros H. destruct options; try discriminate H; cbn; eauto.
Qed.

Lemma lookup_ensured k key defval ps :
  lookup_prop k (ensured key defval ps) =
    if String.eqb k key
    then Some (if instanceof_Object (prop_of (JObj ps) key)
               then prop_of (JObj ps) key else defval)
    else lookup_prop k ps.
Proof.
  unfold ensured. destruct (instanceof_Object (prop_of (JObj ps) key)) eqn:E.
  - destruct (String.eqb k key) eqn:Ek; [|reflexivity].
    apply String.eqb_eq in Ek. subst k. cbn [prop_of] in E |- *.
    destruct (lookup_prop key ps); [reflexivity | discriminate E].
  - by rewrite lookup_set_prop.
Qed.

Section Constructors.
Variable global_credentials : JsValue.

Lemma run_setAuth a st :
  instanceof_Object a = true ->
  setAuth global_credentials a st =
    (Ok tt, {| this := with_auth (auth_value global_credentials a) (this st);
               heap := heap st |}).
Proof. intros H. unfold setAuth. by rewrite (prepareAuth_object _ _ H). Qed.

Lemma FetchHelper_constructor_run options st mp :
  merge (JObj []) (getValidObj options (JObj [])) = JObj mp ->
  FetchHelper_constructor global_credentials options st =
    (Ok tt,
     {| this := constructed global_credentials options (length (heap st)) (this st);
        heap := heap st ++
                [JObj (snd (extraction FETCH_OPTIONS (initial_options options) []))] |}).
Proof.
  intros Hm. unfold FetchHelper_constructor, constructed, initial_options.
  rewrite Hm.
  rewrite (bind_run _ (eq_refl : alloc (JObj mp) st = (Ok (length (heap st)), _))).
  match goal with |- context [update_this ?f] =>
    rewrite (bind_run _ (eq_refl : update_this f _ = (Ok tt, _))) end.
  cbn [this heap].
  pose proof (lookup_last (heap st) (JObj mp)) as E0.
  rewrite (bind_run _ (run_ensureObjMember (st := {| this := _; heap := _ |})
                         "headers" (JObj []) E0)).
  cbn [this heap]. rewrite insert_last.
  pose proof (lookup_last (heap st) (JObj (ensured "headers" (JObj []) mp))) as E1.
  rewrite (bind_run _ (run_ensureObjMember (st := {| this := _; heap := _ |})
                         "auth" (JObj []) E1)).
  cbn [this heap]. rewrite insert_last.
  set (P := ensured "auth" (JObj []) (ensured "headers" (JObj []) mp)).
  pose proof (lookup_last (heap st) (JObj P)) as E2.
  rewrite (bind_run _ (run_extractOptions {| this := _; heap := _ |} _
                         FETCH_OPTIONS P E2)).
  cbn [this heap]. rewrite insert_last.
  set (X := fst (extraction FETCH_OPTIONS P [])).
  assert (Ha : instanceof_Object (prop_of (JObj X) "auth") = true).
  { cbn [prop_of]. unfold X. rewrite lookup_extraction_moved.
    change (listed "auth" FETCH_OPTIONS) with true. cbv iota.
    unfold P. rewrite lookup_ensured. cbn [String.eqb Ascii.eqb Bool.eqb].
    cbv iota.
    destruct (instanceof_Object (prop_of (JObj (ensured "headers" (JObj []) mp)) "auth"))
      eqn:E; [exact E | reflexivity]. }
  rewrite (bind_run _ (run_setAuth _ _ Ha)).
  rewrite (bind_run _ (eq_refl : setOnlySuccesful _ _ = (Ok tt, _))).
  rewrite (bind_run _ (eq_refl : setBaseUrl _ _ = (Ok tt, _))).
  rewrite (bind_run _ (eq_refl : setAgent _ _ = (Ok tt, _))).
  rewrite run_setProxy. reflexivity.
Qed.

End Constructors.

Lemma clone_truthy v : truthy (clone v) = truthy v.
Proof. by destruct v. Qed.

Lemma clone_getSpecifiedStr v d : getSpecifiedStr (clone v) d = getSpecifiedStr v d.
Proof. by destruct v. Qed.

Lemma clone_instanceof_Object v : instanceof_Object (clone v) = instanceof_Object v.
Proof. by destruct v. Qed.

Lemma listed_not_inherited k keylist :
  forallb (fun key => negb (inherited key)) keylist = true ->
  listed k keylist = true -> inherited k = false.
Proof.
  intros Hall Hk. apply listed_In in Hk. rewrite forallb_forall in Hall.
  apply negb_true_iff. by apply Hall.
Qed.

Lemma lookup_merge_into_empty k ps mp :
  List.NoDup (keys ps) ->
  merge (JObj []) (JObj ps) = JObj mp ->
  lookup_prop k mp = if inherited k then None else option_map clone (lookup_prop k ps).
Proof.
  intros Hnd Hm. pose proof (lookup_merge k [] ps (List.NoDup_nil _) Hnd) as H.
  rewrite Hm in H. rewrite H. cbn [has_prop lookup_prop negb andb].
  rewrite andb_true_r. by destruct (lookup_prop k ps); destruct (inherited k).
Qed.

Lemma prop_of_option_map_clone k ps :
  match option_map clone (lookup_prop k ps) with Some x => x | None => JUndefined end =
  clone (prop_of (JObj ps) k).
Proof. cbn [prop_of]. by destruct (lookup_prop k ps). Qed.

Lemma lookup_initial_options k ps :
  List.NoDup (keys ps) ->
  lookup_prop k (initial_options (JObj ps)) =
    if String.eqb k "auth"
    then Some (if instanceof_Object (prop_of (JObj ps) "auth")
               then clone (prop_of (JObj ps) "auth") else JObj [])
    else if String.eqb k "headers"
    then Some (if instanceof_Object (prop_of (JObj ps) "headers")
               then clone (prop_of (JObj ps) "headers") else JObj [])
    else if inherited k then None
    else option_map clone (lookup_prop k ps).
Proof.
  intros Hnd. unfold initial_options.
  destruct (merge_objects [] ps) as [mp Hm].
  change (getValidObj (JObj ps) (JObj [])) with (JObj ps). rewrite Hm.
  rewrite !lookup_ensured. cbn [prop_of]. rewrite lookup_ensured.
  change (String.eqb "auth" "headers") with false. cbv iota.
  rewrite !(lookup_merge_into_empty _ ps mp Hnd Hm).
  change (inherited "auth") with false. change (inherited "headers") with false.
  cbv iota.
  rewrite !prop_of_option_map_clone, !clone_instanceof_Object.
  reflexivity.
Qed.


Lemma prop_of_extracted k keylist ps :
  listed k keylist = true ->
  prop_of (JObj (fst (extraction keylist ps []))) k = prop_of (JObj ps) k.
Proof.
  intros H. cbn [prop_of]. rewrite lookup_extraction_moved, H.
  by destruct (lookup_prop k ps).
Qed.



(** X3, the settings of a new instance.  Constructed from an options record
    with distinct keys, the instance holds: as its flag, whether the
    [onlysuccessful] member is truthy; as its base URL, the [baseurl] member
    when that is a non-empty string and the empty string otherwise; as its
    auth value, what [prepareAuth] makes of a copy of the [auth] member, or
    of an empty descriptor when that member is not an object.  Every other
    member of the record, [headers], [agent] and [proxy] apart, is copied
    into the defaults, unless its key names a member every object inherits
    ([constructor], [toString], ...): such a member is left out. *)
Theorem X3_constructor_settings
  (g : JsValue) (ps : Props) (st : State) :
  List.NoDup (keys ps) ->
  let after := snd (FetchHelper_constructor g (JObj ps) st) in
  let options := JObj ps in
  onlysuccessful (this after) = truthy (prop_of options "onlysuccessful") /\
  baseurl (this after) = getSpecifiedStr (prop_of options "baseurl") "" /\
  prepareAuth g (if instanceof_Object (prop_of options "auth")
                 then clone (prop_of options "auth") else JObj [])
    = Ok (auth (this after)) /\
  forall k, ~ In k FETCH_OPTIONS -> k <> "headers" ->
    lookup_prop k (match cell (heap after) (defaults (this after)) with
                   | JObj D => D | _ => [] end)
    = if inherited k then None else option_map clone (lookup_prop k ps).
Proof.
  intros Hnd after options.
  destruct (merge_objects [] ps) as [mp Hm].
  subst after options.
  rewrite (FetchHelper_constructor_run g (JObj ps) st mp Hm). cbn [snd this heap].
  unfold constructed.
  cbn [onlysuccessful baseurl auth defaults with_agent with_baseurl
       with_onlysuccessful with_auth with_defaults].
  rewrite !prop_of_extracted by reflexivity.
  assert (E : forall k, prop_of (JObj (initial_options (JObj ps))) k =
                match lookup_prop k (initial_options (JObj ps)) with
                | Some x => x | None => JUndefined end) by reflexivity.
  rewrite !E, !(lookup_initial_options _ ps Hnd).
  change (String.eqb "onlysuccessful" "auth") with false.
  change (String.eqb "onlysuccessful" "headers") with false.
  change (String.eqb "baseurl" "auth") with false.
  change (String.eqb "baseurl" "headers") with false.
  change (String.eqb "auth" "auth") with true.
  change (inherited "onlysuccessful") with false.
  change (inherited "baseurl") with false. cbv iota.
  rewrite !prop_of_option_map_clone, clone_truthy, clone_getSpecifiedStr.
  split; [reflexivity|]. split; [reflexivity|]. split.
  - apply prepareAuth_object.
    destruct (instanceof_Object (prop_of (JObj ps) "auth")) eqn:Ea; [|reflexivity].
    by rewrite clone_instanceof_Object.
  - intros k Hk Hh. rewrite (cell_lookup (lookup_last _ _)).
    rewrite lookup_extraction_kept.
    destruct (listed k FETCH_OPTIONS) eqn:El.
    { apply listed_In in El. contradiction. }
    rewrite (lookup_initial_options _ ps Hnd).
    assert (Ea : String.eqb k "auth" = false).
    { apply String.eqb_neq. intros ->. apply Hk. cbn. tauto. }
    apply String.eqb_neq in Hh. by rewrite Ea, Hh.
Qed.

Lemma X3_constructor_settings_witness :
  let ps := [("baseurl", JStr "https://api.example.com");
             ("onlysuccessful", JNum 1);
             ("auth", JObj [("username", JStr "u"); ("password", JStr "p")]);
             ("redirect", JStr "follow")] in
  let after := snd (FetchHelper_constructor JUndefined (JObj ps)
                      {| this := blank; heap := [] |}) in
  let options := JObj ps in
  onlysuccessful (this after) = truthy (prop_of options "onlysuccessful") /\
  baseurl (this after) = getSpecifiedStr (prop_of options "baseurl") "" /\
  prepareAuth JUndefined (if instanceof_Object (prop_of options "auth")
                 then clone (prop_of options "auth") else JObj [])
    = Ok (auth (this after)) /\
  forall k, ~ In k FETCH_OPTIONS -> k <> "headers" ->
    lookup_prop k (match cell (heap after) (defaults (this after)) with
                   | JObj D => D | _ => [] end)
    = if inherited k then None else option_map clone (lookup_prop k ps).
Proof.
  intros ps.
  apply (X3_constructor_settings JUndefined ps {| this := blank; heap := [] |}).
  repeat constructor; cbn; intuition discriminate.
Defined.

Lemma RequestHelper_constructor_run (g : JsValue) options st mp :
  merge (JObj []) (getValidObj options (JObj [])) = JObj mp ->
  let D := snd (extraction FETCH_OPTIONS (initial_options options) []) in
  RequestHelper_constructor g options st =
    (Ok tt,
     {| this := with_queryOptions (length (heap st ++ [JObj D]))
                  (constructed g options (length (heap st)) (this st));
        heap := (heap st ++ [JObj (snd (extraction QUERY_OPTIONS D []))]) ++
                [JObj (fst (extraction QUERY_OPTIONS D []))] |}).
Proof.
  intros Hm D. unfold RequestHelper_constructor.
  rewrite (bind_run _ (FetchHelper_constructor_run g options st mp Hm)).
  match goal with |- context [get_this ≫= _] =>
    rewrite (bind_run _ (eq_refl : get_this _ = (Ok _, _))) end.
  cbn [this heap].
  assert (Ed : defaults (constructed g options (length (heap st)) (this st)) =
               length (heap st)) by reflexivity.
  rewrite Ed.
  pose proof (lookup_last (heap st) (JObj D)) as E.
  rewrite (bind_run _ (run_extractOptions {| this := _; heap := _ |} _
                         QUERY_OPTIONS D E)).
  cbn [this heap]. rewrite insert_last.
  match goal with |- context [alloc ?v ≫= _] =>
    rewrite (bind_run _ (eq_refl : alloc v _ = (Ok _, _))) end.
  cbn [this heap]. unfold update_this. cbn [this heap].
  by rewrite !length_app.
Qed.

(** X4, [new RequestHelper( options )].  Constructed from an options record
    with distinct keys, the instance keeps two new objects: its query
    options, which hold a copy of each query-string option of the record and
    nothing else, and its defaults, which hold none of them. *)
Theorem X4_request_constructor_splits_query_options
  (g : JsValue) (ps : Props) (st : State) :
  List.NoDup (keys ps) ->
  exists t' D Q,
    RequestHelper_constructor g (JObj ps) st =
      (Ok tt, {| this := t'; heap := heap st ++ [JObj D; JObj Q] |}) /\
    defaults t' = length (heap st) /\
    queryOptions t' = S (length (heap st)) /\
    forall k,
      (In k QUERY_OPTIONS ->
       lookup_prop k Q = option_map clone (lookup_prop k ps) /\
       lookup_prop k D = None) /\
      (~ In k QUERY_OPTIONS -> lookup_prop k Q = None).
Proof.
  intros Hnd. destruct (merge_objects [] ps) as [mp Hm].
  eexists _, _, _. split.
  { rewrite (RequestHelper_constructor_run g (JObj ps) st mp Hm).
    rewrite <- app_assoc. reflexivity. }
  split; [reflexivity|]. split.
  { cbn [queryOptions with_queryOptions]. rewrite length_app. cbn. lia. }
  intros k. rewrite lookup_extraction_moved, !lookup_extraction_kept.
  split; intros Hk.
  - assert (Hl := Hk). apply listed_In in Hl. rewrite Hl.
    split; [|reflexivity].
    assert (Hf : listed k FETCH_OPTIONS = false).
    { cbn in Hk. intuition subst; reflexivity. }
    rewrite Hf, (lookup_initial_options _ ps Hnd).
    assert (Ea : String.eqb k "auth" = false)
      by (cbn in Hk; intuition subst; reflexivity).
    assert (Eh : String.eqb k "headers" = false)
      by (cbn in Hk; intuition subst; reflexivity).
    assert (Ei : inherited k = false)
      by (cbn in Hk; intuition subst; reflexivity).
    rewrite Ea, Eh, Ei. by destruct (lookup_prop k ps).
  - destruct (listed k QUERY_OPTIONS) eqn:El; [|reflexivity].
    apply listed_In in El. contradiction.
Qed.

Lemma X4_request_constructor_splits_query_options_witness :
  exists t' D Q,
    RequestHelper_constructor JUndefined
      (JObj [("arrayFormat", JStr "bracket"); ("redirect", JStr "follow")])
      {| this := blank; heap := [] |} =
      (Ok tt, {| this := t'; heap := [] ++ [JObj D; JObj Q] |}) /\
    defaults t' = 0 /\
    queryOptions t' = 1 /\
    forall k,
      (In k QUERY_OPTIONS ->
       lookup_prop k Q =
         option_map clone
           (lookup_prop k [("arrayFormat", JStr "bracket"); ("redirect", JStr "follow")]) /\
       lookup_prop k D = None) /\
      (~ In k QUERY_OPTIONS -> lookup_prop k Q = None).
Proof.
  apply (X4_request_constructor_splits_query_options JUndefined
           [("arrayFormat", JStr "bracket"); ("redirect", JStr "follow")]
           {| this := blank; heap := [] |}).
  repeat constructor; cbn; intuition discriminate.
Defined.

Lemma frame_after_calls transport qs g calls n :
  frame n anything
    (fun st => (Ok tt, after_calls transport qs g calls st)).
Proof.
  induction calls as [|[c args] calls IH]; intros st Hn.
  - cbn. repeat split; auto.
  - destruct (frame_RequestHelper_call transport qs g n c args st Hn)
      as (H1 & H2 & H3 & _).
    destruct (IH _ H3) as (G1 & G2 & G3 & _).
    unfold after_calls in *. cbn [fold_left fst snd] in *.
    repeat split; try congruence.
Qed.

(** X5, a series of calls.  After [new RequestHelper( options )], for
    options that are not an array and whose [headers] member is not a
    function, any series of request calls, whatever their arguments and
    whatever the transport answers to each, leaves the persisted
    configuration as the constructor made it. *)
Theorem X5_configuration_survives_calls
  (transport : string -> JsValue -> Result Response)
  (queryString_stringify : JsValue -> JsValue -> string)
  (g : JsValue) (options : JsValue) (st : State)
  (calls : list (RequestCall * list JsValue)) :
  instanceof_Array options = false ->
  typeof (prop_of options "headers") <> "function" ->
  let made := snd (RequestHelper_constructor g options st) in
  configuration (after_calls transport queryString_stringify g calls made) =
  configuration made.
Proof.
  intros Harr _ made. destruct (merge_into_empty options Harr) as [mp Hm].
  pose proof (RequestHelper_constructor_run g options st mp Hm) as Hrun.
  cbv zeta in Hrun.
  assert (Hd : defaults (this made) < length (heap made)).
  { subst made. rewrite Hrun. cbn [snd this heap].
    change (defaults (with_queryOptions _ _)) with (length (heap st)).
    rewrite !length_app. cbn. lia. }
  assert (Hq : queryOptions (this made) < length (heap made)).
  { subst made. rewrite Hrun. cbn [snd this heap queryOptions with_queryOptions].
    rewrite !length_app. cbn. lia. }
  exact (proj1 (frame_configuration
                  (fun s => (Ok tt, after_calls transport queryString_stringify g calls s))
                  made (frame_after_calls _ _ _ _ _) Hd Hq)).
Qed.

Lemma X5_configuration_survives_calls_witness :
  let transport := fun (_ : string) (_ : JsValue) =>
                     Ok {| status := 500; statusText := "Internal Server Error";
                           body := "" |} in
  let made := snd (RequestHelper_constructor JUndefined
                     (JObj [("baseurl", JStr "https://api.example.com")])
                     {| this := blank; heap := [] |}) in
  configuration
    (after_calls transport (fun _ _ => "a=1") JUndefined
       [(CgetGetJson, [JStr "/items"; JObj [("a", JNum 1)]]);
        (Cpost, [JStr "/items"; JNum 1])] made) =
  configuration made.
Proof.
  intros transport.
  apply (X5_configuration_survives_calls transport (fun _ _ => "a=1") JUndefined
           (JObj [("baseurl", JStr "https://api.example.com")])
           {| this := blank; heap := [] |}
           [(CgetGetJson, [JStr "/items"; JObj [("a", JNum 1)]]);
            (Cpost, [JStr "/items"; JNum 1])]);
    [reflexivity | discriminate].
Defined.

(** ** [get] and its decode variants *)

Lemma lookup_other {h : list JsValue} {l l'} w :
  l' <> l -> <[l := w]> h !! l' = h !! l'.
Proof. intros H. by apply list_lookup_insert_ne. Qed.

Lemma cell_other (h : list JsValue) l l' w :
  l' <> l -> cell (<[l := w]> h) l' = cell h l'.
Proof. intros H. unfold cell. by rewrite (lookup_other w H). Qed.

Lemma run_prepareParams qs st o params ps :
  heap st !! o = Some (JObj ps) ->
  queryOptions (this st) <> o ->
  _prepareParams qs o params st =
    (Ok (query_part qs params
           (merge (cell (heap st) (queryOptions (this st)))
                  (JObj (fst (extraction QUERY_OPTIONS ps []))))),
     {| this := this st;
        heap := <[o := JObj (snd (extraction QUERY_OPTIONS ps []))]> (heap st) |}).
Proof.
  intros E Hq. unfold _prepareParams, query_part.
  rewrite (bind_run _ (eq_refl : get_this st = (Ok (this st), st))).
  rewrite (bind_run _ (run_extractOptions st o QUERY_OPTIONS ps E)).
  match goal with |- context [read ?l ≫= _] =>
    rewrite (bind_run _ (eq_refl : read l _ = (Ok _, _))) end.
  cbn [this heap]. rewrite (cell_other _ _ _ _ Hq).
  by destruct (instanceof_Object params).
Qed.

Lemma get_run transport qs g url params options st r st1 E :
  _prepareOptions g options st = (Ok r, st1) ->
  heap st1 !! r = Some (JObj E) ->
  queryOptions (this st1) <> r ->
  let E1 := set_prop "method" (JStr "GET") E in
  let R := snd (extraction QUERY_OPTIONS E1 []) in
  let q := merge (cell (heap st1) (queryOptions (this st1)))
                 (JObj (fst (extraction QUERY_OPTIONS E1 []))) in
  get transport qs g url params options st =
    (status_gate (effective_onlysuccessful (this st1) (JObj R))
       (transport
          (transport_url (this st1) (JObj R)
             (JStr (to_string url +:+ query_part qs params q)))
          (transport_options R)),
     {| this := this st1; heap := <[r := transport_options R]> (heap st1) |}).
Proof.
  intros Hprep Hcell Hq E1 R q. unfold get.
  rewrite (bind_run _ Hprep).
  rewrite (bind_run _ (run_assign "method" (JStr "GET") Hcell)).
  fold E1.
  pose proof (lookup_written (JObj E1) Hcell) as H1.
  rewrite (bind_run _ (run_prepareParams qs {| this := _; heap := _ |} r params E1 H1 Hq)).
  cbn [this heap]. rewrite (cell_other _ _ _ _ Hq), insert_twice.
  fold R q.
  pose proof (lookup_written (JObj R) Hcell) as H2.
  rewrite (fetch_run transport _ r {| this := _; heap := _ |} R H2).
  cbn [this heap]. by rewrite insert_twice.
Qed.

Lemma get_decoded_run transport qs g decode url params options st r st1 E :
  _prepareOptions g options st = (Ok r, st1) ->
  heap st1 !! r = Some (JObj E) ->
  queryOptions (this st1) <> r ->
  let E1 := set_prop "onlysuccessful" (JBool true) (set_prop "method" (JStr "GET") E) in
  let R := snd (extraction QUERY_OPTIONS E1 []) in
  let q := merge (cell (heap st1) (queryOptions (this st1)))
                 (JObj (fst (extraction QUERY_OPTIONS E1 []))) in
  get_decoded transport qs g decode url params options st =
    match status_gate true
            (transport
               (transport_url (this st1) (JObj R)
                  (JStr (to_string url +:+ query_part qs params q)))
               (transport_options R)) with
    | Ok res => decode res {| this := this st1;
                              heap := <[r := transport_options R]> (heap st1) |}
    | Throw e => (Throw e, {| this := this st1;
                              heap := <[r := transport_options R]> (heap st1) |})
    end.
Proof.
  intros Hprep Hcell Hq E1 R q. unfold get_decoded.
  rewrite (bind_run _ Hprep).
  rewrite (bind_run _ (run_assign "method" (JStr "GET") Hcell)).
  pose proof (lookup_written (JObj (set_prop "method" (JStr "GET") E)) Hcell) as H0.
  rewrite (bind_run _ (run_assign (st := {| this := _; heap := _ |})
                         "onlysuccessful" (JBool true) H0)).
  cbn [this heap]. rewrite insert_twice. fold E1.
  pose proof (lookup_written (JObj E1) Hcell) as H1.
  rewrite (bind_run _ (run_prepareParams qs {| this := _; heap := _ |} r params E1 H1 Hq)).
  cbn [this heap]. rewrite (cell_other _ _ _ _ Hq), insert_twice.
  fold R q.
  pose proof (lookup_written (JObj R) Hcell) as H2.
  pose proof (fetch_run transport
                (JStr (to_string url +:+ query_part qs params q)) r
                {| this := this st1; heap := <[r := JObj R]> (heap st1) |} R H2) as Hf.
  cbn [this heap] in Hf. rewrite insert_twice in Hf.
  assert (Hflag : effective_onlysuccessful (this st1) (JObj R) = true).
  { unfold effective_onlysuccessful, R. cbn [prop_of].
    rewrite lookup_extraction_kept.
    change (listed "onlysuccessful" QUERY_OPTIONS) with false. cbv iota.
    unfold E1. by rewrite lookup_set_prop. }
  rewrite Hflag in Hf.
  destruct (status_gate true _) as [res|e].
  - by rewrite (bind_run _ Hf).
  - by rewrite (bind_throw _ Hf).
Qed.

Lemma In_GET_INTERNAL k :
  In k GET_INTERNAL <->
  listed k QUERY_OPTIONS = true \/ k = "baseurl" \/ k = "onlysuccessful".
Proof.
  unfold GET_INTERNAL. rewrite in_app_iff, listed_In. cbn [In]. intuition.
Qed.

Lemma lookup_transport_options k ps :
  lookup_prop k (match transport_options ps with JObj s => s | _ => [] end) =
    if String.eqb k "baseurl" || String.eqb k "onlysuccessful"
    then None else lookup_prop k ps.
Proof.
  unfold transport_options.
  destruct (String.eqb k "onlysuccessful") eqn:Eo.
  - apply String.eqb_eq in Eo. subst k. rewrite orb_true_r.
    apply lookup_delete_prop_eq.
  - apply String.eqb_neq in Eo. rewrite lookup_delete_prop_ne by exact Eo.
    rewrite orb_false_r. destruct (String.eqb k "baseurl") eqn:Eb.
    + apply String.eqb_eq in Eb. subst k. apply lookup_delete_prop_eq.
    + apply String.eqb_neq in Eb. by apply lookup_delete_prop_ne.
Qed.

(** X6, what [get] sends.  Whenever the options of the call are prepared
    into an object, the transport is handed an object whose [method] is
    ['GET'], whatever the defaults and the options of the call say, which
    has none of the query-string options and neither [baseurl] nor
    [onlysuccessful], and whose other members are those of the prepared
    options; the status gate follows the prepared options. *)
Theorem X6_get_sends_GET_without_internal_keys
  (qs : JsValue -> JsValue -> string) (g url params options : JsValue)
  (st st1 : State) (r : loc) (E : Props) :
  _prepareOptions g options st = (Ok r, st1) ->
  heap st1 !! r = Some (JObj E) ->
  queryOptions (this st1) <> r ->
  exists U sent,
    (forall transport,
       fst (get transport qs g url params options st) =
         status_gate (effective_onlysuccessful (this st1) (JObj E))
           (transport U (JObj sent))) /\
    lookup_prop "method" sent = Some (JStr "GET") /\
    (forall k, In k GET_INTERNAL -> lookup_prop k sent = None) /\
    (forall k, k <> "method" -> ~ In k GET_INTERNAL ->
               lookup_prop k sent = lookup_prop k E).
Proof.
  intros Hprep Hcell Hq.
  eexists _, _. split.
  { intros transport.
    rewrite (get_run transport qs g url params options st r st1 E Hprep Hcell Hq).
    cbn [fst]. unfold transport_options at 1. f_equal.
    unfold effective_onlysuccessful. cbn [prop_of].
    rewrite lookup_extraction_kept.
    change (listed "onlysuccessful" QUERY_OPTIONS) with false. cbv iota.
    by rewrite lookup_set_prop. }
  pose proof lookup_transport_options as L. unfold transport_options in L.
  cbv beta iota in L.
  split.
  { rewrite L. cbn [String.eqb Ascii.eqb Bool.eqb orb].
    rewrite lookup_extraction_kept.
    change (listed "method" QUERY_OPTIONS) with false. cbv iota.
    by rewrite lookup_set_prop. }
  split.
  - intros k Hk. rewrite L, lookup_extraction_kept.
    apply In_GET_INTERNAL in Hk. destruct Hk as [Hk | [-> | ->]]; try reflexivity.
    rewrite Hk. by destruct (_ || _).
  - intros k Hm Hk. rewrite L, lookup_extraction_kept, lookup_set_prop.
    rewrite In_GET_INTERNAL in Hk.
    destruct (listed k QUERY_OPTIONS); [tauto|].
    destruct (String.eqb k "baseurl") eqn:Eb.
    { apply String.eqb_eq in Eb. tauto. }
    destruct (String.eqb k "onlysuccessful") eqn:Eo.
    { apply String.eqb_eq in Eo. tauto. }
    apply String.eqb_neq in Hm. by rewrite Hm.
Qed.

Lemma X6_get_sends_GET_without_internal_keys_witness :
  exists U sent,
    (forall transport,
       fst (get transport (fun _ _ => "") JUndefined (JStr "/items") JUndefined
              request_overrides request_state) =
         status_gate (effective_onlysuccessful (this request_prepared)
                        (JObj request_effective))
           (transport U (JObj sent))) /\
    lookup_prop "method" sent = Some (JStr "GET") /\
    (forall k, In k GET_INTERNAL -> lookup_prop k sent = None) /\
    (forall k, k <> "method" -> ~ In k GET_INTERNAL ->
               lookup_prop k sent = lookup_prop k request_effective).
Proof.
  apply (X6_get_sends_GET_without_internal_keys (fun _ _ => "") JUndefined
           (JStr "/items") JUndefined request_overrides
           request_state request_prepared 2 request_effective).
  - reflexivity.
  - reflexivity.
  - vm_compute. lia.
Defined.

(** X7, the URL of [get].  The transport is called with the base URL, the
    URL argument and the query part, in this order: the base URL is the
    [baseurl] of the prepared options when that is a non-empty string and
    that of the instance otherwise; the query part is empty when [params]
    is not an object or encodes to the empty string, and a question mark
    followed by the encoding otherwise; the encoder is given the query
    options of the instance merged with exactly the query-string options of
    the prepared options. *)
Theorem X7_get_url
  (qs : JsValue -> JsValue -> string) (g url params options : JsValue)
  (st st1 : State) (r : loc) (E : Props) :
  _prepareOptions g options st = (Ok r, st1) ->
  heap st1 !! r = Some (JObj E) ->
  queryOptions (this st1) <> r ->
  let base := getSpecifiedStr (prop_of (JObj E) "baseurl") (baseurl (this st1)) in
  let q := cell (heap st1) (queryOptions (this st1)) in
  exists sent X,
    (forall transport,
       fst (get transport qs g url params options st) =
         status_gate (effective_onlysuccessful (this st1) (JObj E))
           (transport
              (base +:+ to_string url +:+ query_part qs params (merge q (JObj X)))
              sent)) /\
    (forall k, lookup_prop k X =
               if listed k QUERY_OPTIONS then lookup_prop k E else None) /\
    (instanceof_Object params = false ->
     query_part qs params (merge q (JObj X)) = "") /\
    (instanceof_Object params = true ->
     query_part qs params (merge q (JObj X)) =
       if String.eqb (qs params (merge q (JObj X))) "" then ""
       else "?" +:+ qs params (merge q (JObj X))).
Proof.
  intros Hprep Hcell Hq base q.
  eexists _, _. split.
  { intros transport.
    rewrite (get_run transport qs g url params options st r st1 E Hprep Hcell Hq).
    cbn [fst]. unfold transport_url. cbn [to_string].
    f_equal.
    - unfold effective_onlysuccessful. cbn [prop_of].
      rewrite lookup_extraction_kept.
      change (listed "onlysuccessful" QUERY_OPTIONS) with false. cbv iota.
      by rewrite lookup_set_prop.
    - f_equal. subst base. f_equal. cbn [prop_of].
      rewrite lookup_extraction_kept.
      change (listed "baseurl" QUERY_OPTIONS) with false. cbv iota.
      by rewrite lookup_set_prop. }
  split.
  { intros k. rewrite lookup_extraction_moved, lookup_set_prop.
    destruct (listed k QUERY_OPTIONS) eqn:El; [|reflexivity].
    destruct (String.eqb k "method") eqn:Em.
    - apply String.eqb_eq in Em. subst k. discriminate El.
    - by destruct (lookup_prop k E). }
  split; intros Hp; unfold query_part; by rewrite Hp.
Qed.

Lemma X7_get_url_witness :
  let base := getSpecifiedStr (prop_of (JObj request_effective) "baseurl")
                (baseurl (this request_prepared)) in
  let q := cell (heap request_prepared) (queryOptions (this request_prepared)) in
  let qs := fun (_ _ : JsValue) => "a=1" in
  let params := JObj [("a", JNum 1)] in
  exists sent X,
    (forall transport,
       fst (get transport qs JUndefined (JStr "/items") params
              request_overrides request_state) =
         status_gate (effective_onlysuccessful (this request_prepared)
                        (JObj request_effective))
           (transport
              (base +:+ to_string (JStr "/items") +:+
               query_part qs params (merge q (JObj X)))
              sent)) /\
    (forall k, lookup_prop k X =
               if listed k QUERY_OPTIONS then lookup_prop k request_effective else None) /\
    (instanceof_Object params = false ->
     query_part qs params (merge q (JObj X)) = "") /\
    (instanceof_Object params = true ->
     query_part qs params (merge q (JObj X)) =
       if String.eqb (qs params (merge q (JObj X))) "" then ""
       else "?" +:+ qs params (merge q (JObj X))).
Proof.
  intros base q qs params.
  apply (X7_get_url qs JUndefined (JStr "/items") params request_overrides
           request_state request_prepared 2 request_effective).
  - reflexivity.
  - reflexivity.
  - vm_compute. lia.
Defined.

(** X8, the decode variants of [get].  [getGetJson], [getGetText],
    [getGetBlob], [getArrayBuffer] and [getBuffer] gate on the response
    whatever the flag of the instance and the options of the call say: a
    response that is not ok fails with an [HttpStatusError] carrying it and
    is never decoded, an ok response is handed to the decoder, and a
    failure of the transport is passed on. *)
Theorem X8_get_variants_always_gate
  (qs : JsValue -> JsValue -> string) (g url params options : JsValue)
  (decode : Response -> M JsValue)
  (st st1 : State) (r : loc) (E : Props) :
  _prepareOptions g options st = (Ok r, st1) ->
  heap st1 !! r = Some (JObj E) ->
  queryOptions (this st1) <> r ->
  exists U sent,
    forall transport,
      let call := get_decoded transport qs g decode url params options st in
      (forall res, transport U sent = Ok res -> ok res = false ->
         fst call =
           Throw (HttpStatus (new_HttpStatusError (statusText res) (status res) res))) /\
      (forall res, transport U sent = Ok res -> ok res = true ->
         exists st2, call = decode res st2) /\
      (forall e, transport U sent = Throw e -> fst call = Throw e).
Proof.
  intros Hprep Hcell Hq. eexists _, _. intros transport call. subst call.
  rewrite (get_decoded_run transport qs g decode url params options st r st1 E
             Hprep Hcell Hq).
  repeat split.
  - intros res -> Hok. cbn [status_gate andb]. by rewrite Hok.
  - intros res -> Hok. cbn [status_gate andb]. rewrite Hok. cbn [negb]. eauto.
  - by intros e ->.
Qed.

Lemma X8_get_variants_always_gate_witness :
  exists U sent,
    forall transport,
      let call := get_decoded transport (fun _ _ => "") JUndefined res_json
                    (JStr "/items") JUndefined request_overrides request_state in
      (forall res, transport U sent = Ok res -> ok res = false ->
         fst call =
           Throw (HttpStatus (new_HttpStatusError (statusText res) (status res) res))) /\
      (forall res, transport U sent = Ok res -> ok res = true ->
         exists st2, call = res_json res st2) /\
      (forall e, transport U sent = Throw e -> fst call = Throw e).
Proof.
  apply (X8_get_variants_always_gate (fun _ _ => "") JUndefined (JStr "/items")
           JUndefined request_overrides res_json
           request_state request_prepared 2 request_effective).
  - reflexivity.
  - reflexivity.
  - vm_compute. lia.
Defined.

(** ** [_prepareBody] *)

Lemma bind_assoc {A B C} (m : M A) (f : A -> M B) (k : B -> M C) st :
  ((m ≫= f) ≫= k) st = (m ≫= (fun a => f a ≫= k)) st.
Proof. unfold mbind, M_bind. by destruct (m st) as [[a|e] st']. Qed.

Lemma run_ensureContentType {st o} defval {ps hp} :
  heap st !! o = Some (JObj ps) ->
  lookup_prop "headers" ps = Some (JObj hp) ->
  ensureContentType o defval st =
    (Ok tt,
     {| this := this st;
        heap := <[o := JObj (with_content_type
                               (getSpecifiedStr defval "application/octet-stream")
                               hp ps)]> (heap st) |}).
Proof.
  intros E Hh. unfold ensureContentType, with_content_type.
  rewrite (bind_run _ (run_read_member "headers" E)).
  cbn [prop_of]. rewrite Hh. cbn [member].
  match goal with |- context [lift (Ok ?v) ≫= _] =>
    rewrite (bind_run _ (eq_refl : lift (Ok v) st = (Ok v, st))) end.
  cbn [prop_of].
  assert (Hid : (mret tt : M unit) st =
                (Ok tt, {| this := this st; heap := <[o := JObj ps]> (heap st) |})).
  { replace (<[o := JObj ps]> (heap st)) with (heap st)
      by (symmetry; by apply list_insert_id).
    by destruct st. }
  destruct (lookup_prop "Content-Type" hp) as [[]|]; try exact Hid;
    by apply run_assign_in.
Qed.

Lemma run_verbatim {st o} defval data {ps hp} :
  heap st !! o = Some (JObj ps) ->
  lookup_prop "headers" ps = Some (JObj hp) ->
  (ensureContentType o defval ≫= fun _ => assign o "body" data) st =
    (Ok tt,
     {| this := this st;
        heap := <[o := JObj (set_prop "body" data
                               (with_content_type
                                  (getSpecifiedStr defval "application/octet-stream")
                                  hp ps))]> (heap st) |}).
Proof.
  intros E Hh. rewrite (bind_run _ (run_ensureContentType defval E Hh)).
  rewrite (run_assign (st := {| this := _; heap := _ |}) "body" data
             (lookup_written _ E)).
  cbn [this heap]. by rewrite insert_twice.
Qed.

Lemma prepareBody_verbatim_run qs o st data ps hp d :
  verbatim_default data = Some d ->
  heap st !! o = Some (JObj ps) ->
  lookup_prop "headers" ps = Some (JObj hp) ->
  _prepareBody qs o data st =
    (Ok o,
     {| this := this st;
        heap := <[o := JObj (set_prop "body" data (with_content_type d hp ps))]>
                  (heap st) |}).
Proof.
  intros Hd E Hh. unfold _prepareBody.
  destruct data as [ | | | |s| |[ty bs|bs|bs| | |fs|px]| | ]; try discriminate Hd;
    cbn [verbatim_default] in Hd; inversion Hd; subst d;
    match goal with |- context [ensureContentType o ?dv] =>
      by rewrite (bind_run _ (run_verbatim dv _ E Hh)) end.
Qed.

Lemma lookup_with_content_type_headers d hp ps :
  lookup_prop "headers" ps = Some (JObj hp) ->
  lookup_prop "headers" (with_content_type d hp ps) =
    Some (JObj (match prop_of (JObj hp) "Content-Type" with
                | JUndefined => set_prop "Content-Type" (JStr d) hp
                | _ => hp
                end)).
Proof.
  intros Hh. unfold with_content_type.
  destruct (prop_of (JObj hp) "Content-Type"); try exact Hh.
  by rewrite lookup_set_prop.
Qed.

Lemma lookup_with_content_type_other k d hp ps :
  k <> "headers" ->
  lookup_prop k (with_content_type d hp ps) = lookup_prop k ps.
Proof.
  intros Hk. unfold with_content_type. apply String.eqb_neq in Hk.
  destruct (prop_of (JObj hp) "Content-Type"); try reflexivity.
  by rewrite lookup_set_prop, Hk.
Qed.

(** X9, bodies passed on as they are.  For a string, a Blob, a Buffer, an
    ArrayBuffer or a stream, [_prepareBody] makes the data itself the body.
    A content type that the headers already carry is kept; otherwise the
    content type becomes [text/plain] for a string, the type of a Blob when
    that is not empty, and [application/octet-stream] in every other case.
    No other header and no other option changes. *)
Theorem X9_verbatim_body
  (qs : JsValue -> JsValue -> string) (o : loc) (st : State)
  (data : JsValue) (ps hp : Props) (d : string) :
  verbatim_default data = Some d ->
  heap st !! o = Some (JObj ps) ->
  lookup_prop "headers" ps = Some (JObj hp) ->
  exists ps' hp',
    _prepareBody qs o data st =
      (Ok o, {| this := this st; heap := <[o := JObj ps']> (heap st) |}) /\
    lookup_prop "body" ps' = Some data /\
    lookup_prop "headers" ps' = Some (JObj hp') /\
    prop_of (JObj hp') "Content-Type" =
      match prop_of (JObj hp) "Content-Type" with
      | JUndefined => JStr d
      | ct => ct
      end /\
    (forall k, k <> "Content-Type" -> lookup_prop k hp' = lookup_prop k hp) /\
    (forall k, k <> "body" -> k <> "headers" -> lookup_prop k ps' = lookup_prop k ps).
Proof.
  intros Hd E Hh. eexists _, _. split.
  { exact (prepareBody_verbatim_run qs o st data ps hp d Hd E Hh). }
  split; [by rewrite lookup_set_prop|]. split.
  { rewrite lookup_set_prop. change (String.eqb "headers" "body") with false.
    cbv iota. by apply lookup_with_content_type_headers. }
  split.
  { destruct (prop_of (JObj hp) "Content-Type") eqn:Ect; try exact Ect.
    cbn [prop_of]. by rewrite lookup_set_prop, String.eqb_refl. }
  split.
  - intros k Hk. destruct (prop_of (JObj hp) "Content-Type"); try reflexivity.
    apply String.eqb_neq in Hk. by rewrite lookup_set_prop, Hk.
  - intros k Hb Hhd. apply String.eqb_neq in Hb.
    rewrite lookup_set_prop, Hb. by apply lookup_with_content_type_other.
Qed.

Lemma X9_verbatim_body_witness :
  let ps := [("headers", JObj [("Accept", JStr "text/html")])] in
  let data := JHost (HBlob "" "bytes") in
  exists ps' hp',
    _prepareBody (fun _ _ => "") 0 data {| this := blank; heap := [JObj ps] |} =
      (Ok 0, {| this := blank; heap := <[0 := JObj ps']> [JObj ps] |}) /\
    lookup_prop "body" ps' = Some data /\
    lookup_prop "headers" ps' = Some (JObj hp') /\
    prop_of (JObj hp') "Content-Type" =
      match prop_of (JObj [("Accept", JStr "text/html")]) "Content-Type" with
      | JUndefined => JStr "application/octet-stream"
      | ct => ct
      end /\
    (forall k, k <> "Content-Type" ->
               lookup_prop k hp' = lookup_prop k [("Accept", JStr "text/html")]) /\
    (forall k, k <> "body" -> k <> "headers" -> lookup_prop k ps' = lookup_prop k ps).
Proof.
  intros ps data.
  apply (X9_verbatim_body (fun _ _ => "") 0 {| this := blank; heap := [JObj ps] |}
           data ps [("Accept", JStr "text/html")] "application/octet-stream");
    reflexivity.
Defined.

Lemma prepareBody_record_step qs o st data ps hp ct :
  heap st !! o = Some (JObj ps) ->
  lookup_prop "headers" ps = Some (JObj hp) ->
  structured_record data = true ->
  prop_of (JObj hp) "Content-Type" = ct ->
  ct <> JUndefined ->
  _prepareBody qs o data st =
    ((if is_str ct "application/json"
      then assign o "body" (JSON.stringify_value data)
      else if is_str ct "application/x-www-form-urlencoded"
      then t ← get_this;
           extracted ← _extractOptions o QUERY_OPTIONS;
           q ← read (queryOptions t);
           assign o "body" (JStr (qs data (merge q extracted)))
      else if testJsonContentType ct
      then assign o "body" (JSON.stringify_value data)
      else throw (Error ("Invalid Content-Type " +:+ to_string ct))) ≫=
     fun _ => mret o) st.
Proof.
  intros E Hh Hrec Hct Hne. unfold _prepareBody.
  destruct data; try discriminate Hrec; cbn [instanceof_Object];
    rewrite bind_assoc, (bind_run _ (run_read_member "headers" E));
    cbn [prop_of]; rewrite Hh; cbn [member];
    rewrite bind_assoc;
    (match goal with |- context [lift (Ok ?v) ≫= _] =>
       rewrite (bind_run _ (eq_refl : lift (Ok v) st = (Ok v, st))) end);
    rewrite Hct; destruct ct; try reflexivity; by destruct Hne.
Qed.

Lemma is_str_eq v s : is_str v s = true -> v = JStr s.
Proof.
  destruct v; try discriminate. cbn. intros H. apply String.eqb_eq in H. by subst.
Qed.

(** X10, JSON content types.  For a structured record and a content type
    that [testJsonContentType] accepts, [application/json] among them,
    [_prepareBody] makes the JSON text of the record the body and changes
    nothing else: the content type stays as it was. *)
Theorem X10_json_content_types
  (qs : JsValue -> JsValue -> string) (o : loc) (st : State)
  (data : JsValue) (ps hp : Props) :
  heap st !! o = Some (JObj ps) ->
  lookup_prop "headers" ps = Some (JObj hp) ->
  structured_record data = true ->
  testJsonContentType (prop_of (JObj hp) "Content-Type") = true ->
  _prepareBody qs o data st =
    (Ok o,
     {| this := this st;
        heap := <[o := JObj (set_prop "body" (JSON.stringify_value data) ps)]>
                  (heap st) |}).
Proof.
  intros E Hh Hrec Hjs.
  rewrite (prepareBody_record_step qs o st data ps hp _ E Hh Hrec eq_refl)
    by (intros Hu; rewrite Hu in Hjs; discriminate Hjs).
  set (ct := prop_of (JObj hp) "Content-Type") in *.
  destruct (is_str ct "application/json") eqn:E1.
  { by rewrite (bind_run _ (run_assign "body" _ E)). }
  destruct (is_str ct "application/x-www-form-urlencoded") eqn:E2.
  { apply is_str_eq in E2. rewrite E2 in Hjs. discriminate Hjs. }
  rewrite Hjs. by rewrite (bind_run _ (run_assign "body" _ E)).
Qed.

Lemma X10_json_content_types_witness :
  let hp := [("Content-Type", JStr "application/vnd.api+json")] in
  let ps := [("headers", JObj hp)] in
  _prepareBody (fun _ _ => "") 0 (JObj [("a", JNum 1)])
    {| this := blank; heap := [JObj ps] |} =
    (Ok 0,
     {| this := blank;
        heap := <[0 := JObj (set_prop "body"
                               (JSON.stringify_value (JObj [("a", JNum 1)])) ps)]>
                  [JObj ps] |}).
Proof.
  intros hp ps.
  apply (X10_json_content_types (fun _ _ => "") 0 {| this := blank; heap := [JObj ps] |}
           (JObj [("a", JNum 1)]) ps hp); reflexivity.
Defined.

(** X11, form encoding.  For a structured record under the content type
    [application/x-www-form-urlencoded], the body is the query-string
    encoding of the record, made with the query options of the instance
    merged with the query-string options found in the options of the call;
    those options are taken out of the options of the call, whose other
    members, the headers among them, stay as they were. *)
Theorem X11_form_urlencoded_body
  (qs : JsValue -> JsValue -> string) (o : loc) (st : State)
  (data : JsValue) (ps hp : Props) :
  heap st !! o = Some (JObj ps) ->
  lookup_prop "headers" ps = Some (JObj hp) ->
  structured_record data = true ->
  prop_of (JObj hp) "Content-Type" = JStr "application/x-www-form-urlencoded" ->
  queryOptions (this st) <> o ->
  exists X ps',
    _prepareBody qs o data st =
      (Ok o, {| this := this st; heap := <[o := JObj ps']> (heap st) |}) /\
    lookup_prop "body" ps' =
      Some (JStr (qs data (merge (cell (heap st) (queryOptions (this st))) (JObj X)))) /\
    (forall k, lookup_prop k X =
               if listed k QUERY_OPTIONS then lookup_prop k ps else None) /\
    (forall k, k <> "body" ->
               lookup_prop k ps' =
               if listed k QUERY_OPTIONS then None else lookup_prop k ps).
Proof.
  intros E Hh Hrec Hct Hq.
  rewrite (prepareBody_record_step qs o st data ps hp _ E Hh Hrec Hct)
    by discriminate.
  change (is_str (JStr "application/x-www-form-urlencoded") "application/json")
    with false.
  change (is_str (JStr "application/x-www-form-urlencoded")
            "application/x-www-form-urlencoded") with true.
  cbv iota.
  rewrite bind_assoc, (bind_run _ (eq_refl : get_this st = (Ok (this st), st))).
  rewrite bind_assoc, (bind_run _ (run_extractOptions st o QUERY_OPTIONS ps E)).
  rewrite bind_assoc.
  match goal with |- context [read ?l ≫= _] =>
    rewrite (bind_run _ (eq_refl : read l _ = (Ok _, _))) end.
  cbn [this heap]. rewrite (cell_other _ _ _ _ Hq).
  rewrite (bind_run _ (run_assign (st := {| this := _; heap := _ |}) "body" _
                         (lookup_written _ E))).
  cbn [this heap]. rewrite insert_twice.
  eexists _, _. split; [reflexivity|]. split; [by rewrite lookup_set_prop|]. split.
  - intros k. rewrite lookup_extraction_moved.
    destruct (listed k QUERY_OPTIONS); [|reflexivity]. by destruct (lookup_prop k ps).
  - intros k Hb. apply String.eqb_neq in Hb.
    by rewrite lookup_set_prop, Hb, lookup_extraction_kept.
Qed.

Lemma X11_form_urlencoded_body_witness :
  let hp := [("Content-Type", JStr "application/x-www-form-urlencoded")] in
  let ps := [("headers", JObj hp); ("sort", JBool false)] in
  let st := {| this := blank; heap := [JObj []; JObj ps] |} in
  let qs := fun (_ _ : JsValue) => "a=1" in
  let data := JObj [("a", JNum 1)] in
  exists X ps',
    _prepareBody qs 1 data st =
      (Ok 1, {| this := this st; heap := <[1 := JObj ps']> (heap st) |}) /\
    lookup_prop "body" ps' =
      Some (JStr (qs data (merge (cell (heap st) (queryOptions (this st))) (JObj X)))) /\
    (forall k, lookup_prop k X =
               if listed k QUERY_OPTIONS then lookup_prop k ps else None) /\
    (forall k, k <> "body" ->
               lookup_prop k ps' =
               if listed k QUERY_OPTIONS then None else lookup_prop k ps).
Proof.
  intros hp ps st qs data.
  apply (X11_form_urlencoded_body qs 1 st data ps hp);
    [reflexivity | reflexivity | reflexivity | reflexivity | vm_compute; lia].
Defined.

(** X12, content types [_prepareBody] refuses.  For a structured record
    under a content type that is defined, is not
    [application/x-www-form-urlencoded] and is not accepted by
    [testJsonContentType], [_prepareBody] throws an [Error] that names the
    content type and leaves the options as they were. *)
Theorem X12_invalid_content_type
  (qs : JsValue -> JsValue -> string) (o : loc) (st : State)
  (data : JsValue) (ps hp : Props) :
  heap st !! o = Some (JObj ps) ->
  lookup_prop "headers" ps = Some (JObj hp) ->
  structured_record data = true ->
  let ct := prop_of (JObj hp) "Content-Type" in
  ct <> JUndefined ->
  ct <> JStr "application/x-www-form-urlencoded" ->
  testJsonContentType ct = false ->
  _prepareBody qs o data st =
    (Throw (Error ("Invalid Content-Type " +:+ to_string ct)), st).
Proof.
  intros E Hh Hrec ct Hu Hf Hjs.
  rewrite (prepareBody_record_step qs o st data ps hp ct E Hh Hrec eq_refl Hu).
  destruct (is_str ct "application/json") eqn:E1.
  { apply is_str_eq in E1. rewrite E1 in Hjs. discriminate Hjs. }
  destruct (is_str ct "application/x-www-form-urlencoded") eqn:E2.
  { apply is_str_eq in E2. contradiction. }
  rewrite Hjs. reflexivity.
Qed.

Lemma X12_invalid_content_type_witness :
  let hp := [("Content-Type", JStr "application/json; charset=utf-8")] in
  let ps := [("headers", JObj hp)] in
  let st := {| this := blank; heap := [JObj ps] |} in
  _prepareBody (fun _ _ => "") 0 (JObj [("a", JNum 1)]) st =
    (Throw (Error ("Invalid Content-Type " +:+
                   to_string (prop_of (JObj hp) "Content-Type"))), st).
Proof.
  intros hp ps st.
  apply (X12_invalid_content_type (fun _ _ => "") 0 st (JObj [("a", JNum 1)]) ps hp);
    [reflexivity | reflexivity | reflexivity | discriminate | discriminate | reflexivity].
Defined.

(** ** [post] and its decode variants *)

Lemma post_run transport qs g url data options st r st1 r' st2 P :
  _prepareOptions g options st = (Ok r, st1) ->
  _prepareBody qs r data st1 = (Ok r', st2) ->
  heap st2 !! r' = Some (JObj P) ->
  let P1 := set_prop "method" (JStr "POST") P in
  post transport qs g url data options st =
    (status_gate (effective_onlysuccessful (this st2) (JObj P1))
       (transport (transport_url (this st2) (JObj P1) url) (transport_options P1)),
     {| this := this st2; heap := <[r' := transport_options P1]> (heap st2) |}).
Proof.
  intros Hprep Hbody Hcell P1. unfold post.
  rewrite (bind_run _ Hprep), (bind_run _ Hbody).
  rewrite (bind_run _ (run_assign "method" (JStr "POST") Hcell)).
  fold P1.
  rewrite (fetch_run transport url r' {| this := _; heap := _ |} P1
             (lookup_written _ Hcell)).
  cbn [this heap]. by rewrite insert_twice.
Qed.

Lemma post_decoded_run transport qs g decode url data options st r st1 r' st2 P :
  _prepareOptions g options st = (Ok r, st1) ->
  _prepareBody qs r data st1 = (Ok r', st2) ->
  heap st2 !! r' = Some (JObj P) ->
  let P1 := set_prop "onlysuccessful" (JBool true) (set_prop "method" (JStr "POST") P) in
  post_decoded transport qs g decode url data options st =
    match status_gate true
            (transport (transport_url (this st2) (JObj P1) url) (transport_options P1)) with
    | Ok res => decode res {| this := this st2;
                              heap := <[r' := transport_options P1]> (heap st2) |}
    | Throw e => (Throw e, {| this := this st2;
                              heap := <[r' := transport_options P1]> (heap st2) |})
    end.
Proof.
  intros Hprep Hbody Hcell P1. unfold post_decoded.
  rewrite (bind_run _ Hprep), (bind_run _ Hbody).
  rewrite (bind_run _ (run_assign "method" (JStr "POST") Hcell)).
  rewrite (bind_run _ (run_assign (st := {| this := _; heap := _ |})
                         "onlysuccessful" (JBool true) (lookup_written _ Hcell))).
  cbn [this heap]. rewrite insert_twice. fold P1.
  pose proof (fetch_run transport url r'
                {| this := this st2; heap := <[r' := JObj P1]> (heap st2) |} P1
                (lookup_written _ Hcell)) as Hf.
  cbn [this heap] in Hf. rewrite insert_twice in Hf.
  assert (Hflag : effective_onlysuccessful (this st2) (JObj P1) = true).
  { unfold effective_onlysuccessful, P1. cbn [prop_of]. by rewrite lookup_set_prop. }
  rewrite Hflag in Hf.
  destruct (status_gate true _) as [res|e].
  - by rewrite (bind_run _ Hf).
  - by rewrite (bind_throw _ Hf).
Qed.

(** X13, what [post] sends.  Whenever the options are prepared and the body
    is set, the transport is handed an object whose [method] is ['POST'],
    whatever the defaults and the options of the call say, which has
    neither [baseurl] nor [onlysuccessful], and whose other members, the
    body among them, are those [_prepareBody] left; the URL is the base URL
    followed by the URL argument. *)
Theorem X13_post_sends_POST
  (qs : JsValue -> JsValue -> string) (g url data options : JsValue)
  (st st1 st2 : State) (r r' : loc) (P : Props) :
  _prepareOptions g options st = (Ok r, st1) ->
  _prepareBody qs r data st1 = (Ok r', st2) ->
  heap st2 !! r' = Some (JObj P) ->
  exists sent,
    (forall transport,
       fst (post transport qs g url data options st) =
         status_gate (effective_onlysuccessful (this st2) (JObj P))
           (transport
              (getSpecifiedStr (prop_of (JObj P) "baseurl") (baseurl (this st2)) +:+
               to_string url)
              (JObj sent))) /\
    lookup_prop "method" sent = Some (JStr "POST") /\
    lookup_prop "baseurl" sent = None /\
    lookup_prop "onlysuccessful" sent = None /\
    (forall k, k <> "method" -> k <> "baseurl" -> k <> "onlysuccessful" ->
               lookup_prop k sent = lookup_prop k P).
Proof.
  intros Hprep Hbody Hcell.
  pose proof lookup_transport_options as L. unfold transport_options in L.
  cbv beta iota in L.
  eexists. split.
  { intros transport.
    rewrite (post_run transport qs g url data options st r st1 r' st2 P
               Hprep Hbody Hcell).
    cbn [fst]. unfold transport_options at 1, transport_url, effective_onlysuccessful.
    cbn [prop_of]. rewrite !lookup_set_prop.
    change (String.eqb "onlysuccessful" "method") with false.
    change (String.eqb "baseurl" "method") with false. cbv iota. reflexivity. }
  split; [by rewrite L, lookup_set_prop|].
  split; [by rewrite L|]. split; [by rewrite L|].
  intros k Hm Hb Ho. apply String.eqb_neq in Hm, Hb, Ho.
  by rewrite L, Hb, Ho, lookup_set_prop, Hm.
Qed.

Lemma X13_post_sends_POST_witness :
  let P := set_prop "body" (JStr "hello")
             (with_content_type "text/plain" [] request_effective) in
  let st2 := {| this := this request_state;
                heap := heap request_state ++ [JObj P] |} in
  exists sent,
    (forall transport,
       fst (post transport (fun _ _ => "") JUndefined (JStr "/items") (JStr "hello")
              request_overrides request_state) =
         status_gate (effective_onlysuccessful (this st2) (JObj P))
           (transport
              (getSpecifiedStr (prop_of (JObj P) "baseurl") (baseurl (this st2)) +:+
               to_string (JStr "/items"))
              (JObj sent))) /\
    lookup_prop "method" sent = Some (JStr "POST") /\
    lookup_prop "baseurl" sent = None /\
    lookup_prop "onlysuccessful" sent = None /\
    (forall k, k <> "method" -> k <> "baseurl" -> k <> "onlysuccessful" ->
               lookup_prop k sent = lookup_prop k P).
Proof.
  intros P st2.
  apply (X13_post_sends_POST (fun _ _ => "") JUndefined (JStr "/items") (JStr "hello")
           request_overrides request_state request_prepared st2 2 2 P);
    reflexivity.
Defined.

(** X14, data [post] refuses.  For a number or a boolean as data, [post]
    and its decode variants throw a [TypeError] naming the type of the
    data once the options are prepared; the outcome does not depend on the
    transport, which is not reached. *)
Theorem X14_unsupported_data
  (qs : JsValue -> JsValue -> string) (g url data options : JsValue)
  (decode : Response -> M JsValue)
  (st st1 : State) (r : loc) :
  _prepareOptions g options st = (Ok r, st1) ->
  typeof data = "number" \/ typeof data = "boolean" ->
  forall transport,
    post transport qs g url data options st =
      (Throw (TypeError ("Unsupported data type " +:+ typeof data)), st1) /\
    post_decoded transport qs g decode url data options st =
      (Throw (TypeError ("Unsupported data type " +:+ typeof data)), st1).
Proof.
  intros Hprep Hty transport.
  assert (Hb : _prepareBody qs r data st1 =
               (Throw (TypeError ("Unsupported data type " +:+ typeof data)), st1)).
  { destruct data; cbn in Hty; destruct Hty as [Hty|Hty]; try discriminate Hty;
      reflexivity. }
  unfold post, post_decoded.
  rewrite !(bind_run _ Hprep), !(bind_throw _ Hb). by split.
Qed.

Lemma X14_unsupported_data_witness :
  post echo_transport (fun _ _ => "") JUndefined (JStr "/items") (JNum 42)
    request_overrides request_state =
    (Throw (TypeError ("Unsupported data type " +:+ typeof (JNum 42))),
     request_prepared) /\
  post_decoded echo_transport (fun _ _ => "") JUndefined res_json (JStr "/items")
    (JNum 42) request_overrides request_state =
    (Throw (TypeError ("Unsupported data type " +:+ typeof (JNum 42))),
     request_prepared).
Proof.
  apply (X14_unsupported_data (fun _ _ => "") JUndefined (JStr "/items") (JNum 42)
           request_overrides res_json request_state request_prepared 2).
  - reflexivity.
  - left. reflexivity.
Defined.

(** X15, the decode variants of [post].  [postGetJson], [postGetText],
    [postGetBlob], [postGetArrayBuffer] and [postGetBuffer] gate on the
    response whatever the flag of the instance and the options of the call
    say: a response that is not ok fails with an [HttpStatusError] carrying
    it and is never decoded, an ok response is handed to the decoder, and a
    failure of the transport is passed on. *)
Theorem X15_post_variants_always_gate
  (qs : JsValue -> JsValue -> string) (g url data options : JsValue)
  (decode : Response -> M JsValue)
  (st st1 st2 : State) (r r' : loc) (P : Props) :
  _prepareOptions g options st = (Ok r, st1) ->
  _prepareBody qs r data st1 = (Ok r', st2) ->
  heap st2 !! r' = Some (JObj P) ->
  exists U sent,
    forall transport,
      let call := post_decoded transport qs g decode url data options st in
      (forall res, transport U sent = Ok res -> ok res = false ->
         fst call =
           Throw (HttpStatus (new_HttpStatusError (statusText res) (status res) res))) /\
      (forall res, transport U sent = Ok res -> ok res = true ->
         exists st3, call = decode res st3) /\
      (forall e, transport U sent = Throw e -> fst call = Throw e).
Proof.
  intros Hprep Hbody Hcell. eexists _, _. intros transport call. subst call.
  rewrite (post_decoded_run transport qs g decode url data options st r st1 r' st2 P
             Hprep Hbody Hcell).
  repeat split.
  - intros res -> Hok. cbn [status_gate andb]. by rewrite Hok.
  - intros res -> Hok. cbn [status_gate andb]. rewrite Hok. cbn [negb]. eauto.
  - by intros e ->.
Qed.

Lemma X15_post_variants_always_gate_witness :
  exists U sent,
    forall transport,
      let call := post_decoded transport (fun _ _ => "") JUndefined res_text
                    (JStr "/items") (JStr "hello") request_overrides request_state in
      (forall res, transport U sent = Ok res -> ok res = false ->
         fst call =
           Throw (HttpStatus (new_HttpStatusError (statusText res) (status res) res))) /\
      (forall res, transport U sent = Ok res -> ok res = true ->
         exists st3, call = res_text res st3) /\
      (forall e, transport U sent = Throw e -> fst call = Throw e).
Proof.
  apply (X15_post_variants_always_gate (fun _ _ => "") JUndefined (JStr "/items")
           (JStr "hello") request_overrides res_text
           request_state request_prepared
           {| this := this request_state;
              heap := heap request_state ++
                      [JObj (set_prop "body" (JStr "hello")
                               (with_content_type "text/plain" [] request_effective))] |}
           2 2
           (set_prop "body" (JStr "hello")
              (with_content_type "text/plain" [] request_effective)));
    reflexivity.
Defined.

Lemma echo_transport_echoes : echoes echo_transport.
Proof.
  intros url options text Hb. eexists. split; [reflexivity|]. split; [reflexivity|].
  cbn [body]. by rewrite Hb.
Qed.

(** X16, a JSON round trip through [postGetJson].  Against a transport that
    answers with the body it is sent, [postGetJson] of a structured record
    made of [null], booleans, finite numbers other than negative zero,
    strings, arrays and records only,
    under prepared options whose headers carry no content type, returns
    the record. *)
Theorem X16_postGetJson_round_trip
  (transport : string -> JsValue -> Result Response)
  (qs : JsValue -> JsValue -> string) (g url data options : JsValue)
  (st st1 : State) (r : loc) (E hp : Props) :
  _prepareOptions g options st = (Ok r, st1) ->
  heap st1 !! r = Some (JObj E) ->
  lookup_prop "headers" E = Some (JObj hp) ->
  prop_of (JObj hp) "Content-Type" = JUndefined ->
  structured_record data = true ->
  jsonable data = true ->
  echoes transport ->
  fst (postGetJson transport qs g url data options st) = Ok data.
Proof.
  intros Hprep Hcell Hh Hct Hrec Hjs Hecho.
  destruct (parse_stringify data Hjs) as (text & Hs & Hp).
  pose proof (prepareBody_json_run qs r st1 data E hp Hcell Hh Hct Hrec) as Hbody.
  unfold postGetJson.
  rewrite (post_decoded_run transport qs g res_json url data options st r st1 r _ _
             Hprep Hbody (lookup_written _ Hcell)).
  match goal with |- context [transport ?U ?o] =>
    destruct (Hecho U o text) as (res & Hres & Hok & Hb) end.
  { unfold transport_options. cbn [prop_of].
    rewrite !lookup_delete_prop_ne by discriminate.
    rewrite !lookup_set_prop. cbn [String.eqb Ascii.eqb Bool.eqb].
    unfold stringify_value. by rewrite Hs. }
  rewrite Hres. cbn [status_gate andb]. rewrite Hok. cbn [negb].
  unfold res_json. rewrite Hb, Hp. reflexivity.
Qed.

Lemma X16_postGetJson_round_trip_witness :
  fst (postGetJson echo_transport (fun _ _ => "") JUndefined (JStr "/items")
         (JObj [("name", JStr "n"); ("tags", JArr [JNum 1; JNull])])
         request_overrides request_state) =
  Ok (JObj [("name", JStr "n"); ("tags", JArr [JNum 1; JNull])]).
Proof.
  apply (X16_postGetJson_round_trip echo_transport (fun _ _ => "") JUndefined
           (JStr "/items") (JObj [("name", JStr "n"); ("tags", JArr [JNum 1; JNull])])
           request_overrides request_state request_prepared 2 request_effective []);
    try reflexivity.
  exact echo_transport_echoes.
Defined.

(** ** formhelper.js *)

Lemma FormHelper_constructor_run (g : JsValue) options st mp :
  merge (JObj []) (getValidObj options (JObj [])) = JObj mp ->
  let D := snd (extraction FETCH_OPTIONS (initial_options options) []) in
  FormHelper_constructor g options st =
    (Ok tt,
     {| this := with_formData new_FormData
                  (with_formOptions (length (heap st ++ [JObj D]))
                     (constructed g options (length (heap st)) (this st)));
        heap := (heap st ++ [JObj (snd (extraction FORM_OPTIONS D []))]) ++
                [JObj (fst (extraction FORM_OPTIONS D []))] |}).
Proof.
  intros Hm D. unfold FormHelper_constructor.
  rewrite (bind_run _ (FetchHelper_constructor_run g options st mp Hm)).
  match goal with |- context [get_this ≫= _] =>
    rewrite (bind_run _ (eq_refl : get_this _ = (Ok _, _))) end.
  cbn [this heap].
  assert (Ed : defaults (constructed g options (length (heap st)) (this st)) =
               length (heap st)) by reflexivity.
  rewrite Ed.
  pose proof (lookup_last (heap st) (JObj D)) as E.
  rewrite (bind_run _ (run_extractOptions {| this := _; heap := _ |} _
                         FORM_OPTIONS D E)).
  cbn [this heap]. rewrite insert_last.
  match goal with |- context [alloc ?v ≫= _] =>
    rewrite (bind_run _ (eq_refl : alloc v _ = (Ok _, _))) end.
  cbn [this heap].
  match goal with |- context [update_this ?f ≫= _] =>
    rewrite (bind_run _ (eq_refl : update_this f _ = (Ok tt, _))) end.
  unfold update_this. cbn [this heap].
  by rewrite !length_app.
Qed.

(** X18, [new FormHelper( options )].  Constructed from an options record
    with distinct keys, the instance starts with a session without fields
    and keeps two new objects: its form options, which hold a copy of the
    [maxDataSize] and [pauseStreams] members of the record and nothing
    else, and its defaults, which hold neither. *)
Theorem X18_form_constructor_splits_form_options
  (g : JsValue) (ps : Props) (st : State) :
  List.NoDup (keys ps) ->
  exists t' D F,
    FormHelper_constructor g (JObj ps) st =
      (Ok tt, {| this := t'; heap := heap st ++ [JObj D; JObj F] |}) /\
    defaults t' = length (heap st) /\
    formOptions t' = S (length (heap st)) /\
    formData t' = JHost (HFormData []) /\
    forall k,
      (In k FORM_OPTIONS ->
       lookup_prop k F = option_map clone (lookup_prop k ps) /\
       lookup_prop k D = None) /\
      (~ In k FORM_OPTIONS -> lookup_prop k F = None).
Proof.
  intros Hnd. destruct (merge_objects [] ps) as [mp Hm].
  eexists _, _, _. split.
  { rewrite (FormHelper_constructor_run g (JObj ps) st mp Hm).
    rewrite <- app_assoc. reflexivity. }
  split; [reflexivity|]. split.
  { cbn [formOptions with_formOptions with_formData]. rewrite length_app. cbn. lia. }
  split; [reflexivity|].
  intros k. rewrite lookup_extraction_moved, !lookup_extraction_kept.
  split; intros Hk.
  - assert (Hl := Hk). apply listed_In in Hl. rewrite Hl.
    split; [|reflexivity].
    assert (Hf : listed k FETCH_OPTIONS = false).
    { cbn in Hk. intuition subst; reflexivity. }
    rewrite Hf, (lookup_initial_options _ ps Hnd).
    assert (Ea : String.eqb k "auth" = false)
      by (cbn in Hk; intuition subst; reflexivity).
    assert (Eh : String.eqb k "headers" = false)
      by (cbn in Hk; intuition subst; reflexivity).
    assert (Ei : inherited k = false)
      by (cbn in Hk; intuition subst; reflexivity).
    rewrite Ea, Eh, Ei. by destruct (lookup_prop k ps).
  - destruct (listed k FORM_OPTIONS) eqn:El; [|reflexivity].
    apply listed_In in El. contradiction.
Qed.

Lemma X18_form_constructor_splits_form_options_witness :
  exists t' D F,
    FormHelper_constructor JUndefined
      (JObj [("maxDataSize", JNum 1024); ("redirect", JStr "follow")])
      {| this := blank; heap := [] |} =
      (Ok tt, {| this := t'; heap := [] ++ [JObj D; JObj F] |}) /\
    defaults t' = 0 /\
    formOptions t' = 1 /\
    formData t' = JHost (HFormData []) /\
    forall k,
      (In k FORM_OPTIONS ->
       lookup_prop k F =
         option_map clone
           (lookup_prop k [("maxDataSize", JNum 1024); ("redirect", JStr "follow")]) /\
       lookup_prop k D = None) /\
      (~ In k FORM_OPTIONS -> lookup_prop k F = None).
Proof.
  apply (X18_form_constructor_splits_form_options JUndefined
           [("maxDataSize", JNum 1024); ("redirect", JStr "follow")]
           {| this := blank; heap := [] |}).
  repeat constructor; cbn; intuition discriminate.
Defined.

Lemma FormHelper_post_run transport g url options st r st1 E :
  _prepareOptions g options st = (Ok r, st1) ->
  heap st1 !! r = Some (JObj E) ->
  let P := set_prop "body" (formData (this st1)) (set_prop "method" (JStr "POST") E) in
  FormHelper_post transport g url options st =
    (status_gate (effective_onlysuccessful (this st1) (JObj P))
       (transport (transport_url (this st1) (JObj P) url) (transport_options P)),
     {| this := this st1; heap := <[r := transport_options P]> (heap st1) |}).
Proof.
  intros Hprep Hcell P. unfold FormHelper_post.
  rewrite (bind_run _ Hprep).
  rewrite (bind_run _ (run_assign "method" (JStr "POST") Hcell)).
  match goal with |- context [get_this ≫= _] =>
    rewrite (bind_run _ (eq_refl : get_this _ = (Ok _, _))) end.
  cbn [this heap].
  rewrite (bind_run _ (run_assign (st := {| this := _; heap := _ |})
                         "body" (formData (this st1)) (lookup_written _ Hcell))).
  cbn [this heap]. rewrite insert_twice. fold P.
  rewrite (fetch_run transport url r {| this := _; heap := _ |} P
             (lookup_written _ Hcell)).
  cbn [this heap]. by rewrite insert_twice.
Qed.

(** X19, what the form helper posts.  [post], and [submit] with it, hands
    the transport the prepared options with [method] set to ['POST'] and
    [body] set to the session of the instance, whatever the defaults and
    the options of the call say for either, and without [baseurl] and
    [onlysuccessful]. *)
Theorem X19_form_post_sends_session
  (g url options : JsValue) (st st1 : State) (r : loc) (E : Props) :
  _prepareOptions g options st = (Ok r, st1) ->
  heap st1 !! r = Some (JObj E) ->
  exists sent,
    (forall transport,
       fst (FormHelper_post transport g url options st) =
         status_gate (effective_onlysuccessful (this st1) (JObj E))
           (transport
              (getSpecifiedStr (prop_of (JObj E) "baseurl") (baseurl (this st1)) +:+
               to_string url)
              (JObj sent)) /\
       FormHelper_submit transport g url options st =
         FormHelper_post transport g url options st) /\
    lookup_prop "method" sent = Some (JStr "POST") /\
    lookup_prop "body" sent = Some (formData (this st1)) /\
    lookup_prop "baseurl" sent = None /\
    lookup_prop "onlysuccessful" sent = None /\
    (forall k, k <> "method" -> k <> "body" -> k <> "baseurl" -> k <> "onlysuccessful" ->
               lookup_prop k sent = lookup_prop k E).
Proof.
  intros Hprep Hcell.
  pose proof lookup_transport_options as L. unfold transport_options in L.
  cbv beta iota in L.
  eexists. split.
  { intros transport. split; [|reflexivity].
    rewrite (FormHelper_post_run transport g url options st r st1 E Hprep Hcell).
    cbn [fst]. unfold transport_options at 1, transport_url, effective_onlysuccessful.
    cbn [prop_of]. rewrite !lookup_set_prop.
    change (String.eqb "onlysuccessful" "method") with false.
    change (String.eqb "baseurl" "method") with false.
    change (String.eqb "onlysuccessful" "body") with false.
    change (String.eqb "baseurl" "body") with false. cbv iota. reflexivity. }
  split; [by rewrite L, !lookup_set_prop|].
  split; [by rewrite L, !lookup_set_prop|].
  split; [by rewrite L|]. split; [by rewrite L|].
  intros k Hm Hbd Hb Ho. apply String.eqb_neq in Hm, Hbd, Hb, Ho.
  by rewrite L, Hb, Ho, !lookup_set_prop, Hm, Hbd.
Qed.

Lemma X19_form_post_sends_session_witness :
  exists sent,
    (forall transport,
       fst (FormHelper_post transport JUndefined (JStr "/upload")
              (JObj [("body", JStr "ignored")]) upload_state) =
         status_gate (effective_onlysuccessful (this upload_prepared)
                        (JObj upload_effective))
           (transport
              (getSpecifiedStr (prop_of (JObj upload_effective) "baseurl")
                 (baseurl (this upload_prepared)) +:+
               to_string (JStr "/upload"))
              (JObj sent)) /\
       FormHelper_submit transport JUndefined (JStr "/upload")
         (JObj [("body", JStr "ignored")]) upload_state =
         FormHelper_post transport JUndefined (JStr "/upload")
           (JObj [("body", JStr "ignored")]) upload_state) /\
    lookup_prop "method" sent = Some (JStr "POST") /\
    lookup_prop "body" sent = Some (formData (this upload_prepared)) /\
    lookup_prop "baseurl" sent = None /\
    lookup_prop "onlysuccessful" sent = None /\
    (forall k, k <> "method" -> k <> "body" -> k <> "baseurl" -> k <> "onlysuccessful" ->
               lookup_prop k sent = lookup_prop k upload_effective).
Proof.
  apply (X19_form_post_sends_session JUndefined (JStr "/upload")
           (JObj [("body", JStr "ignored")]) upload_state upload_prepared 2
           upload_effective); reflexivity.
Defined.

(** ** [testJsonContentType] *)

Lemma split_without sep s : contains sep s = false -> split sep s = [s].
Proof.
  induction s as [|c s IH]; cbn [contains split]; [reflexivity|].
  intros H. apply orb_false_elim in H. destruct H as [Hc Hs].
  rewrite Hc, (IH Hs). reflexivity.
Qed.

Lemma split_at sep a b :
  contains sep a = false -> split sep (a +:+ String sep b) = a :: split sep b.
Proof.
  induction a as [|c a IH]; cbn [contains split String.append].
  - intros _. by rewrite Ascii.eqb_refl.
  - intros H. apply orb_false_elim in H. destruct H as [Hc Ha].
    rewrite Hc, (IH Ha). reflexivity.
Qed.

Lemma contains_append c a b : contains c (a +:+ b) = contains c a || contains c b.
Proof.
  induction a as [|x a IH]; cbn [contains String.append]; [reflexivity|].
  by rewrite IH, orb_assoc.
Qed.

Lemma media_parts_join c parts :
  forallb (fun p => negb (contains c p)) parts = true ->
  c <> "+"%char ->
  contains c (join "+" parts) = false.
Proof.
  intros H Hc. induction parts as [|p [|q rest] IH]; [reflexivity| |].
  - cbn in H |- *. rewrite andb_true_r in H. by apply negb_true_iff in H.
  - cbn [forallb] in H. apply andb_prop in H. destruct H as [Hp Hrest].
    change (join "+" (p :: q :: rest)) with (p +:+ String "+" (join "+" (q :: rest))).
    rewrite contains_append. cbn [contains].
    apply negb_true_iff in Hp. rewrite Hp, (IH Hrest).
    apply Ascii.eqb_neq in Hc. rewrite Ascii.eqb_sym, Hc. reflexivity.
Qed.

Lemma split_join parts :
  parts <> [] ->
  forallb (fun p => negb (contains "+" p)) parts = true ->
  split "+" (join "+" parts) = parts.
Proof.
  intros Hne H. induction parts as [|p [|q rest] IH]; [by destruct Hne| |].
  - cbn in H |- *. rewrite andb_true_r in H. apply negb_true_iff in H.
    by apply split_without.
  - cbn [forallb] in H. apply andb_prop in H. destruct H as [Hp Hrest].
    apply negb_true_iff in Hp.
    change (join "+" (p :: q :: rest)) with (p +:+ String "+" (join "+" (q :: rest))).
    rewrite (split_at _ _ _ Hp), IH; [reflexivity | discriminate | exact Hrest].
Qed.

Lemma existsb_rev_eq {A} (f : A -> bool) l : existsb f (rev l) = existsb f l.
Proof.
  induction l as [|x l IH]; [reflexivity|].
  cbn [rev existsb]. rewrite existsb_app, IH. cbn [existsb].
  rewrite orb_false_r. apply orb_comm.
Qed.

Lemma forallb_media_part c parts :
  forallb media_part parts = true ->
  (c = "/" \/ c = "+")%char ->
  forallb (fun p => negb (contains c p)) parts = true.
Proof.
  intros H Hc. induction parts as [|p parts IH]; [reflexivity|].
  cbn [forallb] in H |- *. apply andb_prop in H. destruct H as [Hp Hrest].
  rewrite (IH Hrest), andb_true_r. unfold media_part in Hp.
  apply andb_prop in Hp. destruct Hp as [H1 H2]. by destruct Hc as [-> | ->].
Qed.

(** X17, which content types count as JSON.  For a media type
    [type/p1+...+pn] whose type and parts have no slash and whose parts
    have no plus sign, [testJsonContentType] answers whether one of the
    parts is exactly [json]: [application/json] and
    [application/vnd.api+json] are accepted, and a parameter after the
    subtype, as in [application/json; charset=utf-8], makes the last part
    differ from [json]. *)
Theorem X17_json_content_type_test (type : string) (parts : list string) :
  contains "/" type = false ->
  parts <> [] ->
  forallb media_part parts = true ->
  testJsonContentType (JStr (type +:+ "/" +:+ join "+" parts)) = listed "json" parts.
Proof.
  intros Ht Hne Hparts. unfold testJsonContentType, listed.
  change ("/" +:+ join "+" parts) with (String "/" (join "+" parts)).
  rewrite (split_at _ _ _ Ht).
  rewrite (split_without "/" (join "+" parts))
    by (apply media_parts_join;
        [apply forallb_media_part; [exact Hparts | by left] | discriminate]).
  rewrite existsb_rev_eq, split_join;
    [reflexivity | exact Hne | apply forallb_media_part; [exact Hparts | by right]].
Qed.

Lemma X17_json_content_type_test_witness :
  testJsonContentType (JStr ("application" +:+ "/" +:+ join "+" ["vnd.api"; "json"])) =
    listed "json" ["vnd.api"; "json"] /\
  testJsonContentType
    (JStr ("application" +:+ "/" +:+ join "+" ["json; charset=utf-8"])) =
    listed "json" ["json; charset=utf-8"].
Proof.
  split.
  - apply (X17_json_content_type_test "application" ["vnd.api"; "json"]);
      [reflexivity | discriminate | reflexivity].
  - apply (X17_json_content_type_test "application" ["json; charset=utf-8"]);
      [reflexivity | discriminate | reflexivity].
Defined.

(** ** The setters and the auth value of a call *)

(** X20, [setBasicAuth].  Unless the global scope binds [credentials] to a
    string, [setBasicAuth( username, password )] sets the auth value of the
    instance to the Basic scheme over [username:password] when both are
    truthy and clears it otherwise, an empty password included; it changes
    nothing else. *)
Theorem X20_setBasicAuth_needs_both
  (g username password : JsValue) (st : State) :
  typeof g <> "string" ->
  setBasicAuth g username password st =
    (Ok tt,
     {| this := with_auth
                  (if truthy username && truthy password
                   then JStr ("Basic " +:+
                              Base64.encode (to_string username +:+ ":" +:+
                                             to_string password))
                   else JUndefined)
                  (this st);
        heap := heap st |}).
Proof.
  intros Hg. apply String.eqb_neq in Hg. unfold setBasicAuth, prepareAuth.
  cbn [prop_of lookup_prop String.eqb Ascii.eqb Bool.eqb typeof].
  destruct (truthy username && truthy password); [reflexivity|].
  by rewrite Hg.
Qed.

Lemma X20_setBasicAuth_needs_both_witness :
  setBasicAuth JUndefined (JStr "u") (JStr "") {| this := blank; heap := [] |} =
    (Ok tt,
     {| this := with_auth
                  (if truthy (JStr "u") && truthy (JStr "")
                   then JStr ("Basic " +:+
                              Base64.encode (to_string (JStr "u") +:+ ":" +:+
                                             to_string (JStr "")))
                   else JUndefined)
                  blank;
        heap := [] |}).
Proof.
  apply (X20_setBasicAuth_needs_both JUndefined (JStr "u") (JStr "")
           {| this := blank; heap := [] |}).
  discriminate.
Defined.

(** X21, [setProxy].  A proxy argument that is not an object, not a string
    and not [true] leaves the instance as it is, whether or not it has an
    agent: [setProxy( false )] and [setProxy()] do not remove an agent. *)
Theorem X21_setProxy_ignores_other_values (proxy : JsValue) (st : State) :
  instanceof_Object proxy = false ->
  typeof proxy <> "string" ->
  proxy <> JBool true ->
  setProxy proxy st = (Ok tt, st).
Proof.
  intros Ho Hs Ht. rewrite run_setProxy. unfold proxy_agent. rewrite Ho.
  destruct proxy as [ | |[]| |s| | | | ]; try discriminate Ho;
    try (by destruct Hs); try (by destruct Ht); by destruct st as [[] ?].
Qed.

Lemma X21_setProxy_ignores_other_values_witness :
  setProxy (JBool false)
    {| this := with_agent (JHost (HAgent (Some "http://proxy:3128"))) blank;
       heap := [] |} =
    (Ok tt, {| this := with_agent (JHost (HAgent (Some "http://proxy:3128"))) blank;
               heap := [] |}).
Proof.
  apply (X21_setProxy_ignores_other_values (JBool false)
           {| this := with_agent (JHost (HAgent (Some "http://proxy:3128"))) blank;
              heap := [] |});
    [reflexivity | discriminate | discriminate].
Defined.

(** X22, the setters and the store.  Whether it returns or throws, a setter
    of [FetchHelper] changes no object of the store, the defaults among
    them, and leaves the references of the instance and its form session
    as they are. *)
Theorem X22_setters_keep_store
  (g : JsValue) (name : string) (args : list JsValue) (m : M unit) (st : State) :
  FetchHelper_setter g name args = Some m ->
  heap (snd (m st)) = heap st /\
  defaults (this (snd (m st))) = defaults (this st) /\
  queryOptions (this (snd (m st))) = queryOptions (this st) /\
  formOptions (this (snd (m st))) = formOptions (this st) /\
  formData (this (snd (m st))) = formData (this st).
Proof.
  unfold FetchHelper_setter. intros H.
  repeat match type of H with
         | (if ?b then _ else _) = _ => destruct b
         end;
    inversion H; subst m; clear H.
  - unfold setAuth. destruct (prepareAuth g (arg 0 args)) as [v|e] eqn:E.
    + rewrite (bind_run _ (eq_refl : lift (Ok v) st = (Ok v, st))). by cbn.
    + rewrite (bind_throw _ (eq_refl : lift (Throw e) st = (Throw e, st))). by cbn.
  - unfold setBasicAuth.
    match goal with |- context [lift ?r] => destruct r as [v|e] eqn:E end.
    + rewrite (bind_run _ (eq_refl : lift (Ok v) st = (Ok v, st))). by cbn.
    + rewrite (bind_throw _ (eq_refl : lift (Throw e) st = (Throw e, st))). by cbn.
  - by cbn.
  - by cbn.
  - rewrite run_setProxy. by cbn.
  - by cbn.
Qed.

Lemma X22_setters_keep_store_witness :
  let st := request_state in
  let m := setAuth JUndefined JUndefined in
  heap (snd (m st)) = heap st /\
  defaults (this (snd (m st))) = defaults (this st) /\
  queryOptions (this (snd (m st))) = queryOptions (this st) /\
  formOptions (this (snd (m st))) = formOptions (this st) /\
  formData (this (snd (m st))) = formData (this st).
Proof.
  intros st m.
  apply (X22_setters_keep_store JUndefined "setAuth" [] m st).
  reflexivity.
Defined.

(** ** The options of a call, from defaults and overrides *)

Lemma merged_headers A B HA mp :
  List.NoDup (keys A) -> List.NoDup (keys B) ->
  lookup_prop "headers" A = Some (JObj HA) ->
  (lookup_prop "headers" B = None \/
   exists HB, lookup_prop "headers" B = Some (JObj HB)) ->
  merge (JObj A) (JObj B) = JObj mp ->
  exists hp, lookup_prop "headers" mp = Some (JObj hp).
Proof.
  intros HA_nd HB_nd HhA HhB Hmp.
  pose proof (lookup_merge "headers" A B HA_nd HB_nd) as Hlh.
  rewrite Hmp in Hlh. rewrite Hlh. destruct HhB as [-> | [HB ->]].
  - rewrite HhA. cbn. eauto.
  - unfold has_prop. rewrite HhA. cbn [andb Deepmerge.isMergeableObject prop_of].
    rewrite HhA. destruct (merge_objects HA HB) as [hp ->]. eauto.
Qed.

Lemma prepareOptions_objects g options st A B HA :
  heap st !! defaults (this st) = Some (JObj A) ->
  getValidObj options (JObj []) = JObj B ->
  List.NoDup (keys A) -> List.NoDup (keys B) ->
  lookup_prop "headers" A = Some (JObj HA) ->
  (lookup_prop "headers" B = None \/
   exists HB, lookup_prop "headers" B = Some (JObj HB)) ->
  exists mp hp a,
    merge (JObj A) (JObj B) = JObj mp /\
    lookup_prop "headers" mp = Some (JObj hp) /\
    resolved_auth g (this st) (JObj mp) = Ok a /\
    _prepareOptions g options st =
      (Ok (length (heap st)),
       {| this := this st;
          heap := heap st ++
                  [JObj (with_agent_member (agent (this st))
                           (with_authorization a hp (delete_prop "auth" mp)))] |}).
Proof.
  intros Hd Hv HA_nd HB_nd HhA HhB.
  destruct (merge_objects A B) as [mp Hmp].
  destruct (merged_headers A B HA mp HA_nd HB_nd HhA HhB Hmp) as [hp Hhp].
  destruct (resolved_auth_succeeds g (this st) (JObj mp)) as [a Ha].
  exists mp, hp, a. repeat split; try assumption.
  apply prepareOptions_run; try assumption.
  by rewrite (cell_lookup Hd), Hv.
Qed.

(** X23, a descriptor in the options of the call.  When the options of a
    call carry an object as [auth], the options prepared for the call do
    not depend on the auth value of the instance: whatever that value is,
    [_prepareOptions] returns the same reference to the same object. *)
Theorem X23_call_descriptor_replaces_instance_auth
  (g options : JsValue) (st : State) (A B HA D : Props) (a' : JsValue) :
  heap st !! defaults (this st) = Some (JObj A) ->
  getValidObj options (JObj []) = JObj B ->
  List.NoDup (keys A) -> List.NoDup (keys B) ->
  lookup_prop "headers" A = Some (JObj HA) ->
  (lookup_prop "headers" B = None \/
   exists HB, lookup_prop "headers" B = Some (JObj HB)) ->
  lookup_prop "auth" B = Some (JObj D) ->
  let st' := {| this := with_auth a' (this st); heap := heap st |} in
  fst (_prepareOptions g options st') = fst (_prepareOptions g options st) /\
  heap (snd (_prepareOptions g options st')) = heap (snd (_prepareOptions g options st)).
Proof.
  intros Hd Hv HA_nd HB_nd HhA HhB Hauth st'.
  destruct (prepareOptions_objects g options st A B HA Hd Hv HA_nd HB_nd HhA HhB)
    as (mp & hp & a & Hmp & Hhp & Ha & Hrun).
  assert (Hobj : instanceof_Object (prop_of (JObj mp) "auth") = true).
  { pose proof (lookup_merge "auth" A B HA_nd HB_nd) as Hl.
    rewrite Hmp, Hauth in Hl. cbn [prop_of]. rewrite Hl.
    destruct (has_prop "auth" A && isMergeableObject (JObj D)); [|reflexivity].
    cbn [deepmerge prop_of]. by destruct (lookup_prop "auth" A) as [[]|]. }
  assert (Ha' : resolved_auth g (this st') (JObj mp) = Ok a).
  { unfold resolved_auth in Ha |- *. by rewrite Hobj in Ha |- *. }
  rewrite Hrun.
  rewrite (prepareOptions_run g options st' mp a hp);
    [by split | | exact Ha' | exact Hhp].
  subst st'. cbn [this heap defaults with_auth]. by rewrite (cell_lookup Hd), Hv.
Qed.

Lemma X23_call_descriptor_replaces_instance_auth_witness :
  let options := JObj [("auth", JObj [])] in
  let st' := {| this := with_auth (JStr "Basic dTpw") (this request_state);
                heap := heap request_state |} in
  fst (_prepareOptions JUndefined options st') =
    fst (_prepareOptions JUndefined options request_state) /\
  heap (snd (_prepareOptions JUndefined options st')) =
    heap (snd (_prepareOptions JUndefined options request_state)).
Proof.
  intros options st'.
  apply (X23_call_descriptor_replaces_instance_auth JUndefined options request_state
           [("headers", JObj [])] [("auth", JObj [])] [] [] (JStr "Basic dTpw")).
  - reflexivity.
  - reflexivity.
  - repeat constructor; cbn; intuition discriminate.
  - repeat constructor; cbn; intuition discriminate.
  - reflexivity.
  - left. reflexivity.
  - reflexivity.
Defined.

(** ** What reaches the transport *)

(** X24, the public [fetch].  On an instance whose defaults are a record
    with a [headers] record, called with options that are not an object or
    are a record with no [headers] or a [headers] record, [fetch] calls the
    transport with an object that has no [auth], no [baseurl] and no
    [onlysuccessful] member: the settings of the helper, the credentials
    among them, are not handed on. *)
Theorem X24_fetch_keeps_settings_private
  (g url options : JsValue) (st : State) (A B HA : Props) :
  heap st !! defaults (this st) = Some (JObj A) ->
  getValidObj options (JObj []) = JObj B ->
  List.NoDup (keys A) -> List.NoDup (keys B) ->
  lookup_prop "headers" A = Some (JObj HA) ->
  (lookup_prop "headers" B = None \/
   exists HB, lookup_prop "headers" B = Some (JObj HB)) ->
  exists U sent flag,
    (forall transport,
       fst (fetch transport g url options st) =
         status_gate flag (transport U (JObj sent))) /\
    lookup_prop "auth" sent = None /\
    lookup_prop "baseurl" sent = None /\
    lookup_prop "onlysuccessful" sent = None.
Proof.
  intros Hd Hv HA_nd HB_nd HhA HhB.
  destruct (prepareOptions_objects g options st A B HA Hd Hv HA_nd HB_nd HhA HhB)
    as (mp & hp & a & Hmp & Hhp & Ha & Hrun).
  pose proof lookup_transport_options as L. unfold transport_options in L.
  cbv beta iota in L.
  eexists _, _, _. split.
  { intros transport. unfold fetch. rewrite (bind_run _ Hrun).
    rewrite (fetch_run transport url _ {| this := _; heap := _ |} _ (lookup_last _ _)).
    cbn [fst]. unfold transport_options at 1. reflexivity. }
  split; [|split]; rewrite L; try reflexivity.
  cbn [String.eqb Ascii.eqb Bool.eqb orb]. apply lookup_effective_auth.
Qed.

Lemma X24_fetch_keeps_settings_private_witness :
  exists U sent flag,
    (forall transport,
       fst (fetch transport JUndefined (JStr "/items")
              (JObj [("auth", JObj [("username", JStr "u"); ("password", JStr "p")])])
              request_state) =
         status_gate flag (transport U (JObj sent))) /\
    lookup_prop "auth" sent = None /\
    lookup_prop "baseurl" sent = None /\
    lookup_prop "onlysuccessful" sent = None.
Proof.
  apply (X24_fetch_keeps_settings_private JUndefined (JStr "/items")
           (JObj [("auth", JObj [("username", JStr "u"); ("password", JStr "p")])])
           request_state [("headers", JObj [])]
           [("auth", JObj [("username", JStr "u"); ("password", JStr "p")])] []).
  - reflexivity.
  - reflexivity.
  - repeat constructor; cbn; intuition discriminate.
  - repeat constructor; cbn; intuition discriminate.
  - reflexivity.
  - left. reflexivity.
Defined.

(** X25, [post] without data.  With [null] or [undefined] as data, [post]
    hands the transport the body [null] under the method ['POST'] and the
    headers of the prepared options: no content type is added. *)
Theorem X25_post_without_data
  (qs : JsValue -> JsValue -> string) (g url data options : JsValue)
  (st st1 : State) (r : loc) (E : Props) :
  _prepareOptions g options st = (Ok r, st1) ->
  heap st1 !! r = Some (JObj E) ->
  data = JNull \/ data = JUndefined ->
  exists sent,
    (forall transport,
       fst (post transport qs g url data options st) =
         status_gate (effective_onlysuccessful (this st1) (JObj E))
           (transport
              (getSpecifiedStr (prop_of (JObj E) "baseurl") (baseurl (this st1)) +:+
               to_string url)
              (JObj sent))) /\
    lookup_prop "body" sent = Some JNull /\
    lookup_prop "method" sent = Some (JStr "POST") /\
    lookup_prop "headers" sent = lookup_prop "headers" E.
Proof.
  intros Hprep Hcell Hdata.
  assert (Hbody : _prepareBody qs r data st1 =
                  (Ok r, {| this := this st1;
                            heap := <[r := JObj (set_prop "body" JNull E)]>
                                      (heap st1) |})).
  { unfold _prepareBody.
    destruct Hdata as [-> | ->];
      by rewrite (bind_run _ (run_assign "body" JNull Hcell)). }
  pose proof lookup_transport_options as L. unfold transport_options in L.
  cbv beta iota in L.
  eexists. split.
  { intros transport.
    rewrite (post_run transport qs g url data options st r st1 r _ _
               Hprep Hbody (lookup_written _ Hcell)).
    cbn [fst this]. unfold transport_options at 1, transport_url, effective_onlysuccessful.
    cbn [prop_of]. rewrite !lookup_set_prop.
    change (String.eqb "onlysuccessful" "method") with false.
    change (String.eqb "baseurl" "method") with false.
    change (String.eqb "onlysuccessful" "body") with false.
    change (String.eqb "baseurl" "body") with false. cbv iota. reflexivity. }
  repeat split; by rewrite L, !lookup_set_prop.
Qed.

Lemma X25_post_without_data_witness :
  exists sent,
    (forall transport,
       fst (post transport (fun _ _ => "") JUndefined (JStr "/items") JUndefined
              request_overrides request_state) =
         status_gate (effective_onlysuccessful (this request_prepared)
                        (JObj request_effective))
           (transport
              (getSpecifiedStr (prop_of (JObj request_effective) "baseurl")
                 (baseurl (this request_prepared)) +:+
               to_string (JStr "/items"))
              (JObj sent))) /\
    lookup_prop "body" sent = Some JNull /\
    lookup_prop "method" sent = Some (JStr "POST") /\
    lookup_prop "headers" sent = lookup_prop "headers" request_effective.
Proof.
  apply (X25_post_without_data (fun _ _ => "") JUndefined (JStr "/items") JUndefined
           request_overrides request_state request_prepared 2 request_effective).
  - reflexivity.
  - reflexivity.
  - right. reflexivity.
Defined.

Lemma keys_set_prop_NoDup k v ps :
  List.NoDup (keys ps) -> List.NoDup (keys (set_prop k v ps)).
Proof.
  intros H. induction ps as [|[k' v'] ps IH]; cbn [set_prop].
  - cbn. constructor; [intros [] | constructor].
  - destruct (String.eqb k k') eqn:E; [exact H|].
    cbn [keys map fst] in H |- *. inversion H as [|? ? Hnot Hnd]; subst.
    constructor; [|by apply IH].
    intros Hin. apply Hnot.
    assert (Hk : forall x l, In x (keys (set_prop k v l)) -> x = k \/ In x (keys l)).
    { intros x l. induction l as [|[k2 v2] l IHl]; cbn.
      - intros [<- | []]. by left.
      - destruct (String.eqb k k2); cbn; intuition auto. }
    destruct (Hk _ _ Hin) as [->|Hin']; [|exact Hin'].
    by rewrite String.eqb_refl in E.
Qed.

Lemma keys_extraction_NoDup keylist ps acc :
  List.NoDup (keys acc) -> List.NoDup (keys (fst (extraction keylist ps acc))).
Proof.
  revert ps acc. induction keylist as [|key rest IH]; intros ps acc H; [exact H|].
  cbn [extraction]. destruct (has_prop key ps); apply IH; [|exact H].
  by apply keys_set_prop_NoDup.
Qed.

Lemma clone_not_mergeable v : isMergeableObject v = false -> clone v = v.
Proof. by destruct v. Qed.

(** X26, the query options of a call.  When no query-string option of the
    call is an object, [_prepareParams] encodes an object of parameters
    under options in which each query-string option of the call stands as
    it is, and every other key has a copy of what the query options of the
    instance hold: the options of the call win over those of the
    instance. *)
Theorem X26_call_query_options_win
  (qs : JsValue -> JsValue -> string) (st : State) (o : loc)
  (params : JsValue) (ps Q : Props) :
  heap st !! o = Some (JObj ps) ->
  heap st !! queryOptions (this st) = Some (JObj Q) ->
  queryOptions (this st) <> o ->
  List.NoDup (keys Q) ->
  forallb (fun k => negb (isMergeableObject (prop_of (JObj ps) k))) QUERY_OPTIONS
    = true ->
  instanceof_Object params = true ->
  exists used,
    fst (_prepareParams qs o params st) =
      Ok (if String.eqb (qs params (JObj used)) "" then ""
          else "?" +:+ qs params (JObj used)) /\
    forall k,
      lookup_prop k used =
        match (if listed k QUERY_OPTIONS then lookup_prop k ps else None) with
        | Some v => Some v
        | None => option_map clone (lookup_prop k Q)
        end.
Proof.
  intros E EQ Hq HQ Hall Hp.
  assert (Hscalar : forall k v, In k QUERY_OPTIONS -> lookup_prop k ps = Some v ->
                                isMergeableObject v = false).
  { intros k v Hk Hv. rewrite forallb_forall in Hall. specialize (Hall k Hk).
    cbn [prop_of] in Hall. rewrite Hv in Hall. by apply negb_true_iff in Hall. }
  rewrite (run_prepareParams qs st o params ps E Hq), (cell_lookup EQ). cbn [fst].
  unfold query_part. rewrite Hp. cbv zeta.
  destruct (merge_objects Q (fst (extraction QUERY_OPTIONS ps []))) as [used Hused].
  rewrite Hused. exists used. split; [reflexivity|].
  intros k.
  pose proof (lookup_merge k Q (fst (extraction QUERY_OPTIONS ps [])) HQ
                (keys_extraction_NoDup QUERY_OPTIONS ps [] (List.NoDup_nil _))) as Hl.
  rewrite Hused in Hl. rewrite Hl, lookup_extraction_moved.
  destruct (listed k QUERY_OPTIONS) eqn:El; [|reflexivity].
  destruct (lookup_prop k ps) as [v|] eqn:Ev; [|reflexivity].
  rewrite (listed_not_inherited k QUERY_OPTIONS eq_refl El). cbn [andb].
  apply listed_In in El. rewrite (Hscalar k v El Ev), andb_false_r.
  by rewrite (clone_not_mergeable v (Hscalar k v El Ev)).
Qed.

Lemma X26_call_query_options_win_witness :
  let ps := [("headers", JObj []); ("arrayFormat", JStr "comma")] in
  let Q := [("arrayFormat", JStr "bracket"); ("sort", JBool false)] in
  let st := {| this := with_queryOptions 0 blank; heap := [JObj Q; JObj ps] |} in
  let qs := fun (_ _ : JsValue) => "a=1" in
  let params := JObj [("a", JNum 1)] in
  exists used,
    fst (_prepareParams qs 1 params st) =
      Ok (if String.eqb (qs params (JObj used)) "" then ""
          else "?" +:+ qs params (JObj used)) /\
    forall k,
      lookup_prop k used =
        match (if listed k QUERY_OPTIONS then lookup_prop k ps else None) with
        | Some v => Some v
        | None => option_map clone (lookup_prop k Q)
        end.
Proof.
  intros ps Q st qs params.
  apply (X26_call_query_options_win qs st 1 params ps Q).
  - reflexivity.
  - reflexivity.
  - vm_compute. lia.
  - repeat constructor; cbn; intuition discriminate.
  - reflexivity.
  - reflexivity.
Defined.

(** X27, defaults and overrides.  In the options [_prepareOptions] returns,
    a member of the overrides that is not an object stands as it is, and a
    member only the defaults have is copied from them; this for every key
    but [auth] and [headers], and [agent]: when the instance has an agent,
    that agent is the [agent] member whatever the overrides say.  A member
    of the overrides whose key names a member every object inherits
    ([constructor], [toString], ...) and is not in the defaults is left
    out.  The defaults own no member named [__proto__], which would become
    the prototype of the options instead of a member of them. *)
Theorem X27_overrides_win
  (g options : JsValue) (st : State) (A B HA : Props) :
  heap st !! defaults (this st) = Some (JObj A) ->
  getValidObj options (JObj []) = JObj B ->
  List.NoDup (keys A) -> List.NoDup (keys B) ->
  has_prop "__proto__" A = false ->
  lookup_prop "headers" A = Some (JObj HA) ->
  (lookup_prop "headers" B = None \/
   exists HB, lookup_prop "headers" B = Some (JObj HB)) ->
  exists r E,
    _prepareOptions g options st =
      (Ok r, {| this := this st; heap := heap st ++ [JObj E] |}) /\
    r = length (heap st) /\
    (forall k v, k <> "auth" -> k <> "headers" ->
                 (truthy (agent (this st)) = true -> k <> "agent") ->
                 lookup_prop k B = Some v -> isMergeableObject v = false ->
                 lookup_prop k E =
                   if inherited k && negb (has_prop k A) then None else Some v) /\
    (forall k, k <> "auth" -> k <> "headers" ->
               (truthy (agent (this st)) = true -> k <> "agent") ->
               lookup_prop k B = None ->
               lookup_prop k E = option_map clone (lookup_prop k A)) /\
    (truthy (agent (this st)) = true ->
     lookup_prop "agent" E = Some (agent (this st))).
Proof.
  intros Hd Hv HA_nd HB_nd _ HhA HhB.
  destruct (prepareOptions_objects g options st A B HA Hd Hv HA_nd HB_nd HhA HhB)
    as (mp & hp & a & Hmp & Hhp & Ha & Hrun).
  eexists _, _. split; [exact Hrun|]. split; [reflexivity|].
  assert (Hl : forall k, lookup_prop k mp =
                 match lookup_prop k B with
                 | Some sv =>
                     if inherited k && negb (has_prop k A) then None
                     else Some (if has_prop k A && isMergeableObject sv
                                then merge (prop_of (JObj A) k) sv else clone sv)
                 | None => option_map clone (lookup_prop k A)
                 end).
  { intros k. pose proof (lookup_merge k A B HA_nd HB_nd) as H. by rewrite Hmp in H. }
  split; [|split].
  - intros k v H1 H2 H3 Hk Hs. rewrite lookup_effective by assumption.
    by rewrite Hl, Hk, Hs, andb_false_r, (clone_not_mergeable v Hs).
  - intros k H1 H2 H3 Hk. rewrite lookup_effective by assumption.
    by rewrite Hl, Hk.
  - intros Hag. unfold with_agent_member. rewrite Hag.
    by rewrite lookup_set_prop.
Qed.

Lemma X27_overrides_win_witness :
  let A := [("headers", JObj []); ("redirect", JStr "follow"); ("compress", JBool true)] in
  let B := [("redirect", JStr "manual"); ("toString", JStr "x")] in
  let st := {| this := blank; heap := [JObj A] |} in
  exists r E,
    _prepareOptions JUndefined (JObj B) st =
      (Ok r, {| this := this st; heap := heap st ++ [JObj E] |}) /\
    r = length (heap st) /\
    (forall k v, k <> "auth" -> k <> "headers" ->
                 (truthy (agent (this st)) = true -> k <> "agent") ->
                 lookup_prop k B = Some v -> isMergeableObject v = false ->
                 lookup_prop k E =
                   if inherited k && negb (has_prop k A) then None else Some v) /\
    (forall k, k <> "auth" -> k <> "headers" ->
               (truthy (agent (this st)) = true -> k <> "agent") ->
               lookup_prop k B = None ->
               lookup_prop k E = option_map clone (lookup_prop k A)) /\
    (truthy (agent (this st)) = true ->
     lookup_prop "agent" E = Some (agent (this st))).
Proof.
  intros A B st.
  apply (X27_overrides_win JUndefined (JObj B) st A B []).
  - reflexivity.
  - reflexivity.
  - repeat constructor; cbn; intuition discriminate.
  - repeat constructor; cbn; intuition discriminate.
  - reflexivity.
  - reflexivity.
  - left. reflexivity.
Defined.

